(** * The EchoHouse audio engine (AudioEngine, V7 "Graph-Optimized")

    A shallow embedding of the routing, effects and metrics code of
    [AudioEngine] and of the types it uses ([AudioSource], [VisualData],
    [SpectralBand], [FxState]).

    Modelling conventions.
    - A JavaScript [number] that carries a level, a gain or a frequency is a
      rational ([Q]): a double is the rational it denotes.  Values are
      computed exactly; where the rounding of binary64 decides which branch
      the code takes or which count it computes (the floor of the gain ramp,
      the bin counts of the band split), the test is made in binary64: the
      operands are read as the doubles nearest to them and every operation
      is rounded ([double_round]).  [NaN] and the infinities are outside
      the model.  Counts and indices are [nat].
    - A [Uint8Array] is a [list byte].
    - An [AudioParam] is represented by the target of the last
      [setTargetAtTime] (or by its initial [value]); the ramp itself is the
      host's business.
    - The Web Audio graph is represented by the outgoing edges of the nodes a
      channel owns.  [disconnect(dest)] raises when there is no such edge,
      [disconnect()] and [connect(dest)] never raise; [context.resume()]
      rejects on a closed context and [createMediaStreamSource] refuses a
      stream without an audio track.
    - [sources] is a JavaScript [Map]; it iterates in insertion order, so it
      is a list of channels keyed by their [id], in insertion order.
    - [peakLevels] is a plain object used as a dictionary: a [gmap]. *)

From Stdlib Require Import ZArith QArith Qround Qpower Lqa Lia List Bool.
From Stdlib Require Import Floats.
From Stdlib.Strings Require Import Byte.
From stdpp Require Import gmap strings.
Import ListNotations.
Open Scope Q_scope.

(** ** JavaScript numbers *)

Module JS.

Definition ltb (x y : Q) : bool :=
  match x ?= y with Lt => true | _ => false end.

(** [Math.max(a, b)] and [Math.min(a, b)]. *)
Definition Math_max (a b : Q) : Q := if ltb a b then b else a.
Definition Math_min (a b : Q) : Q := if ltb b a then b else a.

(** [Math.PI], the double nearest to pi: 884279719003555 / 2^48. *)
Definition Math_PI : Q := 884279719003555 # 281474976710656.

Definition Math_abs (x : Q) : Q := if ltb x 0 then - x else x.

(** [Math.sqrt], truncated to 52 fractional bits (exact at 0 and at every
    square on that grid). *)
Definition Math_sqrt (x : Q) : Q :=
  Z.sqrt (Qfloor (x * inject_Z (2 ^ 104))) # (2 ^ 52).

(** The integer part of a rational, rounding toward zero. *)
Definition trunc (x : Q) : Z := Z.quot (Qnum x) (Zpos (Qden x)).

(** [x % m] on numbers: the remainder has the sign of [x]. *)
Definition rem (x m : Q) : Q := x - m * inject_Z (trunc (x / m)).

(** A count as a number. *)
Definition of_nat (n : nat) : Q := inject_Z (Z.of_nat n).

(** [Math.floor] of a double, for comparison with the exact arithmetic of
    the model. *)
Definition double_floor (f : float) : Z :=
  match Prim2SF f with
  | S754_finite false m e =>
      if (0 <=? e)%Z then (Z.pos m * 2 ^ e)%Z else (Z.pos m / 2 ^ (- e))%Z
  | S754_finite true m e =>
      if (0 <=? e)%Z then (- (Z.pos m * 2 ^ e))%Z
      else (- ((Z.pos m + 2 ^ (- e) - 1) / 2 ^ (- e)))%Z
  | _ => 0%Z
  end.

(** *** Binary64

    [double_round x] is the double nearest to [x], ties to the even
    significand: 53 significant bits in the normal range, multiples of
    2^-1074 below it.  Overflow is not modelled. *)

(** The exponent of the leading bit of a positive number. *)
Definition ilog2 (x : Q) : Z :=
  let e0 := (Z.log2 (Qnum x) - Z.log2 (Zpos (Qden x)))%Z in
  if Qle_bool (2 ^ e0) x then e0 else (e0 - 1)%Z.

(** The nearest integer, ties to even. *)
Definition round_half_even (y : Q) : Z :=
  let f := Qfloor y in
  match Qcompare (y - inject_Z f) (1 # 2) with
  | Lt => f
  | Gt => (f + 1)%Z
  | Eq => if Z.even f then f else (f + 1)%Z
  end.

Definition double_round (x : Q) : Q :=
  match Qnum x with
  | Z0 => 0
  | Zpos _ =>
      let q := Z.max (ilog2 x - 52) (-1074) in
      inject_Z (round_half_even (x / 2 ^ q)) * 2 ^ q
  | Zneg _ =>
      let q := Z.max (ilog2 (- x) - 52) (-1074) in
      - (inject_Z (round_half_even (- x / 2 ^ q)) * 2 ^ q)
  end.

(** The doubles that the literals [0.06], [0.35] and [0.001] denote:
    0x1.eb851eb851eb8p-5, 0x1.6666666666666p-2 and 0x1.0624dd2f1a9fcp-10. *)
Definition double_006 : Q := 1080863910568919 # 18014398509481984.
Definition double_035 : Q := 3152519739159347 # 9007199254740992.
Definition double_0001 : Q := 1152921504606847 # 1152921504606846976.

(** The relative rounding error of binary64, 2^-53, and a bound, 2^-200, on
    the absolute error below the normal range. *)
Definition double_u : Q := Eval vm_compute in 1 # 2 ^ 53.
Definition double_tiny : Q := Eval vm_compute in 1 # 2 ^ 200.

(** The same three literals as the host's floats, and the number a finite
    float denotes, for comparison of [double_round] with the arithmetic of
    primitive floats. *)
Definition float_006 : float := 0x1.eb851eb851eb8p-5%float.
Definition float_035 : float := 0x1.6666666666666p-2%float.
Definition float_0001 : float := 0x1.0624dd2f1a9fcp-10%float.

Definition B2Q (f : float) : Q :=
  match Prim2SF f with
  | S754_finite s m e => (if s then -1 else 1) * (inject_Z (Z.pos m) * 2 ^ e)
  | _ => 0
  end.

(** An element of a [Uint8Array] as a number, 0..255. *)
Definition of_byte (b : byte) : Q := inject_Z (Z.of_N (Byte.to_N b)).

End JS.

Import JS.

(** ** Types (types.ts) *)

Inductive SourceType := screen | mic.

(** [crossfadeGroup: 'A' | 'B' | 'C'] *)
Inductive CrossfadeGroup := GroupA | GroupB | GroupC.

(** The three summing buses a channel can be routed to. *)
Inductive Bus := busA | busB | masterBus.

Inductive TrackKind := audio | video.

Record MediaStreamTrack := mkTrack {
  kind : TrackKind;
  track_label : string;
  live : bool            (* readyState = 'live'; [stop()] ends it *)
}.

Definition MediaStream := list MediaStreamTrack.

(** Outgoing edges of a channel's gain node. *)
Record GainEdges := mkEdges {
  to_analyser : bool;
  to_monitorGate : bool;
  to_busA : bool;
  to_busB : bool;
  to_master : bool
}.

(** The connect and disconnect calls issued on a gain node after its initial
    wiring in [addSource], most recent first. *)
Inductive GraphCall :=
| CallDisconnect (b : Bus)
| CallDisconnectAll
| CallConnect (b : Bus).

(** [ExtendedAudioSource]: [AudioSource] plus [_connectedBus].  The four
    nodes are given by their parameters and outgoing edges. *)
Record ExtendedAudioSource := mkSource {
  id : Z;
  label : string;
  stream : MediaStream;
  sourceNode_out : bool;          (* sourceNode -> gainNode *)
  gainNode_gain : Q;
  gainNode_out : GainEdges;
  gainNode_calls : list GraphCall;
  monitorGate_gain : Q;
  monitorGate_out : bool;         (* monitorGateNode -> monitorBus *)
  analyser_fftSize : nat;
  active : bool;
  volume : Q;
  muted : bool;
  solo : bool;
  monitoring : bool;
  type : SourceType;
  crossfadeGroup : CrossfadeGroup;
  _connectedBus : option Bus
}.

Record SpectralBand := mkBand { sb_bass : Q; sb_mid : Q; sb_high : Q }.

Record VisualData := mkVisual {
  bass : Q;
  mid : Q;
  high : Q;
  hue : Q;
  raw : list byte;
  peakLevels : gmap Z Q;
  groupA : SpectralBand;
  groupB : SpectralBand
}.

Inductive FilterType := lowpass | highpass | allpass.

Record FxState := mkFx {
  filterType : FilterType;
  filterFreq : Q;
  filterRes : Q;
  distortionAmount : Q;
  delayTime : Q;
  delayFeedback : Q;
  delayWet : Q
}.

(** [AudioContext.state] *)
Inductive ContextState := suspended | running | closed.

(** ** The engine *)

Record AudioEngine := mkEngine {
  context_state : ContextState;
  masterBus_gain : Q;
  monitorBus_gain : Q;
  compressor_threshold : Q;
  compressor_ratio : Q;
  filter_type : FilterType;
  filter_frequency : Q;
  filter_Q : Q;
  distortion_curve : option (list Q);
  delay_delayTime : Q;
  delayFeedback_gain : Q;
  delayWet_gain : Q;
  delayDry_gain : Q;
  sources : list ExtendedAudioSource;
  visualData : VisualData;
  _masterVolume : Q;
  _crossfader : Q;
  (* channel objects dropped from the registry, most recent first: the host
     resources they own outlive the registry entry *)
  released : list ExtendedAudioSource;
  (* the scratch array of the peak meter, [new Uint8Array(256)] *)
  _rmsBuffer : list byte
}.

(** *** The host graph *)

Module Host.

Definition no_edges : GainEdges := mkEdges false false false false false.

Definition has_edge (e : GainEdges) (b : Bus) : bool :=
  match b with
  | busA => to_busA e
  | busB => to_busB e
  | masterBus => to_master e
  end.

Definition set_edge (e : GainEdges) (b : Bus) (v : bool) : GainEdges :=
  match b with
  | busA => mkEdges (to_analyser e) (to_monitorGate e) v (to_busB e) (to_master e)
  | busB => mkEdges (to_analyser e) (to_monitorGate e) (to_busA e) v (to_master e)
  | masterBus => mkEdges (to_analyser e) (to_monitorGate e) (to_busA e) (to_busB e) v
  end.

(** [node.connect(bus)] *)
Definition connect (e : GainEdges) (b : Bus) : GainEdges := set_edge e b true.

(** [node.disconnect(bus)]: [None] is the InvalidAccessError raised when
    the node is not connected to that bus. *)
Definition disconnect_from (e : GainEdges) (b : Bus) : option GainEdges :=
  if has_edge e b then Some (set_edge e b false) else None.

(** [node.disconnect()] *)
Definition disconnect_all (_ : GainEdges) : GainEdges := no_edges.

(** The number of buses the gain node feeds. *)
Definition bus_count (e : GainEdges) : nat :=
  (if to_busA e then 1 else 0) + (if to_busB e then 1 else 0)
  + (if to_master e then 1 else 0).

Definition Bus_eqb (a b : Bus) : bool :=
  match a, b with
  | busA, busA | busB, busB | masterBus, masterBus => true
  | _, _ => false
  end.

(** [track.stop()] on every track of a stream. *)
Definition stop_tracks (s : MediaStream) : MediaStream :=
  map (fun t => mkTrack (kind t) (track_label t) false) s.

Definition getAudioTracks (s : MediaStream) : MediaStream :=
  List.filter (fun t => match kind t with audio => true | video => false end) s.

End Host.

(** *** Field updates *)

Definition with_routing (s : ExtendedAudioSource) (e : GainEdges)
    (calls : list GraphCall) (b : option Bus) : ExtendedAudioSource :=
  mkSource (id s) (label s) (stream s) (sourceNode_out s) (gainNode_gain s)
    e calls (monitorGate_gain s) (monitorGate_out s) (analyser_fftSize s)
    (active s) (volume s) (muted s) (solo s) (monitoring s) (type s)
    (crossfadeGroup s) b.

Definition with_gains (s : ExtendedAudioSource) (g m : Q) : ExtendedAudioSource :=
  mkSource (id s) (label s) (stream s) (sourceNode_out s) g
    (gainNode_out s) (gainNode_calls s) m (monitorGate_out s)
    (analyser_fftSize s) (active s) (volume s) (muted s) (solo s)
    (monitoring s) (type s) (crossfadeGroup s) (_connectedBus s).

Definition with_volume (s : ExtendedAudioSource) (v : Q) : ExtendedAudioSource :=
  mkSource (id s) (label s) (stream s) (sourceNode_out s) (gainNode_gain s)
    (gainNode_out s) (gainNode_calls s) (monitorGate_gain s)
    (monitorGate_out s) (analyser_fftSize s) (active s) v (muted s) (solo s)
    (monitoring s) (type s) (crossfadeGroup s) (_connectedBus s).

Definition with_muted (s : ExtendedAudioSource) (v : bool) : ExtendedAudioSource :=
  mkSource (id s) (label s) (stream s) (sourceNode_out s) (gainNode_gain s)
    (gainNode_out s) (gainNode_calls s) (monitorGate_gain s)
    (monitorGate_out s) (analyser_fftSize s) (active s) (volume s) v (solo s)
    (monitoring s) (type s) (crossfadeGroup s) (_connectedBus s).

Definition with_solo (s : ExtendedAudioSource) (v : bool) : ExtendedAudioSource :=
  mkSource (id s) (label s) (stream s) (sourceNode_out s) (gainNode_gain s)
    (gainNode_out s) (gainNode_calls s) (monitorGate_gain s)
    (monitorGate_out s) (analyser_fftSize s) (active s) (volume s) (muted s) v
    (monitoring s) (type s) (crossfadeGroup s) (_connectedBus s).

Definition with_monitoring (s : ExtendedAudioSource) (v : bool) : ExtendedAudioSource :=
  mkSource (id s) (label s) (stream s) (sourceNode_out s) (gainNode_gain s)
    (gainNode_out s) (gainNode_calls s) (monitorGate_gain s)
    (monitorGate_out s) (analyser_fftSize s) (active s) (volume s) (muted s)
    (solo s) v (type s) (crossfadeGroup s) (_connectedBus s).

Definition with_crossfadeGroup (s : ExtendedAudioSource) (g : CrossfadeGroup)
    : ExtendedAudioSource :=
  mkSource (id s) (label s) (stream s) (sourceNode_out s) (gainNode_gain s)
    (gainNode_out s) (gainNode_calls s) (monitorGate_gain s)
    (monitorGate_out s) (analyser_fftSize s) (active s) (volume s) (muted s)
    (solo s) (monitoring s) (type s) g (_connectedBus s).

Definition with_sources (e : AudioEngine) (l : list ExtendedAudioSource) : AudioEngine :=
  mkEngine (context_state e) (masterBus_gain e) (monitorBus_gain e)
    (compressor_threshold e) (compressor_ratio e) (filter_type e)
    (filter_frequency e) (filter_Q e) (distortion_curve e) (delay_delayTime e)
    (delayFeedback_gain e) (delayWet_gain e) (delayDry_gain e) l
    (visualData e) (_masterVolume e) (_crossfader e) (released e) (_rmsBuffer e).

Definition with_crossfader (e : AudioEngine) (c : Q) : AudioEngine :=
  mkEngine (context_state e) (masterBus_gain e) (monitorBus_gain e)
    (compressor_threshold e) (compressor_ratio e) (filter_type e)
    (filter_frequency e) (filter_Q e) (distortion_curve e) (delay_delayTime e)
    (delayFeedback_gain e) (delayWet_gain e) (delayDry_gain e) (sources e)
    (visualData e) (_masterVolume e) c (released e) (_rmsBuffer e).

Definition with_context (e : AudioEngine) (c : ContextState) : AudioEngine :=
  mkEngine c (masterBus_gain e) (monitorBus_gain e)
    (compressor_threshold e) (compressor_ratio e) (filter_type e)
    (filter_frequency e) (filter_Q e) (distortion_curve e) (delay_delayTime e)
    (delayFeedback_gain e) (delayWet_gain e) (delayDry_gain e) (sources e)
    (visualData e) (_masterVolume e) (_crossfader e) (released e) (_rmsBuffer e).

Definition with_visualData (e : AudioEngine) (v : VisualData) : AudioEngine :=
  mkEngine (context_state e) (masterBus_gain e) (monitorBus_gain e)
    (compressor_threshold e) (compressor_ratio e) (filter_type e)
    (filter_frequency e) (filter_Q e) (distortion_curve e) (delay_delayTime e)
    (delayFeedback_gain e) (delayWet_gain e) (delayDry_gain e) (sources e)
    v (_masterVolume e) (_crossfader e) (released e) (_rmsBuffer e).

Definition with_rmsBuffer (e : AudioEngine) (buf : list byte) : AudioEngine :=
  mkEngine (context_state e) (masterBus_gain e) (monitorBus_gain e)
    (compressor_threshold e) (compressor_ratio e) (filter_type e)
    (filter_frequency e) (filter_Q e) (distortion_curve e) (delay_delayTime e)
    (delayFeedback_gain e) (delayWet_gain e) (delayDry_gain e) (sources e)
    (visualData e) (_masterVolume e) (_crossfader e) (released e) buf.

(** *** The registry: [Map<number, ExtendedAudioSource>] *)

Module Registry.

(** [sources.get(id)] *)
Definition get (k : Z) (l : list ExtendedAudioSource) : option ExtendedAudioSource :=
  find (fun s => Z.eqb (id s) k) l.

(** [sources.has(id)] *)
Definition has (k : Z) (l : list ExtendedAudioSource) : bool :=
  match get k l with Some _ => true | None => false end.

(** [sources.delete(id)] *)
Definition delete (k : Z) (l : list ExtendedAudioSource) : list ExtendedAudioSource :=
  List.filter (fun s => negb (Z.eqb (id s) k)) l.

(** [sources.set(id, s)]: an existing key keeps its place, a new key goes
    to the end. *)
Fixpoint set (k : Z) (v : ExtendedAudioSource) (l : list ExtendedAudioSource)
    : list ExtendedAudioSource :=
  match l with
  | [] => [v]
  | s :: rest => if Z.eqb (id s) k then v :: rest else s :: set k v rest
  end.

(** A field write through the reference [sources.get(id)] returned: the
    entry under [k] is replaced by [f] of it. *)
Fixpoint update (k : Z) (f : ExtendedAudioSource -> ExtendedAudioSource)
    (l : list ExtendedAudioSource) : list ExtendedAudioSource :=
  match l with
  | [] => []
  | s :: rest => if Z.eqb (id s) k then f s :: rest else s :: update k f rest
  end.

End Registry.

(** ** AudioEngine *)

Definition INV_255 : Q := 1 / 255.
Definition INV_128 : Q := 1 / 128.
Definition RMS_WEIGHT : Q := 0.00390625.

(** [new AudioEngine(sharedVisualData)].  [ctx] is the state the host
    creates the context in. *)
Definition constructor (ctx : ContextState) (sharedVisualData : VisualData)
    : AudioEngine :=
  {| context_state := ctx;
     masterBus_gain := 1;
     monitorBus_gain := 1;
     compressor_threshold := -20;
     compressor_ratio := 12;
     filter_type := lowpass;
     filter_frequency := 20000;
     filter_Q := 1;
     distortion_curve := None;
     delay_delayTime := 0;
     delayFeedback_gain := 1;
     delayWet_gain := 0;
     delayDry_gain := 1;
     sources := [];
     visualData := sharedVisualData;
     _masterVolume := 1;
     _crossfader := 0;
     released := [];
     _rmsBuffer := repeat x00 256 |}.

Definition makeDistortionCurve (amount : Q) : list Q :=
  let k := Math_max 0 amount in
  let n_samples := 256%nat in
  let deg := Math_PI / 180 in
  map (fun i =>
         let x := (of_nat i * 2) / of_nat n_samples - 1 in
         ((3 + k) * x * 20 * deg) / (Math_PI + k * Math_abs x))
      (seq 0 n_samples).

(** [resume()]; [None] is the rejection of [context.resume()] on a closed
    context. *)
Definition resume (e : AudioEngine) : option AudioEngine :=
  match context_state e with
  | running => Some e
  | suspended => Some (with_context e running)
  | closed => None
  end.

(** *** updateMix *)

(** The [if (s._connectedBus !== targetBus)] branch. *)
Definition reroute (s : ExtendedAudioSource) (targetBus : Bus) : ExtendedAudioSource :=
  let '(edges, calls) :=
    match _connectedBus s with
    | Some old =>
        match Host.disconnect_from (gainNode_out s) old with
        | Some e' => (e', CallDisconnect old :: gainNode_calls s)
        | None =>
            (Host.disconnect_all (gainNode_out s),
             CallDisconnectAll :: CallDisconnect old :: gainNode_calls s)
        end
    | None =>
        (Host.disconnect_all (gainNode_out s),
         CallDisconnectAll :: gainNode_calls s)
    end in
  with_routing s (Host.connect edges targetBus)
    (CallConnect targetBus :: calls) (Some targetBus).

Definition connected_to (s : ExtendedAudioSource) (b : Bus) : bool :=
  match _connectedBus s with
  | Some c => Host.Bus_eqb c b
  | None => false
  end.

(** The body of [this.sources.forEach(s => ...)] in [updateMix]. *)
Definition mixSource (anySolo : bool) (crossfader : Q) (s : ExtendedAudioSource)
    : ExtendedAudioSource :=
  let targetGain := volume s in
  let targetGain := if muted s then 0 else targetGain in
  let targetGain := if anySolo && negb (solo s) then 0 else targetGain in
  let cross (crossfader : Q) :=
    match crossfadeGroup s with
    | GroupA => (busA, if ltb 0 crossfader then 1 - crossfader else 1)
    | GroupB => (busB, if ltb crossfader 0 then 1 + crossfader else 1)
    | GroupC => (masterBus, 1)
    end in
  let '(targetBus, crossfadeGain) := cross crossfader in
  (* [targetGain *= crossfadeGain] as the host holds it: the volume and the
     crossfader are doubles, the difference and the product are rounded to
     binary64.  It decides [targetGain < 0.001]. *)
  let held :=
    double_round
      (double_round targetGain
       * double_round (snd (cross (double_round crossfader)))) in
  let targetGain := targetGain * crossfadeGain in
  let s := if connected_to s targetBus then s else reroute s targetBus in
  with_gains s
    (if ltb held double_0001 then 0 else targetGain)
    (if monitoring s then 1 else 0).

Definition updateMix (e : AudioEngine) : AudioEngine :=
  let anySolo := existsb solo (sources e) in
  with_sources e (map (mixSource anySolo (_crossfader e)) (sources e)).

(** *** Source lifecycle *)

(** The [try] block of [removeSource]: a statement that raises leaves the
    statements after it unexecuted. *)
Definition teardown (s : ExtendedAudioSource) : ExtendedAudioSource :=
  let finish (edges : GainEdges) (calls : list GraphCall) :=
    mkSource (id s) (label s) (Host.stop_tracks (stream s)) false
      (gainNode_gain s) edges calls (monitorGate_gain s) false
      (analyser_fftSize s) (active s) (volume s) (muted s) (solo s)
      (monitoring s) (type s) (crossfadeGroup s) (_connectedBus s) in
  match _connectedBus s with
  | Some b =>
      match Host.disconnect_from (gainNode_out s) b with
      | Some e' => finish e' (CallDisconnect b :: gainNode_calls s)
      | None =>
          with_routing s (gainNode_out s)
            (CallDisconnect b :: gainNode_calls s) (_connectedBus s)
      end
  | None =>
      finish (Host.disconnect_all (gainNode_out s))
        (CallDisconnectAll :: gainNode_calls s)
  end.

Definition removeSource (k : Z) (e : AudioEngine) : AudioEngine :=
  match Registry.get k (sources e) with
  | Some s =>
      mkEngine (context_state e) (masterBus_gain e) (monitorBus_gain e)
        (compressor_threshold e) (compressor_ratio e) (filter_type e)
        (filter_frequency e) (filter_Q e) (distortion_curve e)
        (delay_delayTime e) (delayFeedback_gain e) (delayWet_gain e)
        (delayDry_gain e) (Registry.delete k (sources e)) (visualData e)
        (_masterVolume e) (_crossfader e) (teardown s :: released e)
        (_rmsBuffer e)
  | None => e
  end.

Definition newSource (slotId : Z) (st : MediaStream) (ty : SourceType)
    : ExtendedAudioSource :=
  {| id := slotId;
     label :=
       match ty with
       | screen => "System Feed"%string
       | mic =>
           match Host.getAudioTracks st with
           | t :: _ =>
               if String.eqb (track_label t) "" then "Input"%string
               else track_label t
           | [] => "Input"%string
           end
       end;
     stream := st;
     sourceNode_out := true;
     gainNode_gain := 0.8;
     gainNode_out := mkEdges true true false false false;
     gainNode_calls := [];
     monitorGate_gain := match ty with screen => 1 | mic => 0 end;
     monitorGate_out := true;
     analyser_fftSize := 128;
     active := true;
     volume := 0.8;
     muted := false;
     solo := false;
     monitoring := match ty with screen => true | mic => false end;
     type := ty;
     crossfadeGroup := GroupC;
     _connectedBus := None |}.

(** [addSource(slotId, stream, type)].  The promise rejects, leaving the
    engine as it is at that point, when [resume()] rejects and when
    [createMediaStreamSource] refuses a stream without an audio track. *)
Definition addSource (slotId : Z) (st : MediaStream) (ty : SourceType)
    (e : AudioEngine) : AudioEngine :=
  match resume e with
  | None => e
  | Some e =>
      let e := if Registry.has slotId (sources e) then removeSource slotId e else e in
      match Host.getAudioTracks st with
      | [] => e
      | _ :: _ =>
          updateMix
            (with_sources e (Registry.set slotId (newSource slotId st ty) (sources e)))
      end
  end.

Definition setSourceVolume (k : Z) (val : Q) (e : AudioEngine) : AudioEngine :=
  match Registry.get k (sources e) with
  | Some _ =>
      let v := Math_min 2 (Math_max 0 val) in
      updateMix
        (with_sources e (Registry.update k (fun s => with_volume s v) (sources e)))
  | None => e
  end.

Definition setMute (k : Z) (m : bool) (e : AudioEngine) : AudioEngine :=
  match Registry.get k (sources e) with
  | Some _ =>
      updateMix
        (with_sources e (Registry.update k (fun s => with_muted s m) (sources e)))
  | None => e
  end.

Definition setSolo (k : Z) (b : bool) (e : AudioEngine) : AudioEngine :=
  match Registry.get k (sources e) with
  | Some _ =>
      updateMix
        (with_sources e (Registry.update k (fun s => with_solo s b) (sources e)))
  | None => e
  end.

Definition setMonitoring (k : Z) (b : bool) (e : AudioEngine) : AudioEngine :=
  match Registry.get k (sources e) with
  | Some _ =>
      updateMix
        (with_sources e
           (Registry.update k (fun s => with_monitoring s b) (sources e)))
  | None => e
  end.

Definition setCrossfade (k : Z) (g : CrossfadeGroup) (e : AudioEngine) : AudioEngine :=
  match Registry.get k (sources e) with
  | Some _ =>
      updateMix
        (with_sources e
           (Registry.update k (fun s => with_crossfadeGroup s g) (sources e)))
  | None => e
  end.

Definition setCrossfader (val : Q) (e : AudioEngine) : AudioEngine :=
  updateMix (with_crossfader e (Math_max (-1) (Math_min 1 val))).

Definition setMasterVolume (val : Q) (e : AudioEngine) : AudioEngine :=
  let v := Math_max 0 (Math_min 2 val) in
  mkEngine (context_state e) v (monitorBus_gain e)
    (compressor_threshold e) (compressor_ratio e) (filter_type e)
    (filter_frequency e) (filter_Q e) (distortion_curve e)
    (delay_delayTime e) (delayFeedback_gain e) (delayWet_gain e)
    (delayDry_gain e) (sources e) (visualData e) v (_crossfader e)
    (released e) (_rmsBuffer e).

Definition setMonitorEnabled (enabled : bool) (e : AudioEngine) : AudioEngine :=
  mkEngine (context_state e) (masterBus_gain e) (if enabled then 1 else 0)
    (compressor_threshold e) (compressor_ratio e) (filter_type e)
    (filter_frequency e) (filter_Q e) (distortion_curve e)
    (delay_delayTime e) (delayFeedback_gain e) (delayWet_gain e)
    (delayDry_gain e) (sources e) (visualData e) (_masterVolume e)
    (_crossfader e) (released e) (_rmsBuffer e).

(** *** updateFx *)

Definition updateFx (state : FxState) (e : AudioEngine) : AudioEngine :=
  mkEngine (context_state e) (masterBus_gain e) (monitorBus_gain e)
    (compressor_threshold e) (compressor_ratio e)
    (filterType state)
    (Math_min 20000 (Math_max 20 (filterFreq state)))
    (Math_min 20 (Math_max 0 (filterRes state)))
    (if ltb 0 (distortionAmount state) then
       match distortion_curve e with
       | None => Some (makeDistortionCurve (distortionAmount state))
       | Some c =>
           if Nat.eqb (length c) 2
           then Some (makeDistortionCurve (distortionAmount state))
           else Some c
       end
     else None)
    (Math_min 4 (Math_max 0 (delayTime state)))
    (Math_min 0.95 (Math_max 0 (delayFeedback state)))
    (Math_min 1 (Math_max 0 (delayWet state)))
    (delayDry_gain e) (sources e) (visualData e) (_masterVolume e)
    (_crossfader e) (released e) (_rmsBuffer e).

(** [destroy()] *)
Definition destroy (e : AudioEngine) : AudioEngine :=
  fold_left (fun acc s => removeSource (id s) acc) (sources e)
    (with_context e closed).

(** *** Metrics *)

(** What the host's analysers deliver during one [processMetrics] call.  The
    spectrum scratch arrays of the two buses have the size of their
    analysers and are overwritten whole before each use, so they are given
    by their contents right after the read. *)
Record HostProbes := mkProbes {
  (* byte frequency data of [masterAnalyser] *)
  masterFrequencyData : list byte;
  (* [_tempArrayA] after [analyserA.getByteFrequencyData(_tempArrayA)] *)
  tempArrayA : list byte;
  (* [_tempArrayB] after [analyserB.getByteFrequencyData(_tempArrayB)] *)
  tempArrayB : list byte;
  (* the time-domain block of the analyser of the channel with the given
     id: [fftSize] samples *)
  timeDomainData : Z -> list byte
}.

(** [analyser.getByteFrequencyData(array)] writes into [array], which keeps
    its length: excess data is dropped, excess elements stay. *)
Definition getByteFrequencyData (data array : list byte) : list byte :=
  firstn (length array) data ++ skipn (length data) array.

(** [analyser.getByteTimeDomainData(array)]: the analyser writes its
    [fftSize] samples into [array]; elements of [array] beyond them stay as
    they are. *)
Definition getByteTimeDomainData (fftSize : nat) (data array : list byte)
    : list byte :=
  getByteFrequencyData (firstn fftSize data) array.

(** [for (let i = lo; i < hi; i++) acc += data[i]] *)
Definition sumRange (data : list byte) (lo hi : nat) : Q :=
  fold_left (fun acc i => acc + of_byte (nth i data x00)) (seq lo (hi - lo)) 0.

(** [Math.floor(len * ratio)] as a loop bound: the product is a double,
    rounded before the floor is taken. *)
Definition floorBins (len : nat) (ratio : Q) : nat :=
  Z.to_nat (Qfloor (double_round (of_nat len * ratio))).

Definition updateBandEnergy (data : list byte) (target : SpectralBand) : SpectralBand :=
  let len := length data in
  if Nat.eqb len 0 then mkBand 0 0 0
  else
    let bBins := floorBins len double_006 in
    let mBins := floorBins len double_035 in
    let b := sumRange data 0 bBins in
    let m := sumRange data bBins (bBins + mBins) in
    let h := sumRange data (bBins + mBins) len in
    mkBand ((b / Math_max 1 (of_nat bBins)) * INV_255)
           ((m / Math_max 1 (of_nat mBins)) * INV_255)
           ((h / Math_max 1 (of_nat len - of_nat bBins - of_nat mBins)) * INV_255).

(** [(_rmsBuffer[i] - 128) * INV_128] *)
Definition sampleAt (buf : list byte) (i : nat) : Q :=
  (of_byte (nth i buf x00) - 128) * INV_128.

(** The accumulation loop of the peak meter, unrolled by four as in the
    source: [for (let i = 0; i < 256; i += 4)]. *)
Definition rmsAcc (buf : list byte) : Q :=
  fold_left
    (fun acc k =>
       let i := (4 * k)%nat in
       let v1 := sampleAt buf i in
       let v2 := sampleAt buf (i + 1) in
       let v3 := sampleAt buf (i + 2) in
       let v4 := sampleAt buf (i + 3) in
       acc + (v1 * v1 + v2 * v2 + v3 * v3 + v4 * v4))
    (seq 0 64) 0.

(** [Math.sqrt(acc * RMS_WEIGHT) * 5.0] *)
Definition rawPeak (buf : list byte) : Q :=
  Math_sqrt (rmsAcc buf * RMS_WEIGHT) * 5.

(** The body of the peak-level [forEach] of [processMetrics], on the peak
    levels and the scratch array [_rmsBuffer]. *)
Definition peakStep (p : HostProbes) (acc : gmap Z Q * list byte)
    (s : ExtendedAudioSource) : gmap Z Q * list byte :=
  if active s then
    let buf :=
      getByteTimeDomainData (analyser_fftSize s) (timeDomainData p (id s))
        (snd acc) in
    let peak := rawPeak buf in
    let prev := default 0 (fst acc !! id s) in
    (<[id s := Math_max peak (prev * 0.90)]> (fst acc), buf)
  else acc.

Definition processMetrics (p : HostProbes) (e : AudioEngine) : AudioEngine :=
  match context_state e with
  | running =>
      let vd := visualData e in
      let data := getByteFrequencyData (masterFrequencyData p) (raw vd) in
      let len := length data in
      let bBins := floorBins len double_006 in
      let mBins := floorBins len double_035 in
      let b := sumRange data 0 bBins in
      let m := sumRange data bBins (bBins + mBins) in
      let h := sumRange data (bBins + mBins) len in
      let bass' := (b / Math_max 1 (of_nat bBins)) * INV_255 in
      let mid' := (m / Math_max 1 (of_nat mBins)) * INV_255 in
      let high' :=
        (h / Math_max 1 (of_nat len - of_nat bBins - of_nat mBins)) * INV_255 in
      let gA := updateBandEnergy (tempArrayA p) (groupA vd) in
      let gB := updateBandEnergy (tempArrayB p) (groupB vd) in
      let hue' := rem (hue vd + 0.15 + bass' * 2.5) 360 in
      let acc :=
        fold_left (peakStep p) (sources e) (peakLevels vd, _rmsBuffer e) in
      with_rmsBuffer
        (with_visualData e (mkVisual bass' mid' high' hue' data (fst acc) gA gB))
        (snd acc)
  | suspended | closed => e
  end.

(** ** The control surface as a transition system *)

Inductive Op :=
| OpResume
| OpAddSource (slotId : Z) (st : MediaStream) (ty : SourceType)
| OpRemoveSource (k : Z)
| OpSetSourceVolume (k : Z) (val : Q)
| OpSetMute (k : Z) (m : bool)
| OpSetSolo (k : Z) (b : bool)
| OpSetMonitoring (k : Z) (b : bool)
| OpSetCrossfade (k : Z) (g : CrossfadeGroup)
| OpSetCrossfader (val : Q)
| OpSetMasterVolume (val : Q)
| OpSetMonitorEnabled (enabled : bool)
| OpUpdateFx (state : FxState)
| OpProcessMetrics (p : HostProbes)
| OpDestroy.

Definition step (e : AudioEngine) (o : Op) : AudioEngine :=
  match o with
  | OpResume => match resume e with Some e' => e' | None => e end
  | OpAddSource slotId st ty => addSource slotId st ty e
  | OpRemoveSource k => removeSource k e
  | OpSetSourceVolume k val => setSourceVolume k val e
  | OpSetMute k m => setMute k m e
  | OpSetSolo k b => setSolo k b e
  | OpSetMonitoring k b => setMonitoring k b e
  | OpSetCrossfade k g => setCrossfade k g e
  | OpSetCrossfader val => setCrossfader val e
  | OpSetMasterVolume val => setMasterVolume val e
  | OpSetMonitorEnabled enabled => setMonitorEnabled enabled e
  | OpUpdateFx state => updateFx state e
  | OpProcessMetrics p => processMetrics p e
  | OpDestroy => destroy e
  end.

(** The engine after a sequence of calls, issued left to right. *)
Definition run (ops : list Op) (e : AudioEngine) : AudioEngine :=
  fold_left step ops e.

(** ** Vocabulary of the properties *)

(** The bus a crossfade group is routed to. *)
Definition targetBusOf (g : CrossfadeGroup) : Bus :=
  match g with
  | GroupA => busA
  | GroupB => busB
  | GroupC => masterBus
  end.

(** The routing half of [mixSource]: reconnect only when the bus changed. *)
Definition routeOf (s : ExtendedAudioSource) : ExtendedAudioSource :=
  let b := targetBusOf (crossfadeGroup s) in
  if connected_to s b then s else reroute s b.

(** The documented crossfade compensation. *)
Definition crossfadeCompensation (crossfader : Q) (g : CrossfadeGroup) : Q :=
  match g with
  | GroupA => if ltb 0 crossfader then 1 - crossfader else 1
  | GroupB => if ltb crossfader 0 then 1 + crossfader else 1
  | GroupC => 1
  end.

(** A gain times the compensation of a group as the host holds the product:
    the gain and the crossfader position are doubles, the compensation and
    the product are each rounded to binary64. *)
Definition held_product (g crossfader : Q) (grp : CrossfadeGroup) : Q :=
  double_round
    (double_round g
     * double_round (crossfadeCompensation (double_round crossfader) grp)).

(** Some other channel of the registry is soloed and this one is not. *)
Definition soloed_out (l : list ExtendedAudioSource) (s : ExtendedAudioSource) : Prop :=
  solo s = false /\ exists o, In o l /\ o <> s /\ solo o = true.

(** The documented gain of a channel: 0 when muted, else 0 when soloed out,
    else the stored volume times the compensation. *)
Definition documented_gain (l : list ExtendedAudioSource) (crossfader : Q)
    (s : ExtendedAudioSource) (g : Q) : Prop :=
  (muted s = true -> g == 0) /\
  (muted s = false -> soloed_out l s -> g == 0) /\
  (muted s = false -> ~ soloed_out l s ->
   g == volume s * crossfadeCompensation crossfader (crossfadeGroup s)).

(** The same with the floor of the gain ramp: a product below 0.001 is
    applied as 0. *)
Definition floored_gain (l : list ExtendedAudioSource) (crossfader : Q)
    (s : ExtendedAudioSource) (g : Q) : Prop :=
  (muted s = true -> g == 0) /\
  (muted s = false -> soloed_out l s -> g == 0) /\
  (muted s = false -> ~ soloed_out l s ->
   let v := volume s * crossfadeCompensation crossfader (crossfadeGroup s) in
   (v < 0.001 -> g == 0) /\ (0.001 <= v -> g == v)).

Definition volume_in_range (s : ExtendedAudioSource) : Prop :=
  0 <= volume s <= 2.

(** Every gain stage of the registry carries the floored gain of the stored
    channel state, and every stored volume lies in [0, 2]. *)
Definition mix_applied (e : AudioEngine) : Prop :=
  Forall (fun s =>
            floored_gain (sources e) (_crossfader e) s (gainNode_gain s)
            /\ volume_in_range s)
         (sources e).

(** The gain with the floor of the gain ramp as the host applies it: the
    product is applied as 0 when, held in binary64, it is below the double
    that the literal 0.001 denotes.  That is so for every product up to
    0.000999999999999 and for none from 0.001000000000001 on. *)
Definition ramped_gain (l : list ExtendedAudioSource) (crossfader : Q)
    (s : ExtendedAudioSource) (g : Q) : Prop :=
  (muted s = true -> g == 0) /\
  (muted s = false -> soloed_out l s -> g == 0) /\
  (muted s = false -> ~ soloed_out l s ->
   let comp := crossfadeCompensation crossfader (crossfadeGroup s) in
   let v := volume s * comp in
   let held := held_product (volume s) crossfader (crossfadeGroup s) in
   (held < double_0001 -> g == 0)
   /\ (double_0001 <= held -> g == v)
   /\ (v <= 0.000999999999999 -> g == 0)
   /\ (0.001000000000001 <= v -> g == v)).

(** Every gain stage of the registry carries the ramped gain of the stored
    channel state, every stored volume lies in [0, 2] and the crossfader in
    [-1, 1]. *)
Definition mix_carried (e : AudioEngine) : Prop :=
  -1 <= _crossfader e <= 1
  /\ Forall (fun s =>
               ramped_gain (sources e) (_crossfader e) s (gainNode_gain s)
               /\ volume_in_range s)
            (sources e).

(** The product stays clear of the band in which rounding decides the
    floor. *)
Definition clear_of_floor (crossfader : Q) (s : ExtendedAudioSource) : Prop :=
  let v := volume s * crossfadeCompensation crossfader (crossfadeGroup s) in
  v <= 0.000999999999999 \/ 0.001000000000001 <= v.

(** The floor test of the model against the host's own, for a volume and a
    crossfader position given as floats, group A, crossfader above 0. *)
Definition floor_test_agrees (v c : float) : bool :=
  Bool.eqb (ltb (held_product (B2Q v) (B2Q c) GroupA) double_0001)
           (PrimFloat.ltb (v * (1 - c)) float_0001).

(** Volumes at the floor, one and two units in the last place around
    0.001 / (1 - c), for the crossfader positions c = j / 64. *)
Definition floor_grid (n : nat) : list (float * float) :=
  flat_map
    (fun j =>
       let c := (PrimFloat.of_uint63 (Uint63.of_Z (Z.of_nat j)) / 64)%float in
       let v := (float_0001 / (1 - c))%float in
       [(v, c); (next_up v, c); (next_down v, c);
        (next_up (next_up v), c); (next_down (next_down v), c)])
    (seq 1 n).

(** Calls that end with the gains recomputed, or touch nothing the gains
    depend on: every call but the removals (which do not recompute the
    mix) and an [addSource] that the host refuses for want of an audio
    track. *)
Definition keeps_mix (o : Op) : bool :=
  match o with
  | OpRemoveSource _ | OpDestroy => false
  | OpAddSource _ st _ =>
      match Host.getAudioTracks st with [] => false | _ :: _ => true end
  | _ => true
  end.

(** The gain stage feeds the bus of the channel's group and nothing else,
    and [_connectedBus] records that bus. *)
Definition routed (s : ExtendedAudioSource) : Prop :=
  _connectedBus s = Some (targetBusOf (crossfadeGroup s))
  /\ gainNode_out s = Host.connect Host.no_edges (targetBusOf (crossfadeGroup s)).

(** What the routing step can start from: no bus recorded yet, or the
    recorded bus is the only edge of the gain stage. *)
Definition routable (s : ExtendedAudioSource) : Prop :=
  match _connectedBus s with
  | None => True
  | Some b => gainNode_out s = Host.connect Host.no_edges b
  end.

(** [r] is the value of [lo, hi] nearest to [v]. *)
Definition nearest_in (lo hi v r : Q) : Prop :=
  lo <= r <= hi
  /\ (lo <= v <= hi -> r == v)
  /\ (v < lo -> r == lo)
  /\ (hi < v -> r == hi).

(** Two curves hold the same samples. *)
Definition same_curve (c1 c2 : list Q) : Prop := Forall2 Qeq c1 c2.

(** The bin count of the specification: the floor of the exact product. *)
Definition exactBins (len : nat) (ratio : Q) : nat :=
  Z.to_nat (Qfloor (of_nat len * ratio)).

(** [Math.floor(len * ratio)] on the host's floats. *)
Definition floorBins_float (len : Z) (ratio : float) : Z :=
  double_floor (PrimFloat.mul (PrimFloat.of_uint63 (Uint63.of_Z len)) ratio).

(** The bin counts of the model are those of the host's floats, for the [n]
    lengths from [len] on. *)
Fixpoint bins_agree (n : nat) (len : Z) : bool :=
  match n with
  | O => true
  | S k =>
      (Z.of_nat (floorBins (Z.to_nat len) double_006)
       =? floorBins_float len float_006)%Z
      && (Z.of_nat (floorBins (Z.to_nat len) double_035)
          =? floorBins_float len float_035)%Z
      && bins_agree k (len + 1)
  end.

(** The registry of a [Map]: one entry per id; every channel the engine
    creates is active. *)
Definition well_formed (e : AudioEngine) : Prop :=
  List.NoDup (map id (sources e))
  /\ Forall (fun s => active s = true) (sources e).

(** The sum of a run of bins. *)
Definition binSum (l : list byte) : Q :=
  fold_right (fun b acc => of_byte b + acc) 0 l.

(** The mean of a band's bins, normalised by 255; an empty band has no
    energy. *)
Definition bandMean (l : list byte) : Q :=
  (binSum l / of_nat (Nat.max 1 (length l))) / 255.

(** The sum of the squares of the samples at the given indices of a
    window, a byte [b] being the sample (b - 128) / 128. *)
Definition squares (buf : list byte) (l : list nat) : Q :=
  fold_right
    (fun i acc =>
       let v := (of_byte (nth i buf x00) - 128) / 128 in v * v + acc)
    0 l.

(** The mean square of the 256 samples of the window. *)
Definition meanSquare (buf : list byte) : Q :=
  squares buf (seq 0 256) / 256.

(** The scratch array as every call of the engine leaves it: 256 elements,
    the upper 128 never written. *)
Definition upper_half_untouched (buf : list byte) : Prop :=
  length buf = 256%nat /\ skipn 128 buf = repeat x00 128.

(** The peak meter as the engine sets it up: the scratch array as above and
    every channel's analyser with [fftSize] 128. *)
Definition meter_set_up (e : AudioEngine) : Prop :=
  upper_half_untouched (_rmsBuffer e)
  /\ Forall (fun s => analyser_fftSize s = 128%nat) (sources e).

(** What the peak meter reads for a block of 128 samples: the block, then
    128 zero bytes. *)
Definition meterWindow (block : list byte) : list byte :=
  block ++ repeat x00 128.

(** The raw peak the meter computes for a block of silence: the RMS of 128
    samples 0 and 128 samples -1, times 5, about 3.5355. *)
Definition silenceFloor : Q := Math_sqrt (1 # 2) * 5.

(** The reported peak of a channel; a missing entry reads as 0. *)
Definition peakOf (e : AudioEngine) (k : Z) : Q :=
  default 0 (peakLevels (visualData e) !! k).

(** [n] metrics ticks in a row. *)
Definition ticks (ps : list HostProbes) (e : AudioEngine) : AudioEngine :=
  fold_left (fun acc p => processMetrics p acc) ps e.

(** ** Sample inputs *)

Definition emptyVisual : VisualData :=
  mkVisual 0 0 0 0 (repeat x00 1024) ∅ (mkBand 0 0 0) (mkBand 0 0 0).

Definition micStream : MediaStream := [mkTrack audio "Mic 1" true].

Definition defaultFx (amount : Q) : FxState :=
  mkFx allpass 20000 0 amount 0.3 0 0.

(** A fresh engine with one microphone in slot 1. *)
Definition oneMic : AudioEngine :=
  addSource 1 micStream mic (constructor running emptyVisual).

(** One tick in which every probe is silent: all spectra empty of energy,
    every time-domain byte at the midpoint 128. *)
Definition silentProbes : HostProbes :=
  mkProbes (repeat x00 512) (repeat x00 128) (repeat x00 128)
    (fun _ => repeat x80 128).

(** * PermissionManager (services/PermissionManager.ts) *)

Module Permission.

Inductive PermissionType := microphone | camera | serial | screen.
Inductive PermissionStatus := prompt | granted | denied | error.

Definition type_index (t : PermissionType) : nat :=
  match t with microphone => 0 | camera => 1 | serial => 2 | screen => 3 end.

Definition index_type (n : nat) : PermissionType :=
  match n with
  | 0 => microphone
  | 1 => camera
  | 2 => serial
  | _ => screen
  end%nat.

#[global] Instance PermissionType_eq_dec : EqDecision PermissionType.
Proof. solve_decision. Defined.

#[global] Instance PermissionType_countable : Countable PermissionType :=
  inj_countable' type_index index_type
    (fun t => match t with
              | microphone | camera | serial | screen => eq_refl
              end).

(** How a promise of the host settles: with a value, or with an error of
    which the manager reads the [name]. *)
Inductive Outcome (A : Type) :=
| Resolved (a : A)
| Rejected (name : string).

Arguments Resolved {A} a.
Arguments Rejected {A} name.

(** A serial port opened at a baud rate. *)
Record SerialPort := mkPort { port_baudRate : Z }.

(** The [statuses] map. *)
Abbreviation Statuses := (gmap PermissionType PermissionStatus).

(** The private constructor. *)
Definition constructor : Statuses :=
  <[screen := prompt]>
    (<[serial := prompt]> (<[camera := prompt]> (<[microphone := prompt]> ∅))).

(** [this.statuses.get(type) || 'prompt'] *)
Definition getStatus (t : PermissionType) (m : Statuses) : PermissionStatus :=
  match m !! t with
  | Some s => s
  | None => prompt
  end.

Definition handleError (t : PermissionType) (name : string) (m : Statuses)
    : Statuses :=
  if String.eqb name "NotAllowedError" || String.eqb name "PermissionDeniedError"
  then <[t := denied]> m
  else <[t := error]> m.

(** A [deviceId] that passes [deviceId ? ... : ...]: given and not empty. *)
Definition truthy (deviceId : option string) : bool :=
  match deviceId with
  | Some d => negb (String.eqb d EmptyString)
  | None => false
  end.

(** [requestMicrophone(deviceId)].  [first] is how the first
    [getUserMedia] settles, [fallback] how the second one does if it is
    made.  The result is the new map and how the returned promise
    settles. *)
Definition requestMicrophone (deviceId : option string)
    (first fallback : Outcome MediaStream) (m : Statuses)
    : Statuses * Outcome MediaStream :=
  match first with
  | Resolved stream => (<[microphone := granted]> m, Resolved stream)
  | Rejected name =>
      if truthy deviceId
         && (String.eqb name "OverconstrainedError"
             || String.eqb name "NotFoundError")
      then
        match fallback with
        | Resolved fallbackStream =>
            (<[microphone := granted]> m, Resolved fallbackStream)
        | Rejected fallbackErr =>
            (handleError microphone fallbackErr m, Rejected fallbackErr)
        end
      else (handleError microphone name m, Rejected name)
  end.

Definition requestCamera (out : Outcome MediaStream) (m : Statuses)
    : Statuses * Outcome MediaStream :=
  match out with
  | Resolved stream => (<[camera := granted]> m, Resolved stream)
  | Rejected name => (handleError camera name m, Rejected name)
  end.

Definition requestScreen (out : Outcome MediaStream) (m : Statuses)
    : Statuses * Outcome MediaStream :=
  match out with
  | Resolved stream => (<[screen := granted]> m, Resolved stream)
  | Rejected name => (<[screen := prompt]> m, Rejected name)
  end.

(** [requestSerial(baudRate)].  [supported] is ['serial' in navigator];
    [out] is how [requestPort()] followed by [port.open] settles. *)
Definition requestSerial (baudRate : Z) (supported : bool) (out : Outcome unit)
    (m : Statuses) : Statuses * Outcome SerialPort :=
  if supported then
    match out with
    | Resolved _ => (<[serial := granted]> m, Resolved (mkPort baudRate))
    | Rejected name => (handleError serial name m, Rejected name)
    end
  else (<[serial := error]> m, Rejected "Error").

(** The requests a client can make, each with what the host answers. *)
Inductive Request :=
| ReqMicrophone (deviceId : option string) (first fallback : Outcome MediaStream)
| ReqCamera (out : Outcome MediaStream)
| ReqScreen (out : Outcome MediaStream)
| ReqSerial (baudRate : Z) (supported : bool) (out : Outcome unit).

Definition step (m : Statuses) (r : Request) : Statuses :=
  match r with
  | ReqMicrophone deviceId first fallback =>
      fst (requestMicrophone deviceId first fallback m)
  | ReqCamera out => fst (requestCamera out m)
  | ReqScreen out => fst (requestScreen out m)
  | ReqSerial baudRate supported out =>
      fst (requestSerial baudRate supported out m)
  end.

Definition run (rs : list Request) (m : Statuses) : Statuses :=
  fold_left step rs m.

(** The permission a request is about. *)
Definition subject (r : Request) : PermissionType :=
  match r with
  | ReqMicrophone _ _ _ => microphone
  | ReqCamera _ => camera
  | ReqScreen _ => screen
  | ReqSerial _ _ _ => serial
  end.

(** The promise settled with a value. *)
Definition resolved {A : Type} (o : Outcome A) : bool :=
  match o with Resolved _ => true | Rejected _ => false end.

(** The error name is one of the two that [handleError] reads as a
    refusal. *)
Definition refusal (name : string) : bool :=
  String.eqb name "NotAllowedError" || String.eqb name "PermissionDeniedError".

End Permission.

(** * WebSocketService (services/WebSocketService.ts) *)

Module WebSocket.

Record ConnectionState := mkState {
  isConnected : bool;
  isConnecting : bool;
  lastPing : Z;
  latency : Z;
  reconnectAttempts : Z
}.

(** A parsed message, as far as the service reads it: its [type] and its
    [timestamp]. *)
Record WSMessage := mkMessage {
  msg_type : string;
  msg_timestamp : Z
}.

(** What [emit] hands to the listeners.  [EmitChannel] and [EmitMessage] are
    the two emits of [handleMessage]; the others are the service's own
    notifications. *)
Inductive Emit :=
| EmitConnected (timestamp : Z)
| EmitDisconnected (code : option Z)
| EmitError (type : string)
| EmitReconnecting (attempt maxAttempts delay : Z)
| EmitChannel (type : string)
| EmitMessage (type : string).

(** What the service asks of the sockets it creates. *)
Inductive SocketCall :=
| SockNew
| SockClose (code : option Z)
| SockSend.

(** The service: [ws] names the current socket by its creation number;
    [reconnectTimer] holds the delay the timer was armed with (the field is
    not cleared when the timer fires); [emitted] and [socket_calls] record
    the emits and the socket calls, latest first. *)
Record Service := mkService {
  ws : option nat;
  reconnectTimer : option Z;
  heartbeatTimer : bool;
  state : ConnectionState;
  emitted : list Emit;
  socket_calls : list (nat * SocketCall);
  sockets : nat
}.

Definition MAX_RECONNECT_ATTEMPTS : Z := 10.
Definition RECONNECT_DELAY_BASE : Z := 1000.
Definition HEARTBEAT_INTERVAL : Z := 5000.

Definition constructor : Service :=
  mkService None None false (mkState false false 0 0 0) [] [] 0.

Definition with_state (s : Service) (st : ConnectionState) : Service :=
  mkService (ws s) (reconnectTimer s) (heartbeatTimer s) st (emitted s)
    (socket_calls s) (sockets s).

Definition with_isConnected (st : ConnectionState) (b : bool) : ConnectionState :=
  mkState b (isConnecting st) (lastPing st) (latency st) (reconnectAttempts st).

Definition with_isConnecting (st : ConnectionState) (b : bool) : ConnectionState :=
  mkState (isConnected st) b (lastPing st) (latency st) (reconnectAttempts st).

Definition with_reconnectAttempts (st : ConnectionState) (n : Z) : ConnectionState :=
  mkState (isConnected st) (isConnecting st) (lastPing st) (latency st) n.

Definition emit (ev : Emit) (s : Service) : Service :=
  mkService (ws s) (reconnectTimer s) (heartbeatTimer s) (state s)
    (ev :: emitted s) (socket_calls s) (sockets s).

(** [this.ws?.close(code)] *)
Definition close_ws (code : option Z) (s : Service) : Service :=
  match ws s with
  | Some n =>
      mkService (ws s) (reconnectTimer s) (heartbeatTimer s) (state s)
        (emitted s) ((n, SockClose code) :: socket_calls s) (sockets s)
  | None => s
  end.

Definition stopHeartbeat (s : Service) : Service :=
  mkService (ws s) (reconnectTimer s) false (state s) (emitted s)
    (socket_calls s) (sockets s).

Definition startHeartbeat (s : Service) : Service :=
  mkService (ws s) (reconnectTimer s) true (state s) (emitted s)
    (socket_calls s) (sockets s).

Definition clearReconnectTimer (s : Service) : Service :=
  mkService (ws s) None (heartbeatTimer s) (state s) (emitted s)
    (socket_calls s) (sockets s).

(** [connect()].  [ctor_ok] tells whether [new WebSocket(wsUrl)] returns;
    when it raises, the [catch] clears [isConnecting]. *)
Definition connect (ctor_ok : bool) (s : Service) : Service :=
  if isConnected (state s) || isConnecting (state s) then s
  else
    let s := with_state s (with_isConnecting (state s) true) in
    if ctor_ok then
      mkService (Some (sockets s)) (reconnectTimer s) (heartbeatTimer s)
        (state s) (emitted s) ((sockets s, SockNew) :: socket_calls s)
        (S (sockets s))
    else with_state s (with_isConnecting (state s) false).

(** The connection timeout fires. *)
Definition onTimeout (s : Service) : Service :=
  let s := close_ws None s in
  with_state s (with_isConnecting (state s) false).

(** [ws.onopen] *)
Definition onopen (now : Z) (s : Service) : Service :=
  let st := with_isConnected (state s) true in
  let st := with_isConnecting st false in
  let st := with_reconnectAttempts st 0 in
  emit (EmitConnected now) (startHeartbeat (with_state s st)).

(** [handleMessage(event)].  [parsed] is [None] when the [try] block raises
    before it reads the type; [now1] and [now2] are the two readings of
    [Date.now()]. *)
Definition handleMessage (parsed : option WSMessage) (now1 now2 : Z)
    (s : Service) : Service :=
  match parsed with
  | Some message =>
      let s :=
        if String.eqb (msg_type message) "heartbeat" then
          with_state s
            (mkState (isConnected (state s)) (isConnecting (state s)) now2
               (now1 - msg_timestamp message) (reconnectAttempts (state s)))
        else s in
      emit (EmitMessage (msg_type message))
        (emit (EmitChannel (msg_type message)) s)
  | None => emit (EmitError "parse") s
  end.

Definition scheduleReconnect (s : Service) : Service :=
  if (MAX_RECONNECT_ATTEMPTS <=? reconnectAttempts (state s))%Z then
    emit (EmitError "reconnect") s
  else
    let attempts := (reconnectAttempts (state s) + 1)%Z in
    let s := with_state s (with_reconnectAttempts (state s) attempts) in
    let delay := (RECONNECT_DELAY_BASE * 2 ^ (attempts - 1))%Z in
    let s := emit (EmitReconnecting attempts MAX_RECONNECT_ATTEMPTS delay) s in
    mkService (ws s) (Some (Z.min delay 30000)) (heartbeatTimer s) (state s)
      (emitted s) (socket_calls s) (sockets s).

(** [handleDisconnect(event)], the body of [ws.onclose]. *)
Definition handleDisconnect (code : Z) (s : Service) : Service :=
  let wasConnected := isConnected (state s) in
  let st := with_isConnected (state s) false in
  let st := with_isConnecting st false in
  let s := emit (EmitDisconnected (Some code)) (stopHeartbeat (with_state s st)) in
  if wasConnected && negb (code =? 1000)%Z && negb (code =? 1001)%Z
  then scheduleReconnect s
  else s.

(** [ws.onerror] *)
Definition onerror (s : Service) : Service :=
  emit (EmitError "connection")
    (with_state s (with_isConnecting (state s) false)).

(** [disconnect()] *)
Definition disconnect (s : Service) : Service :=
  let s := clearReconnectTimer (stopHeartbeat s) in
  let s :=
    match ws s with
    | Some n =>
        mkService None (reconnectTimer s) (heartbeatTimer s) (state s)
          (emitted s) ((n, SockClose (Some 1000%Z)) :: socket_calls s)
          (sockets s)
    | None => s
    end in
  let st := with_isConnected (state s) false in
  let st := with_isConnecting st false in
  emit (EmitDisconnected None) (with_state s st).

(** [send(message)].  [send_ok] tells whether [ws.send] returns. *)
Definition send (send_ok : bool) (s : Service) : Service * bool :=
  match isConnected (state s), ws s with
  | true, Some n =>
      if send_ok then
        (mkService (ws s) (reconnectTimer s) (heartbeatTimer s) (state s)
           (emitted s) ((n, SockSend) :: socket_calls s) (sockets s),
         true)
      else (emit (EmitError "send") s, false)
  | _, _ => (s, false)
  end.

(** One firing of the heartbeat interval. *)
Definition heartbeat (send_ok : bool) (now : Z) (s : Service) : Service :=
  if isConnected (state s) then
    let s := fst (send send_ok s) in
    if (0 <? lastPing (state s))%Z
       && (HEARTBEAT_INTERVAL * 3 <? now - lastPing (state s))%Z
    then close_ws (Some 3000%Z) s
    else s
  else s.

(** The calls of the client and the callbacks of the host.  Which callback
    can fire when is the host's business: a timer may be cleared, a socket
    closed.  The properties below hold for every sequence. *)
Inductive Event :=
| DoConnect (ctor_ok : bool)
| DoDisconnect
| DoSend (send_ok : bool)
| OnTimeout
| OnOpen (now : Z)
| OnMessage (parsed : option WSMessage) (now1 now2 : Z)
| OnClose (code : Z)
| OnError
| OnReconnectTimer (ctor_ok : bool)
| OnHeartbeat (send_ok : bool) (now : Z).

Definition step (s : Service) (ev : Event) : Service :=
  match ev with
  | DoConnect ctor_ok => connect ctor_ok s
  | DoDisconnect => disconnect s
  | DoSend send_ok => fst (send send_ok s)
  | OnTimeout => onTimeout s
  | OnOpen now => onopen now s
  | OnMessage parsed now1 now2 => handleMessage parsed now1 now2 s
  | OnClose code => handleDisconnect code s
  | OnError => onerror s
  | OnReconnectTimer ctor_ok => connect ctor_ok s
  | OnHeartbeat send_ok now => heartbeat send_ok now s
  end.

Definition run (evs : list Event) (s : Service) : Service :=
  fold_left step evs s.

(** The number of 'connected' notifications and of 'reconnecting'
    notifications among the emits. *)
Definition opens (l : list Emit) : nat :=
  length (List.filter (fun e => match e with EmitConnected _ => true | _ => false end) l).

Definition reconnects (l : list Emit) : nat :=
  length (List.filter
            (fun e => match e with EmitReconnecting _ _ _ => true | _ => false end) l).

(** A notification of the reconnect logic that belongs to a first attempt:
    attempt 1 of 10 after 1000 ms, and not the report that the attempts are
    used up. *)
Definition first_attempt (e : Emit) : bool :=
  match e with
  | EmitReconnecting attempt maxAttempts delay =>
      (attempt =? 1)%Z && (maxAttempts =? 10)%Z && (delay =? 1000)%Z
  | EmitError type => negb (String.eqb type "reconnect")
  | _ => true
  end.

(** Events other than a socket opening. *)
Definition not_open (ev : Event) : bool :=
  match ev with
  | OnOpen _ => false
  | _ => true
  end.

(** What every reachable state of the service satisfies. *)
Definition reconnect_invariant (s : Service) : Prop :=
  (reconnectAttempts (state s) = 0 \/ reconnectAttempts (state s) = 1)%Z
  /\ (isConnected (state s) = true ->
      reconnectAttempts (state s) = 0%Z /\ isConnecting (state s) = false)
  /\ forallb first_attempt (emitted s) = true
  /\ (reconnects (emitted s) + (if isConnected (state s) then 1 else 0)
      <= opens (emitted s))%nat.

End WebSocket.

(** ** Vocabulary of the further properties *)

(** The levels the engine stores and hands to the host stay in range: the
    crossfader in [-1, 1], the master gain in [0, 2], every channel gain
    between 0 and the channel's volume, every volume at most 2, and every
    monitor gate open exactly when the channel is monitored. *)
Definition channel_in_range (s : ExtendedAudioSource) : Prop :=
  0 <= gainNode_gain s <= volume s
  /\ volume s <= 2
  /\ monitorGate_gain s = (if monitoring s then 1 else 0).

Definition levels_in_range (e : AudioEngine) : Prop :=
  -1 <= _crossfader e <= 1
  /\ 0 <= masterBus_gain e <= 2
  /\ Forall channel_in_range (sources e).

(** A channel object with no edge left and every track ended. *)
Definition torn_down (s : ExtendedAudioSource) : Prop :=
  gainNode_out s = Host.no_edges
  /\ sourceNode_out s = false
  /\ monitorGate_out s = false
  /\ Forall (fun t => live t = false) (stream s).

(** Two channel objects with the same stored settings and the same routing
    of the gain stage. *)
Definition same_settings (s s' : ExtendedAudioSource) : Prop :=
  id s' = id s /\ stream s' = stream s /\ volume s' = volume s
  /\ muted s' = muted s /\ solo s' = solo s /\ monitoring s' = monitoring s
  /\ crossfadeGroup s' = crossfadeGroup s
  /\ gainNode_out s' = gainNode_out s /\ gainNode_calls s' = gainNode_calls s
  /\ _connectedBus s' = _connectedBus s.

(** The channel belongs to the crossfade group. *)
Definition in_group (g : CrossfadeGroup) (s : ExtendedAudioSource) : bool :=
  match crossfadeGroup s, g with
  | GroupA, GroupA | GroupB, GroupB | GroupC, GroupC => true
  | _, _ => false
  end.

(** The gain targets of the channels of a group, in registry order. *)
Definition group_gains (g : CrossfadeGroup) (e : AudioEngine) : list Q :=
  map gainNode_gain (List.filter (in_group g) (sources e)).

(** Calls under which an installed distortion curve is not removed: every
    call but an [updateFx] whose amount is not positive. *)
Definition keeps_curve (o : Op) : bool :=
  match o with
  | OpUpdateFx state => ltb 0 (distortionAmount state)
  | _ => true
  end.

(** A band triple with every value in [0, 1]. *)
Definition band_in_range (b : SpectralBand) : Prop :=
  0 <= sb_bass b <= 1 /\ 0 <= sb_mid b <= 1 /\ 0 <= sb_high b <= 1.

(** The telemetry a consumer may rely on: band energies in [0, 1], the hue
    in [0, 360), and every peak level on record in [0, 5]. *)
Definition telemetry_in_range (vd : VisualData) : Prop :=
  0 <= bass vd <= 1 /\ 0 <= mid vd <= 1 /\ 0 <= high vd <= 1
  /\ 0 <= hue vd /\ hue vd < 360
  /\ band_in_range (groupA vd) /\ band_in_range (groupB vd)
  /\ (forall k v, peakLevels vd !! k = Some v -> 0 <= v <= 5).

(** Calls that do not register a channel under the id [k]. *)
Definition not_adding (k : Z) (o : Op) : bool :=
  match o with
  | OpAddSource slotId _ _ => negb (Z.eqb slotId k)
  | _ => true
  end.

(** Calls other than a metrics tick. *)
Definition not_metrics (o : Op) : bool :=
  match o with
  | OpProcessMetrics _ => false
  | _ => true
  end.

(** An [updateFx] call. *)
Definition is_updateFx (o : Op) : bool :=
  match o with
  | OpUpdateFx _ => true
  | _ => false
  end.

(** The parameters of the effect chain the engine has handed to the host:
    filter frequency and resonance, delay time, feedback, wet and dry
    gains. *)
Definition fx_levels (e : AudioEngine) : Q * Q * Q * Q * Q * Q :=
  (filter_frequency e, filter_Q e, delay_delayTime e, delayFeedback_gain e,
   delayWet_gain e, delayDry_gain e).

(** ** Numbers *)

Lemma ltb_true (x y : Q) : ltb x y = true <-> x < y.
Proof.
  unfold ltb. rewrite Qlt_alt. destruct (x ?= y); intuition congruence.
Qed.

Lemma ltb_false (x y : Q) : ltb x y = false <-> y <= x.
Proof.
  split; intro H.
  - apply Qnot_lt_le. intro L. apply ltb_true in L. congruence.
  - destruct (ltb x y) eqn:E; [|reflexivity].
    apply ltb_true in E. exfalso. apply (Qlt_not_le _ _ E H).
Qed.

Lemma ltb_comp (x x' y y' : Q) : x == x' -> y == y' -> ltb x y = ltb x' y'.
Proof.
  intros Hx Hy. unfold ltb. now rewrite Hx, Hy.
Qed.

Ltac case_ltb :=
  repeat match goal with
  | |- context [ltb ?a ?b] =>
      let E := fresh "E" in
      destruct (ltb a b) eqn:E;
      [apply ltb_true in E | apply ltb_false in E]
  | H : context [ltb ?a ?b] |- _ =>
      let E := fresh "E" in
      destruct (ltb a b) eqn:E;
      [apply ltb_true in E | apply ltb_false in E]
  end.

(** ** Binary64 rounding *)

Lemma two_pow_pos (k : Z) : 0 < 2 ^ k.
Proof. apply Qpower_0_lt. reflexivity. Qed.

Lemma two_pow_succ (k : Z) : 2 ^ (k + 1) == 2 * 2 ^ k.
Proof. rewrite Qpower_plus by discriminate. change (2 ^ 1) with 2. ring. Qed.

Lemma two_pow_Z (k : Z) : (0 <= k)%Z -> inject_Z (2 ^ k) == 2 ^ k.
Proof. intro H. now rewrite Zpower_Qpower. Qed.

Lemma ilog2_spec (x : Q) :
  0 < x -> 2 ^ ilog2 x <= x /\ x < 2 ^ (ilog2 x + 1).
Proof.
  intro Hx. destruct x as [n d]. unfold ilog2. cbn [Qnum Qden].
  assert (Hn : (0 < n)%Z).
  { unfold Qlt in Hx. cbn in Hx. lia. }
  set (a := Z.log2 n). set (b := Z.log2 (Z.pos d)).
  destruct (Z.log2_spec n Hn) as [An Bn]. fold a in An, Bn.
  destruct (Z.log2_spec (Z.pos d) (Pos2Z.is_pos d)) as [Ad Bd]. fold b in Ad, Bd.
  assert (Ha : (0 <= a)%Z) by apply Z.log2_nonneg.
  assert (Hb : (0 <= b)%Z) by apply Z.log2_nonneg.
  assert (X : n # d == inject_Z n / inject_Z (Z.pos d)) by apply Qmake_Qdiv.
  assert (Dpos : 0 < inject_Z (Z.pos d)).
  { change 0 with (inject_Z 0). rewrite <- Zlt_Qlt. lia. }
  assert (Pa := two_pow_pos a). assert (Pb := two_pow_pos b).
  (* bounds on n and d as numbers *)
  assert (N1 : 2 ^ a <= inject_Z n).
  { rewrite <- two_pow_Z by exact Ha. rewrite <- Zle_Qle. exact An. }
  assert (N2 : inject_Z n < 2 * 2 ^ a).
  { rewrite <- two_pow_succ, <- two_pow_Z by lia. rewrite <- Zlt_Qlt.
    replace (a + 1)%Z with (Z.succ a) by lia. exact Bn. }
  assert (D1 : 2 ^ b <= inject_Z (Z.pos d)).
  { rewrite <- two_pow_Z by exact Hb. rewrite <- Zle_Qle. exact Ad. }
  assert (D2 : inject_Z (Z.pos d) < 2 * 2 ^ b).
  { rewrite <- two_pow_succ, <- two_pow_Z by lia. rewrite <- Zlt_Qlt.
    replace (b + 1)%Z with (Z.succ b) by lia. exact Bd. }
  assert (E0 : 2 ^ (a - b) == 2 ^ a / 2 ^ b).
  { unfold Z.sub. rewrite Qpower_plus by discriminate. rewrite Qpower_opp.
    reflexivity. }
  set (dd := inject_Z (Z.pos d)) in *. set (nn := inject_Z n) in *.
  (* x < 2 * 2^(a-b) and 2^(a-b) / 2 < x *)
  assert (U : n # d < 2 * 2 ^ (a - b)).
  { rewrite X, E0. apply Qlt_shift_div_r; [exact Dpos|].
    setoid_replace (2 * (2 ^ a / 2 ^ b) * dd) with ((2 * 2 ^ a) * (dd / 2 ^ b))
      using relation Qeq by (field; lra).
    assert (G : 1 <= dd / 2 ^ b) by (apply Qle_shift_div_l; lra).
    assert (G2 : (2 * 2 ^ a) * 1 <= (2 * 2 ^ a) * (dd / 2 ^ b)).
    { apply Qmult_le_l; lra. }
    lra. }
  assert (Lo : 2 ^ (a - b) < 2 * (n # d)).
  { rewrite X, E0.
    apply Qlt_shift_div_r; [exact Pb|].
    setoid_replace (2 * (nn / dd) * 2 ^ b) with (nn * ((2 * 2 ^ b) / dd))
      using relation Qeq by (field; lra).
    assert (G : 1 < (2 * 2 ^ b) / dd) by (apply Qlt_shift_div_l; lra).
    assert (G2 : nn * 1 < nn * ((2 * 2 ^ b) / dd)).
    { apply Qmult_lt_l; lra. }
    lra. }
  destruct (Qle_bool (2 ^ (a - b)) (n # d)) eqn:T.
  - apply Qle_bool_iff in T. split; [exact T|]. now rewrite two_pow_succ.
  - assert (T' : n # d < 2 ^ (a - b)).
    { apply Qnot_le_lt. intro C. apply Qle_bool_iff in C. congruence. }
    replace (a - b - 1 + 1)%Z with (a - b)%Z by lia.
    split; [|exact T'].
    assert (S := two_pow_succ (a - b - 1)).
    replace (a - b - 1 + 1)%Z with (a - b)%Z in S by lia.
    lra.
Qed.

Lemma round_half_even_near (y : Q) :
  y - (1 # 2) <= inject_Z (round_half_even y) <= y + (1 # 2).
Proof.
  unfold round_half_even.
  pose proof (Qfloor_le y) as Lo. pose proof (Qlt_floor y) as Hi.
  rewrite inject_Z_plus in Hi. change (inject_Z 1) with 1 in Hi.
  set (f := Qfloor y) in *.
  destruct (Qcompare (y - inject_Z f) (1 # 2)) eqn:C.
  - apply Qeq_alt in C. destruct (Z.even f).
    + lra.
    + rewrite inject_Z_plus. change (inject_Z 1) with 1. lra.
  - apply Qlt_alt in C. lra.
  - apply Qgt_alt in C. rewrite inject_Z_plus. change (inject_Z 1) with 1. lra.
Qed.

Lemma round_half_even_nonneg (y : Q) : 0 <= y -> (0 <= round_half_even y)%Z.
Proof.
  intro H. unfold round_half_even.
  assert (F : (0 <= Qfloor y)%Z).
  { change 0%Z with (Qfloor 0). now apply Qfloor_resp_le. }
  destruct (Qcompare _ _); [destruct (Z.even _)| |]; lia.
Qed.

(** Rounding a positive number: the error is at most half a unit in the
    last place, which is 2^-53 of the number, or 2^-1075 below the normal
    range. *)
Lemma double_round_pos (x : Q) :
  0 < x ->
  0 <= double_round x
  /\ x - (x * double_u + double_tiny) <= double_round x
     <= x + (x * double_u + double_tiny).
Proof.
  intro Hx. unfold double_round.
  assert (Hn : exists p, Qnum x = Z.pos p).
  { destruct x as [n d]. unfold Qlt in Hx. cbn in *.
    destruct n; try lia. now exists p. }
  destruct Hn as [p ->].
  destruct (ilog2_spec x Hx) as [Lo Hi].
  set (e := ilog2 x) in *.
  set (q := Z.max (e - 52) (-1074)).
  pose proof (two_pow_pos q) as Pq.
  pose proof (round_half_even_near (x / 2 ^ q)) as [N1 N2].
  set (m := inject_Z (round_half_even (x / 2 ^ q))) in *.
  assert (M0 : 0 <= m).
  { unfold m. change 0 with (inject_Z 0). rewrite <- Zle_Qle.
    apply round_half_even_nonneg. apply Qle_shift_div_l; lra. }
  assert (X : x == (x / 2 ^ q) * 2 ^ q) by (field; lra).
  assert (E1 : (x / 2 ^ q - (1 # 2)) * 2 ^ q <= m * 2 ^ q)
    by (apply Qmult_le_compat_r; lra).
  assert (E2 : m * 2 ^ q <= (x / 2 ^ q + (1 # 2)) * 2 ^ q)
    by (apply Qmult_le_compat_r; lra).
  assert (Q1 : 2 ^ q <= x * (1 # 2 ^ 52) + (1 # 2 ^ 199)).
  { unfold q. destruct (Z.max_spec (e - 52) (-1074)) as [[_ ->] | [_ ->]].
    - assert (T : 2 ^ (-1074) <= 1 # 2 ^ 199) by (vm_compute; discriminate).
      assert (0 <= x * (1 # 2 ^ 52)) by (apply Qmult_le_0_compat; [lra | discriminate]).
      lra.
    - assert (T : 2 ^ (e - 52) == 2 ^ e * (1 # 2 ^ 52)).
      { unfold Z.sub. rewrite Qpower_plus by discriminate. reflexivity. }
      rewrite T.
      assert (G : 2 ^ e * (1 # 2 ^ 52) <= x * (1 # 2 ^ 52))
        by (apply Qmult_le_compat_r; [exact Lo | discriminate]).
      assert (0 <= (1 # 2 ^ 199)) by discriminate.
      lra. }
  split.
  - apply Qmult_le_0_compat; lra.
  - assert (H1 : (x / 2 ^ q - (1 # 2)) * 2 ^ q == x - (1 # 2) * 2 ^ q)
      by (field; lra).
    assert (H2 : (x / 2 ^ q + (1 # 2)) * 2 ^ q == x + (1 # 2) * 2 ^ q)
      by (field; lra).
    rewrite H1 in E1. rewrite H2 in E2.
    assert (C52 : (1 # 2 ^ 52) * (1 # 2) == double_u) by reflexivity.
    assert (T : (1 # 2 ^ 199) * (1 # 2) == double_tiny) by reflexivity.
    set (c52 := 1 # 2 ^ 52) in *. set (c199 := 1 # 2 ^ 199) in *.
    assert (U : x * c52 * (1 # 2) == x * double_u) by (rewrite <- C52; ring).
    assert (V : (1 # 2) * 2 ^ q <= x * double_u + double_tiny).
    { rewrite <- U, <- T. lra. }
    lra.
Qed.

Lemma double_round_0 (x : Q) : x == 0 -> double_round x = 0.
Proof.
  intro H. unfold double_round. destruct x as [n d]. unfold Qeq in H. cbn in *.
  assert (n = 0%Z) by lia. now subst.
Qed.

Lemma double_round_nonneg (x : Q) : 0 <= x -> 0 <= double_round x.
Proof.
  intro H. destruct (Qlt_le_dec 0 x) as [P|Z].
  - now apply double_round_pos.
  - rewrite double_round_0; lra.
Qed.

Lemma double_round_near (x : Q) :
  0 <= x ->
  x - (x * double_u + double_tiny) <= double_round x
  <= x + (x * double_u + double_tiny).
Proof.
  intro H. destruct (Qlt_le_dec 0 x) as [P|Z].
  - now apply double_round_pos.
  - rewrite double_round_0 by lra.
    assert (x == 0) by lra. unfold double_u, double_tiny. lra.
Qed.


Lemma scale_le (z x y : Q) : 0 <= z -> x <= y -> z * x <= z * y.
Proof.
  intros Hz H. rewrite !(Qmult_comm z). now apply Qmult_le_compat_r.
Qed.

Lemma compensation_range (c : Q) (g : CrossfadeGroup) :
  -1 <= c <= 1 -> 0 <= crossfadeCompensation c g <= 1.
Proof.
  intro H. destruct g; cbn [crossfadeCompensation]; case_ltb; lra.
Qed.

Lemma double_round_opp (x : Q) : double_round (- x) = - double_round x.
Proof.
  destruct x as [[|p|p] d]; unfold double_round; cbn [Qnum Qopp Z.opp].
  - reflexivity.
  - reflexivity.
  - change (- (Z.neg p # d)) with (Z.pos p # d).
    set (t := inject_Z _ * _). destruct t as [tn td].
    unfold Qopp. cbn [Qnum Qden]. now rewrite Z.opp_involutive.
Qed.

Lemma double_round_neg (x : Q) : double_round x = - double_round (- x).
Proof.
  rewrite <- double_round_opp. f_equal.
  destruct x as [n d]. unfold Qopp. cbn. now rewrite Z.opp_involutive.
Qed.

Lemma double_round_nonpos (x : Q) : x <= 0 -> double_round x <= 0.
Proof.
  intro H. rewrite double_round_neg.
  assert (P : 0 <= - x) by lra.
  pose proof (double_round_nonneg (- x) P) as N. lra.
Qed.

(** Rounding a number of magnitude at most [b]: the error is at most
    [b * 2^-53], or [2^-200] below that. *)
Lemma double_round_close (x b : Q) :
  - b <= x <= b ->
  x - (b * double_u + double_tiny) <= double_round x
  <= x + (b * double_u + double_tiny).
Proof.
  intros [Lo Hi].
  assert (U : 0 <= double_u) by discriminate.
  destruct (Qlt_le_dec x 0) as [N|P].
  - rewrite double_round_neg.
    assert (P : 0 <= - x) by lra.
    pose proof (double_round_near (- x) P) as [R1 R2].
    assert (M : (- x) * double_u <= b * double_u)
      by (apply Qmult_le_compat_r; lra).
    set (r := double_round (- x)) in *. lra.
  - pose proof (double_round_near x P) as [R1 R2].
    assert (M : x * double_u <= b * double_u)
      by (apply Qmult_le_compat_r; lra).
    lra.
Qed.

Lemma ilog2_unique (x : Q) (a b : Z) :
  2 ^ a <= x < 2 ^ (a + 1) -> 2 ^ b <= x < 2 ^ (b + 1) -> a = b.
Proof.
  intros [A1 A2] [B1 B2].
  assert (M : forall n m : Z, (n + 1 <= m)%Z -> 2 ^ (n + 1) <= 2 ^ m).
  { intros n m H. apply Qpower_le_compat_l; [exact H | discriminate]. }
  destruct (Z.lt_trichotomy a b) as [H|[H|H]]; [|exact H|].
  - specialize (M a b ltac:(lia)). lra.
  - specialize (M b a ltac:(lia)). lra.
Qed.

Lemma ilog2_comp (x y : Q) : 0 < x -> x == y -> ilog2 x = ilog2 y.
Proof.
  intros P E. assert (P' : 0 < y) by lra.
  pose proof (ilog2_spec x P) as Sx. pose proof (ilog2_spec y P') as Sy.
  apply (ilog2_unique x); [exact Sx|]. rewrite E. exact Sy.
Qed.

Lemma round_half_even_comp (x y : Q) :
  x == y -> round_half_even x = round_half_even y.
Proof.
  intro E. unfold round_half_even.
  rewrite (Qfloor_comp _ _ E).
  assert (C : Qcompare (x - inject_Z (Qfloor y)) (1 # 2)
              = Qcompare (y - inject_Z (Qfloor y)) (1 # 2)).
  { apply Qcompare_comp; [now rewrite E | reflexivity]. }
  now rewrite C.
Qed.

(** The rounding depends on the number, not on the fraction that denotes
    it. *)
Lemma double_round_comp (x y : Q) : x == y -> double_round x == double_round y.
Proof.
  assert (G : forall x y, 0 < x -> x == y -> double_round x == double_round y).
  { clear x y. intros x y P E. assert (P' : 0 < y) by lra.
    unfold double_round.
    assert (Hx : exists p, Qnum x = Z.pos p).
    { destruct x as [n d]. unfold Qlt in P. cbn in *.
      destruct n; try lia. now exists p. }
    assert (Hy : exists p, Qnum y = Z.pos p).
    { destruct y as [n d]. unfold Qlt in P'. cbn in *.
      destruct n; try lia. now exists p. }
    destruct Hx as [p ->]. destruct Hy as [p' ->].
    rewrite (ilog2_comp x y P E).
    set (q := Z.max (ilog2 y - 52) (-1074)).
    assert (D : x / 2 ^ q == y / 2 ^ q) by now rewrite E.
    now rewrite (round_half_even_comp _ _ D). }
  intro E. destruct (Qlt_le_dec 0 x) as [P|N].
  - now apply G.
  - destruct (Qlt_le_dec x 0) as [N'|Z].
    + rewrite (double_round_neg x), (double_round_neg y).
      assert (H : double_round (- x) == double_round (- y)).
      { apply G; [lra | now rewrite E]. }
      now rewrite H.
    + rewrite (double_round_0 x), (double_round_0 y) by lra. reflexivity.
Qed.

Lemma double_round_1 : double_round 1 == 1.
Proof. vm_compute. reflexivity. Qed.

(** The compensation the host computes from the double of the crossfader
    position is within one rounding of the documented one. *)
Lemma compensation_held (c : Q) (grp : CrossfadeGroup) :
  -1 <= c <= 1 ->
  let d := double_u + double_tiny in
  crossfadeCompensation c grp - d
  <= crossfadeCompensation (double_round c) grp
  <= crossfadeCompensation c grp + d.
Proof.
  intros Hc d.
  assert (B : - (1) <= c <= 1) by lra.
  pose proof (double_round_close c 1 B) as [R1 R2].
  assert (S1 : 0 <= c -> 0 <= double_round c) by apply double_round_nonneg.
  assert (S2 : c <= 0 -> double_round c <= 0) by apply double_round_nonpos.
  assert (D0 : 0 <= d) by discriminate.
  assert (E : 1 * double_u + double_tiny == d) by (unfold d; ring).
  rewrite E in R1, R2.
  set (r := double_round c) in *.
  destruct grp; cbn [crossfadeCompensation]; case_ltb; lra.
Qed.

(** The product the host holds is within 10^-15 of the exact product of the
    stored volume and the documented compensation. *)
Lemma held_product_near (g c : Q) (grp : CrossfadeGroup) :
  0 <= g <= 2 -> -1 <= c <= 1 ->
  let p := g * crossfadeCompensation c grp in
  p - (95 # 100000000000000000) <= held_product g c grp
  <= p + (95 # 100000000000000000).
Proof.
  intros Hg Hc p. unfold held_product.
  pose proof (compensation_range c grp Hc) as K.
  pose proof (compensation_held c grp Hc) as [C1 C2]. cbv zeta in C1, C2.
  set (comp := crossfadeCompensation c grp) in *.
  set (compd := crossfadeCompensation (double_round c) grp) in *.
  assert (Bg : - (2) <= g <= 2) by lra.
  pose proof (double_round_close g 2 Bg) as [G1 G2].
  pose proof (double_round_nonneg g (proj1 Hg)) as G0.
  set (gd := double_round g) in *.
  assert (Bc : - (1 + (1 # 1000)) <= compd <= 1 + (1 # 1000)).
  { unfold double_u, double_tiny in *. lra. }
  pose proof (double_round_close compd _ Bc) as [R1 R2].
  set (rd := double_round compd) in *.
  (* the two factors, each within [eps] of its exact value *)
  set (eps := 223 # 1000000000000000000).
  assert (Eg : - eps <= gd - g <= eps).
  { unfold eps, double_u, double_tiny in *. lra. }
  assert (Er : - eps <= rd - comp <= eps).
  { unfold eps, double_u, double_tiny in *. lra. }
  assert (X : gd * rd == p + (g * (rd - comp) + (gd - g) * comp
                              + (gd - g) * (rd - comp)))
    by (unfold p; ring).
  assert (T1 : - (2 * eps) <= g * (rd - comp) <= 2 * eps).
  { assert (g * (rd - comp) <= g * eps) by (apply scale_le; lra).
    assert (g * (- eps) <= g * (rd - comp)) by (apply scale_le; lra).
    assert (g * eps <= 2 * eps).
    { assert (eps * g <= eps * 2) by (apply scale_le; [discriminate | lra]).
      lra. }
    lra. }
  assert (T2 : - eps <= (gd - g) * comp <= eps).
  { assert (comp * (gd - g) <= comp * eps) by (apply scale_le; lra).
    assert (comp * (- eps) <= comp * (gd - g)) by (apply scale_le; lra).
    assert (comp * eps <= 1 * eps).
    { assert (eps * comp <= eps * 1) by (apply scale_le; [discriminate | lra]).
      lra. }
    lra. }
  assert (T3 : - ((1 # 1000) * eps) <= (gd - g) * (rd - comp) <= (1 # 1000) * eps).
  { destruct (Qlt_le_dec (rd - comp) 0) as [N|P].
    - assert (A : (- (rd - comp)) * (gd - g) <= (- (rd - comp)) * eps)
        by (apply scale_le; lra).
      assert (B : (- (rd - comp)) * (- eps) <= (- (rd - comp)) * (gd - g))
        by (apply scale_le; lra).
      assert (C : (- (rd - comp)) * eps <= (1 # 1000) * eps).
      { assert (eps * (- (rd - comp)) <= eps * (1 # 1000))
          by (apply scale_le; [discriminate | unfold eps in *; lra]).
        lra. }
      lra.
    - assert (A : (rd - comp) * (gd - g) <= (rd - comp) * eps)
        by (apply scale_le; lra).
      assert (B : (rd - comp) * (- eps) <= (rd - comp) * (gd - g))
        by (apply scale_le; lra).
      assert (C : (rd - comp) * eps <= (1 # 1000) * eps).
      { assert (eps * (rd - comp) <= eps * (1 # 1000))
          by (apply scale_le; [discriminate | unfold eps in *; lra]).
        lra. }
      lra. }
  set (x := gd * rd) in *.
  assert (Pp : 0 <= p <= 2).
  { unfold p. split; [apply Qmult_le_0_compat; lra|].
    assert (g * comp <= g * 1) by (apply scale_le; lra). lra. }
  assert (Bx : - (2 + (1 # 1000)) <= x <= 2 + (1 # 1000)).
  { unfold eps in *. lra. }
  pose proof (double_round_close x _ Bx) as [H1 H2].
  unfold eps, double_u, double_tiny in *. lra.
Qed.

Lemma ramp_floor_band (g c : Q) (grp : CrossfadeGroup) :
  0 <= g <= 2 -> -1 <= c <= 1 ->
  let p := g * crossfadeCompensation c grp in
  (p <= 0.000999999999999 -> ltb (held_product g c grp) double_0001 = true)
  /\ (0.001000000000001 <= p -> ltb (held_product g c grp) double_0001 = false).
Proof.
  intros Hg Hc p.
  destruct (held_product_near g c grp Hg Hc) as [L U]. fold p in L, U.
  unfold double_0001 in *.
  set (h := held_product g c grp) in *.
  split; intro H.
  - apply ltb_true. lra.
  - apply ltb_false. lra.
Qed.

(** [Math.min(hi, Math.max(lo, v))] is the nearest value of the range. *)
Lemma min_max_nearest (lo hi v : Q) :
  lo <= hi -> nearest_in lo hi v (Math_min hi (Math_max lo v)).
Proof.
  intro H. unfold nearest_in, Math_min, Math_max.
  case_ltb; repeat split; intros; try lra; try reflexivity.
Qed.

(** [Math.max(lo, Math.min(hi, v))] as well. *)
Lemma max_min_nearest (lo hi v : Q) :
  lo <= hi -> nearest_in lo hi v (Math_max lo (Math_min hi v)).
Proof.
  intro H. unfold nearest_in, Math_min, Math_max.
  case_ltb; repeat split; intros; try lra; try reflexivity.
Qed.

(** ** The mix of one channel *)

(** Case analysis on everything the routing step inspects. *)
Ltac route_cases s :=
  let go := fresh "go" in
  let cg := fresh "cg" in
  let cb := fresh "cb" in
  destruct s as [? ? ? ? ? go ? ? ? ? ? ? ? ? ? ? cg cb];
  destruct go as [? ? [] [] []]; destruct cg; destruct cb as [[]|];
  cbn.

Lemma routeOf_fields (s : ExtendedAudioSource) :
  id (routeOf s) = id s
  /\ volume (routeOf s) = volume s
  /\ muted (routeOf s) = muted s
  /\ solo (routeOf s) = solo s
  /\ monitoring (routeOf s) = monitoring s
  /\ crossfadeGroup (routeOf s) = crossfadeGroup s
  /\ active (routeOf s) = active s
  /\ stream (routeOf s) = stream s.
Proof.
  unfold routeOf, reroute, connected_to, with_routing.
  destruct (_connectedBus s) as [b|].
  - destruct (Host.Bus_eqb b _); [repeat split; reflexivity|].
    destruct (Host.disconnect_from _ _); repeat split; reflexivity.
  - repeat split; reflexivity.
Qed.

(** [mixSource] is the routing step followed by the two gain ramps. *)
Lemma mixSource_split (a : bool) (c : Q) (s : ExtendedAudioSource) :
  mixSource a c s =
  with_gains (routeOf s)
    (let tg := if a && negb (solo s) then 0 else if muted s then 0 else volume s in
     let comp := crossfadeCompensation c (crossfadeGroup s) in
     if ltb (held_product tg c (crossfadeGroup s)) double_0001
     then 0 else tg * comp)
    (if monitoring s then 1 else 0).
Proof.
  pose proof (routeOf_fields s) as (_ & _ & _ & _ & M & _).
  unfold mixSource, crossfadeCompensation. unfold routeOf in *.
  destruct (crossfadeGroup s); cbn [targetBusOf] in *; rewrite M; reflexivity.
Qed.

Lemma mixSource_fields (a : bool) (c : Q) (s : ExtendedAudioSource) :
  id (mixSource a c s) = id s
  /\ volume (mixSource a c s) = volume s
  /\ muted (mixSource a c s) = muted s
  /\ solo (mixSource a c s) = solo s
  /\ monitoring (mixSource a c s) = monitoring s
  /\ crossfadeGroup (mixSource a c s) = crossfadeGroup s
  /\ active (mixSource a c s) = active s
  /\ stream (mixSource a c s) = stream s.
Proof.
  rewrite mixSource_split. unfold with_gains; simpl. apply routeOf_fields.
Qed.

Lemma mixSource_id (a : bool) (c : Q) (s : ExtendedAudioSource) :
  id (mixSource a c s) = id s.
Proof. apply mixSource_fields. Qed.

Lemma mixSource_solo (a : bool) (c : Q) (s : ExtendedAudioSource) :
  solo (mixSource a c s) = solo s.
Proof. apply mixSource_fields. Qed.

(** The gain handed to the gain stage: the product, or 0 when the product
    the host holds is below the double 0.001. *)
Lemma mixSource_gain (a : bool) (c : Q) (s : ExtendedAudioSource) :
  gainNode_gain (mixSource a c s) =
  let tg := if a && negb (solo s) then 0 else if muted s then 0 else volume s in
  let comp := crossfadeCompensation c (crossfadeGroup s) in
  if ltb (held_product tg c (crossfadeGroup s)) double_0001
  then 0 else tg * comp.
Proof.
  rewrite mixSource_split. reflexivity.
Qed.

Lemma routeOf_connectedBus (s : ExtendedAudioSource) :
  _connectedBus (routeOf s) = Some (targetBusOf (crossfadeGroup s)).
Proof.
  route_cases s; reflexivity.
Qed.

(** After the mix [_connectedBus] is the bus of the group. *)
Lemma mixSource_connectedBus (a : bool) (c : Q) (s : ExtendedAudioSource) :
  _connectedBus (mixSource a c s) = Some (targetBusOf (crossfadeGroup s)).
Proof.
  rewrite mixSource_split. apply routeOf_connectedBus.
Qed.

(** A channel whose [_connectedBus] is already the target is left alone by
    the routing step. *)
Lemma routeOf_stable (s : ExtendedAudioSource) :
  _connectedBus s = Some (targetBusOf (crossfadeGroup s)) -> routeOf s = s.
Proof.
  intro H. unfold routeOf, connected_to. rewrite H.
  destruct (crossfadeGroup s); reflexivity.
Qed.

(** Such a channel keeps its edges and receives no graph call. *)
Lemma mixSource_stable (a : bool) (c : Q) (s : ExtendedAudioSource) :
  _connectedBus s = Some (targetBusOf (crossfadeGroup s)) ->
  gainNode_out (mixSource a c s) = gainNode_out s
  /\ gainNode_calls (mixSource a c s) = gainNode_calls s
  /\ _connectedBus (mixSource a c s) = _connectedBus s.
Proof.
  intro H. rewrite mixSource_split, (routeOf_stable s H).
  repeat split; reflexivity.
Qed.

(** Mixing twice is mixing once with the last parameters. *)
Lemma mixSource_absorb (a a' : bool) (c c' : Q) (s : ExtendedAudioSource) :
  mixSource a c (mixSource a' c' s) = mixSource a c s.
Proof.
  rewrite (mixSource_split a c (mixSource a' c' s)).
  destruct (mixSource_fields a' c' s) as (_ & -> & -> & -> & -> & -> & _).
  rewrite (routeOf_stable (mixSource a' c' s)).
  - rewrite (mixSource_split a' c' s), (mixSource_split a c s). reflexivity.
  - rewrite mixSource_connectedBus.
    now destruct (mixSource_fields a' c' s) as (_ & _ & _ & _ & _ & -> & _).
Qed.

Lemma existsb_solo_mix (a : bool) (c : Q) (l : list ExtendedAudioSource) :
  existsb solo (map (mixSource a c) l) = existsb solo l.
Proof.
  induction l as [|s l IH]; simpl; [reflexivity|].
  now rewrite mixSource_solo, IH.
Qed.

Lemma updateMix_sources (e : AudioEngine) :
  sources (updateMix e) =
  map (mixSource (existsb solo (sources e)) (_crossfader e)) (sources e).
Proof. reflexivity. Qed.

(** Recomputing the mix a second time changes nothing at all. *)
Lemma updateMix_idempotent (e : AudioEngine) :
  updateMix (updateMix e) = updateMix e.
Proof.
  unfold updateMix, with_sources; simpl. f_equal.
  rewrite existsb_solo_mix, List.map_map.
  apply List.map_ext. intro s. apply mixSource_absorb.
Qed.

Lemma with_crossfader_twice (e : AudioEngine) (c c' : Q) :
  with_crossfader (with_crossfader e c') c = with_crossfader e c.
Proof. reflexivity. Qed.

(** The mix recomputed after a crossfader move forgets the mix before it. *)
Lemma updateMix_crossfader_absorb (e : AudioEngine) (c : Q) :
  updateMix (with_crossfader (updateMix e) c) = updateMix (with_crossfader e c).
Proof.
  destruct e. unfold updateMix, with_crossfader, with_sources.
  cbn [sources _crossfader context_state masterBus_gain monitorBus_gain
       compressor_threshold compressor_ratio filter_type filter_frequency
       filter_Q distortion_curve delay_delayTime delayFeedback_gain
       delayWet_gain delayDry_gain visualData _masterVolume released].
  f_equal.
  rewrite existsb_solo_mix, List.map_map.
  apply List.map_ext. intro s. apply mixSource_absorb.
Qed.

(** ** The registry *)

Lemma get_In (k : Z) (l : list ExtendedAudioSource) (s : ExtendedAudioSource) :
  Registry.get k l = Some s -> In s l /\ id s = k.
Proof.
  unfold Registry.get. intro H. apply find_some in H.
  destruct H as [H1 H2]. split; [assumption|]. now apply Z.eqb_eq.
Qed.

Lemma get_None (k : Z) (l : list ExtendedAudioSource) :
  Registry.get k l = None <-> ~ In k (map id l).
Proof.
  unfold Registry.get. induction l as [|s l IH]; simpl.
  - tauto.
  - destruct (Z.eqb_spec (id s) k) as [E|N].
    + split; [discriminate | intro H; exfalso; apply H; now left].
    + rewrite IH. tauto.
Qed.

Lemma get_delete (k : Z) (l : list ExtendedAudioSource) :
  Registry.get k (Registry.delete k l) = None.
Proof.
  unfold Registry.get, Registry.delete. induction l as [|s l IH]; simpl.
  - reflexivity.
  - destruct (Z.eqb_spec (id s) k) as [E|N]; simpl; [assumption|].
    destruct (Z.eqb_spec (id s) k); [contradiction | assumption].
Qed.

Lemma In_delete (k : Z) (l : list ExtendedAudioSource) (s : ExtendedAudioSource) :
  In s (Registry.delete k l) -> In s l.
Proof.
  unfold Registry.delete. rewrite filter_In. tauto.
Qed.

Lemma In_set (k : Z) (v s : ExtendedAudioSource) (l : list ExtendedAudioSource) :
  In s (Registry.set k v l) -> s = v \/ In s l.
Proof.
  induction l as [|x l IH]; simpl.
  - intros [H|[]]; now left.
  - destruct (Z.eqb (id x) k); simpl.
    + intros [H|H]; [now left | right; now right].
    + intros [H|H]; [right; now left|].
      destruct (IH H) as [E|I]; [now left | right; now right].
Qed.

Lemma In_update (k : Z) (f : ExtendedAudioSource -> ExtendedAudioSource)
    (l : list ExtendedAudioSource) (s : ExtendedAudioSource) :
  In s (Registry.update k f l) -> In s l \/ exists s0, In s0 l /\ s = f s0.
Proof.
  induction l as [|x l IH]; simpl; [tauto|].
  destruct (Z.eqb (id x) k); simpl.
  - intros [H|H]; [right; exists x; split; [now left | now symmetry] | left; now right].
  - intros [H|H]; [left; now left|].
    destruct (IH H) as [I|[s0 [I E]]];
      [left; now right | right; exists s0; split; [now right | assumption]].
Qed.

Lemma Forall_delete (P : ExtendedAudioSource -> Prop) (k : Z)
    (l : list ExtendedAudioSource) :
  Forall P l -> Forall P (Registry.delete k l).
Proof.
  rewrite !List.Forall_forall. intros H s I. apply H. eapply In_delete, I.
Qed.

Lemma Forall_set (P : ExtendedAudioSource -> Prop) (k : Z)
    (v : ExtendedAudioSource) (l : list ExtendedAudioSource) :
  P v -> Forall P l -> Forall P (Registry.set k v l).
Proof.
  rewrite !List.Forall_forall. intros Hv H s I.
  destruct (In_set _ _ _ _ I) as [->|I']; auto.
Qed.

Lemma Forall_update (P : ExtendedAudioSource -> Prop) (k : Z)
    (f : ExtendedAudioSource -> ExtendedAudioSource)
    (l : list ExtendedAudioSource) :
  (forall s, P s -> P (f s)) -> Forall P l -> Forall P (Registry.update k f l).
Proof.
  rewrite !List.Forall_forall. intros Hf H s I.
  destruct (In_update _ _ _ _ I) as [I'|[s0 [I' ->]]]; auto.
Qed.

(** ** Routing *)

Lemma routed_routable (s : ExtendedAudioSource) : routed s -> routable s.
Proof.
  unfold routed, routable. intros [-> H]. exact H.
Qed.

Lemma routeOf_routed (s : ExtendedAudioSource) : routable s -> routed (routeOf s).
Proof.
  unfold routable, routed.
  destruct s as [? ? ? ? ? go ? ? ? ? ? ? ? ? ? ? cg cb].
  destruct cb as [[]|]; destruct cg; cbn; intro H; try rewrite H;
    split; reflexivity.
Qed.

Lemma mixSource_routed (a : bool) (c : Q) (s : ExtendedAudioSource) :
  routable s -> routed (mixSource a c s).
Proof.
  intro H. rewrite mixSource_split. apply routeOf_routed in H.
  unfold routed in *. exact H.
Qed.

Lemma updateMix_routed (e : AudioEngine) :
  Forall routable (sources e) -> Forall routed (sources (updateMix e)).
Proof.
  rewrite updateMix_sources, !List.Forall_forall. intros H s I.
  apply List.in_map_iff in I. destruct I as [s0 [<- I]].
  apply mixSource_routed, H, I.
Qed.

Lemma Forall_routed_routable (l : list ExtendedAudioSource) :
  Forall routed l -> Forall routable l.
Proof.
  apply List.Forall_impl. exact routed_routable.
Qed.

(** A field write that leaves the graph alone, followed by the mix. *)
Lemma update_mix_routed (e : AudioEngine) (k : Z)
    (f : ExtendedAudioSource -> ExtendedAudioSource) :
  (forall s, routable s -> routable (f s)) ->
  Forall routed (sources e) ->
  Forall routed
    (sources (updateMix (with_sources e (Registry.update k f (sources e))))).
Proof.
  intros Hf H. apply updateMix_routed. simpl.
  apply Forall_update; [exact Hf|]. now apply Forall_routed_routable.
Qed.

Lemma removeSource_routed (k : Z) (e : AudioEngine) :
  Forall routed (sources e) -> Forall routed (sources (removeSource k e)).
Proof.
  intro H. unfold removeSource.
  destruct (Registry.get k (sources e)); simpl; [|assumption].
  now apply Forall_delete.
Qed.

Lemma resume_sources (e e' : AudioEngine) :
  resume e = Some e' -> sources e' = sources e.
Proof.
  unfold resume. destruct (context_state e); intro H; inversion H; reflexivity.
Qed.

Lemma addSource_routed (slotId : Z) (st : MediaStream) (ty : SourceType)
    (e : AudioEngine) :
  Forall routed (sources e) -> Forall routed (sources (addSource slotId st ty e)).
Proof.
  intro H. unfold addSource.
  destruct (resume e) as [e'|] eqn:R; [|assumption].
  apply resume_sources in R. rewrite <- R in H.
  assert (H' : Forall routed
                 (sources (if Registry.has slotId (sources e')
                           then removeSource slotId e' else e'))).
  { destruct (Registry.has slotId (sources e'));
      [now apply removeSource_routed | assumption]. }
  destruct (Host.getAudioTracks st); [assumption|].
  apply updateMix_routed. simpl.
  apply Forall_set; [exact I | now apply Forall_routed_routable].
Qed.

Lemma destroy_routed (e : AudioEngine) :
  Forall routed (sources e) -> Forall routed (sources (destroy e)).
Proof.
  intro H. unfold destroy.
  assert (G : forall l acc, Forall routed (sources acc) ->
              Forall routed
                (sources (fold_left (fun acc s => removeSource (id s) acc) l acc))).
  { induction l as [|s l IH]; simpl; intros acc Ha; [assumption|].
    apply IH, removeSource_routed, Ha. }
  apply G. exact H.
Qed.

Lemma processMetrics_sources (p : HostProbes) (e : AudioEngine) :
  sources (processMetrics p e) = sources e.
Proof.
  unfold processMetrics. destruct (context_state e); reflexivity.
Qed.

Lemma step_routed (e : AudioEngine) (o : Op) :
  Forall routed (sources e) -> Forall routed (sources (step e o)).
Proof.
  intro H. destruct o; cbn [step]; try exact H.
  - destruct (resume e) as [e'|] eqn:R; [|assumption].
    now rewrite (resume_sources _ _ R).
  - now apply addSource_routed.
  - now apply removeSource_routed.
  - unfold setSourceVolume. destruct (Registry.get k (sources e)); [|assumption].
    apply update_mix_routed; [intros s Hs; exact Hs | assumption].
  - unfold setMute. destruct (Registry.get k (sources e)); [|assumption].
    apply update_mix_routed; [intros s Hs; exact Hs | assumption].
  - unfold setSolo. destruct (Registry.get k (sources e)); [|assumption].
    apply update_mix_routed; [intros s Hs; exact Hs | assumption].
  - unfold setMonitoring. destruct (Registry.get k (sources e)); [|assumption].
    apply update_mix_routed; [intros s Hs; exact Hs | assumption].
  - unfold setCrossfade. destruct (Registry.get k (sources e)); [|assumption].
    apply update_mix_routed; [intros s Hs; exact Hs | assumption].
  - unfold setCrossfader. apply updateMix_routed. simpl.
    now apply Forall_routed_routable.
  - now rewrite processMetrics_sources.
  - now apply destroy_routed.
Qed.

Lemma run_routed (ops : list Op) (e : AudioEngine) :
  Forall routed (sources e) -> Forall routed (sources (run ops e)).
Proof.
  unfold run. revert e. induction ops as [|o ops IH]; simpl; intros e H.
  - assumption.
  - apply IH, step_routed, H.
Qed.

Lemma routed_one_bus (s : ExtendedAudioSource) :
  routed s ->
  Host.bus_count (gainNode_out s) = 1%nat
  /\ Host.has_edge (gainNode_out s) (targetBusOf (crossfadeGroup s)) = true.
Proof.
  intros [_ ->]. destruct (crossfadeGroup s); split; reflexivity.
Qed.

(** C2: in every engine reached from the constructor by calls of the control
    surface, each registered channel's gain stage feeds exactly one bus, the
    bus of its crossfade group (busA for 'A', busB for 'B', the master bus
    otherwise), and [_connectedBus] records it; recomputing the mix there
    issues no connect or disconnect and changes no edge, and a second
    recomputation changes nothing at all. *)
Theorem C2_one_bus_and_stable_routing :
  forall (ctx : ContextState) (vd : VisualData) (ops : list Op),
    let e := run ops (constructor ctx vd) in
    (forall s, In s (sources e) ->
       Host.bus_count (gainNode_out s) = 1%nat
       /\ Host.has_edge (gainNode_out s) (targetBusOf (crossfadeGroup s)) = true
       /\ _connectedBus s = Some (targetBusOf (crossfadeGroup s)))
    /\ map gainNode_calls (sources (updateMix e)) = map gainNode_calls (sources e)
    /\ map gainNode_out (sources (updateMix e)) = map gainNode_out (sources e)
    /\ updateMix (updateMix e) = updateMix e.
Proof.
  intros ctx vd ops e.
  assert (R : Forall routed (sources e)).
  { apply run_routed. constructor. }
  rewrite List.Forall_forall in R.
  split; [|split; [|split]].
  - intros s I. destruct (routed_one_bus s (R s I)) as [B E].
    repeat split; try assumption. apply (R s I).
  - rewrite updateMix_sources, List.map_map. apply List.map_ext_in.
    intros s I. apply mixSource_stable, (R s I).
  - rewrite updateMix_sources, List.map_map. apply List.map_ext_in.
    intros s I. apply mixSource_stable, (R s I).
  - apply updateMix_idempotent.
Qed.

Lemma C2_witness :
  let e := run [OpAddSource 1 micStream mic; OpAddSource 2 micStream screen;
                OpSetCrossfade 1 GroupA; OpSetCrossfade 2 GroupB;
                OpSetCrossfader 0.5; OpSetCrossfade 1 GroupB; OpRemoveSource 2]
             (constructor suspended emptyVisual) in
  exists s, In s (sources e)
            /\ crossfadeGroup s = GroupB
            /\ Host.bus_count (gainNode_out s) = 1%nat
            /\ Host.has_edge (gainNode_out s) busB = true
            /\ map gainNode_calls (sources (updateMix e)) = map gainNode_calls (sources e).
Proof.
  intro e.
  pose proof (C2_one_bus_and_stable_routing suspended emptyVisual
                [OpAddSource 1 micStream mic; OpAddSource 2 micStream screen;
                 OpSetCrossfade 1 GroupA; OpSetCrossfade 2 GroupB;
                 OpSetCrossfader 0.5; OpSetCrossfade 1 GroupB; OpRemoveSource 2])
    as T.
  cbv zeta in T. fold e in T. destruct T as (B & C & _).
  remember (sources e) as l eqn:L. vm_compute in L. subst l.
  eexists. split; [left; reflexivity|].
  destruct (B _ (or_introl eq_refl)) as (B1 & B2 & _).
  split; [reflexivity|]. split; [exact B1|]. split; [exact B2 | exact C].
Defined.

(** ** Crossfader *)

(** C8: setting the crossfader to x, then to -x, then back to x leaves the
    engine exactly as setting it to x once does: same gains, same edges, same
    [_connectedBus], same record of graph calls. *)
Theorem C8_crossfader_round_trip :
  forall (e : AudioEngine) (x : Q),
    setCrossfader x (setCrossfader (- x) (setCrossfader x e)) = setCrossfader x e.
Proof.
  intros e x. unfold setCrossfader.
  rewrite (updateMix_crossfader_absorb _ (Math_max (-1) (Math_min 1 x))).
  rewrite with_crossfader_twice, updateMix_crossfader_absorb.
  now rewrite with_crossfader_twice.
Qed.

(** ** Suspended context *)

(** C10: while the audio context is not running, [processMetrics] returns
    the engine as it is; the telemetry record, peak levels included, keeps
    every field. *)
Theorem C10_metrics_frozen_unless_running :
  forall (p : HostProbes) (e : AudioEngine),
    context_state e <> running ->
    processMetrics p e = e
    /\ visualData (processMetrics p e) = visualData e
    /\ (forall k, peakLevels (visualData (processMetrics p e)) !! k
                  = peakLevels (visualData e) !! k).
Proof.
  intros p e H. unfold processMetrics.
  destruct (context_state e); [| congruence |]; repeat split; reflexivity.
Qed.

Lemma C10_witness :
  context_state (with_context oneMic suspended) <> running
  /\ processMetrics (mkProbes [] [] [] (fun _ => [])) (with_context oneMic suspended)
     = with_context oneMic suspended.
Proof.
  assert (H : context_state (with_context oneMic suspended) <> running)
    by discriminate.
  split; [exact H|].
  apply (C10_metrics_frozen_unless_running (mkProbes [] [] [] (fun _ => [])) _ H).
Defined.

(** ** Absent ids *)

(** C9: a call that names an id absent from the registry returns the engine
    unchanged: registry, channels, routing, bus gains and telemetry. *)
Theorem C9_absent_id_is_noop :
  forall (e : AudioEngine) (k : Z),
    Registry.get k (sources e) = None ->
    removeSource k e = e
    /\ (forall val, setSourceVolume k val e = e)
    /\ (forall m, setMute k m e = e)
    /\ (forall b, setSolo k b e = e)
    /\ (forall b, setMonitoring k b e = e)
    /\ (forall g, setCrossfade k g e = e).
Proof.
  intros e k H.
  unfold removeSource, setSourceVolume, setMute, setSolo, setMonitoring,
    setCrossfade.
  rewrite H. repeat split; reflexivity.
Qed.

Lemma C9_witness :
  Registry.get 7 (sources oneMic) = None
  /\ removeSource 7 oneMic = oneMic
  /\ setMute 7 true oneMic = oneMic.
Proof.
  assert (H : Registry.get 7 (sources oneMic) = None) by reflexivity.
  destruct (C9_absent_id_is_noop oneMic 7 H) as (R & _ & M & _).
  split; [exact H|]. split; [exact R | exact (M true)].
Defined.

(** ** Gains *)

Lemma mix_applied_ext (e e' : AudioEngine) :
  sources e' = sources e -> _crossfader e' = _crossfader e ->
  mix_applied e -> mix_applied e'.
Proof.
  unfold mix_applied. intros -> ->. tauto.
Qed.

Lemma mix_applied_volumes (e : AudioEngine) :
  mix_applied e -> Forall volume_in_range (sources e).
Proof.
  unfold mix_applied. apply List.Forall_impl. intros s [_ H]. exact H.
Qed.

Lemma mix_carried_volumes (e : AudioEngine) :
  mix_carried e -> Forall volume_in_range (sources e).
Proof.
  intros [_ H]. revert H. apply List.Forall_impl. intros s [_ H]. exact H.
Qed.

(** The gain [mixSource] hands to the gain stage of an unmuted channel that
    is not soloed out. *)
Lemma ramp_of_product (v c : Q) (grp : CrossfadeGroup) :
  0 <= v <= 2 -> -1 <= c <= 1 ->
  let comp := crossfadeCompensation c grp in
  let held := held_product v c grp in
  let g := if ltb held double_0001 then 0 else v * comp in
  (held < double_0001 -> g == 0)
  /\ (double_0001 <= held -> g == v * comp)
  /\ (v * comp <= 0.000999999999999 -> g == 0)
  /\ (0.001000000000001 <= v * comp -> g == v * comp).
Proof.
  intros Hv Hc comp held g.
  destruct (ramp_floor_band v c grp Hv Hc) as [Lo Hi].
  fold comp held in Lo, Hi. unfold g. repeat split.
  - intro H. apply ltb_true in H. now rewrite H.
  - intro H. apply ltb_false in H. now rewrite H.
  - intro H. now rewrite (Lo H).
  - intro H. now rewrite (Hi H).
Qed.

(** Whatever the engine, the gains [updateMix] hands to the gain stages are
    the ramped gains of the stored state. *)
Lemma updateMix_carried (e : AudioEngine) :
  -1 <= _crossfader e <= 1 ->
  Forall volume_in_range (sources e) -> mix_carried (updateMix e).
Proof.
  intros C V. split; [exact C|].
  change (_crossfader (updateMix e)) with (_crossfader e).
  rewrite updateMix_sources.
  set (l := sources e) in *. set (a := existsb solo l). set (c := _crossfader e) in *.
  rewrite List.Forall_forall in *. intros s' I.
  apply List.in_map_iff in I. destruct I as [s [<- I]].
  destruct (mixSource_fields a c s) as (_ & Hv & Hm & Hs & _ & Hg & _).
  split; [|unfold volume_in_range in *; rewrite Hv; apply (V s I)].
  unfold ramped_gain. rewrite mixSource_gain, Hv, Hm, Hg. cbv zeta.
  pose proof (compensation_range c (crossfadeGroup s) C) as K.
  set (comp := crossfadeCompensation c (crossfadeGroup s)) in *.
  split; [|split].
  - intros ->. destruct (a && negb (solo s));
      destruct (ltb (held_product 0 c (crossfadeGroup s)) double_0001); lra.
  - intros _ [S [o [Io [_ So]]]]. rewrite Hs in S.
    assert (A : a = true).
    { unfold a. rewrite <- (existsb_solo_mix a c l).
      apply existsb_exists. exists o. split; assumption. }
    rewrite A, S. cbn [negb andb].
    destruct (ltb (held_product 0 c (crossfadeGroup s)) double_0001); lra.
  - intros M N.
    assert (A : a && negb (solo s) = false).
    { destruct (solo s) eqn:S; [apply andb_false_r|].
      destruct a eqn:A; [|reflexivity]. exfalso. apply N.
      split; [now rewrite Hs|].
      unfold a in A. apply existsb_exists in A. destruct A as [o [Io So]].
      exists (mixSource true c o). split; [|split].
      - apply List.in_map_iff. exists o. split; [reflexivity | assumption].
      - intro E. apply (f_equal solo) in E.
        rewrite !mixSource_solo in E. congruence.
      - now rewrite mixSource_solo. }
    rewrite A, M. apply ramp_of_product; [apply (V s I) | exact C].
Qed.

Lemma clamped_volume_in_range (s : ExtendedAudioSource) (val : Q) :
  volume_in_range (with_volume s (Math_min 2 (Math_max 0 val))).
Proof.
  unfold volume_in_range; simpl. apply min_max_nearest. lra.
Qed.

(** A field write under an id, followed by the mix. *)
Lemma update_mix_carried (e : AudioEngine) (k : Z)
    (f : ExtendedAudioSource -> ExtendedAudioSource) :
  (forall s, volume_in_range s -> volume_in_range (f s)) ->
  mix_carried e ->
  mix_carried (updateMix (with_sources e (Registry.update k f (sources e)))).
Proof.
  intros Hf H. apply updateMix_carried; [apply H|]. cbn [sources with_sources].
  apply Forall_update; [exact Hf | now apply mix_carried_volumes].
Qed.

Lemma step_carried (e : AudioEngine) (o : Op) :
  mix_carried e -> keeps_mix o = true -> mix_carried (step e o).
Proof.
  intros H K. destruct o; cbn [step]; try discriminate K; try exact H.
  - destruct (resume e) as [e'|] eqn:R; [|assumption].
    unfold resume in R. destruct (context_state e); inversion R; subst; exact H.
  - unfold addSource. cbn [keeps_mix] in K.
    destruct (resume e) as [e'|] eqn:R; [|assumption].
    assert (H' : mix_carried e').
    { unfold resume in R. destruct (context_state e); inversion R; subst; exact H. }
    destruct (Host.getAudioTracks st); [discriminate K|].
    apply updateMix_carried.
    { destruct (Registry.has slotId (sources e')); [|apply H'].
      unfold removeSource. destruct (Registry.get slotId (sources e')); apply H'. }
    cbn [sources with_sources].
    apply Forall_set; [unfold volume_in_range; simpl; lra|].
    apply mix_carried_volumes in H'.
    destruct (Registry.has slotId (sources e')); [|assumption].
    unfold removeSource. destruct (Registry.get slotId (sources e'));
      [|assumption].
    cbn [sources]. now apply Forall_delete.
  - unfold setSourceVolume. destruct (Registry.get k (sources e)); [|assumption].
    apply update_mix_carried; [|assumption].
    intros s _. apply clamped_volume_in_range.
  - unfold setMute. destruct (Registry.get k (sources e)); [|assumption].
    apply update_mix_carried; [intros s Hs; exact Hs | assumption].
  - unfold setSolo. destruct (Registry.get k (sources e)); [|assumption].
    apply update_mix_carried; [intros s Hs; exact Hs | assumption].
  - unfold setMonitoring. destruct (Registry.get k (sources e)); [|assumption].
    apply update_mix_carried; [intros s Hs; exact Hs | assumption].
  - unfold setCrossfade. destruct (Registry.get k (sources e)); [|assumption].
    apply update_mix_carried; [intros s Hs; exact Hs | assumption].
  - unfold setCrossfader. apply updateMix_carried.
    + cbn [_crossfader with_crossfader]. apply max_min_nearest. lra.
    + cbn [sources with_crossfader]. now apply mix_carried_volumes.
  - unfold processMetrics. destruct (context_state e); assumption.
Qed.

Lemma run_carried (ops : list Op) (e : AudioEngine) :
  mix_carried e -> forallb keeps_mix ops = true -> mix_carried (run ops e).
Proof.
  unfold run. revert e. induction ops as [|o ops IH]; simpl; intros e H K.
  - assumption.
  - apply andb_prop in K. destruct K as [Ko Kops].
    apply IH; [apply step_carried|]; assumption.
Qed.

Lemma constructor_carried (ctx : ContextState) (vd : VisualData) :
  mix_carried (constructor ctx vd).
Proof.
  split; [cbn; lra | constructor].
Qed.

(** Away from the band in which rounding decides, the ramped gain is the
    gain floored at 0.001 exactly. *)
Lemma carried_applied (e : AudioEngine) :
  mix_carried e -> Forall (clear_of_floor (_crossfader e)) (sources e) ->
  mix_applied e.
Proof.
  intros [_ H] F. unfold mix_applied.
  rewrite List.Forall_forall in *. intros s I.
  destruct (H s I) as [(Mu & So & R) V]. split; [|exact V].
  split; [exact Mu|]. split; [exact So|].
  intros M N. destruct (R M N) as (_ & _ & Lo & Hi). cbv zeta in *.
  specialize (F s I). unfold clear_of_floor in F. cbv zeta in F.
  set (v := volume s * crossfadeCompensation (_crossfader e) (crossfadeGroup s)) in *.
  split; intro X; destruct F as [F|F];
    first [now apply Lo | now apply Hi | lra].
Qed.

(** The floor test of the model is the host's: on the grid of volumes
    within two units in the last place of 0.001 / (1 - c), c = j / 64, and
    at the two inputs where the exact product and the product held in
    binary64 fall on different sides of 0.001. *)
Lemma floor_test_as_floats :
  forallb (fun vc => floor_test_agrees (fst vc) (snd vc)) (floor_grid 63) = true
  /\ floor_test_agrees 0x1.0a4e15852f5d3p-10 0x1p-6 = true
  /\ floor_test_agrees 0x1.47ae147ae147bp-7 0x1.ccccccccccccdp-1 = true.
Proof.
  repeat split; vm_compute; reflexivity.
Qed.

(** At volume 0.0010158730158730158 (0x1.0a4e15852f5d3p-10), crossfader
    0.015625, group A, the exact product is below 0.001 and the product the
    host holds is the double 0.001: the gain is not floored.  At volume
    0.01 and crossfader 0.9 the exact product of the decimal fractions is
    0.001 and the product the host holds is below the double 0.001: the
    gain is floored.  The decimal fractions and the doubles they are read
    as give the same test. *)
Lemma floor_at_threshold :
  let v1 := B2Q 0x1.0a4e15852f5d3p-10 in
  let c1 := B2Q 0x1p-6 in
  let v2 := B2Q 0x1.47ae147ae147bp-7 in
  let c2 := B2Q 0x1.ccccccccccccdp-1 in
  v1 * (1 - c1) < 0.001
  /\ held_product v1 c1 GroupA == double_0001
  /\ ltb (held_product v1 c1 GroupA) double_0001 = false
  /\ ltb (held_product 0.0010158730158730158 0.015625 GroupA) double_0001 = false
  /\ 0.01 * (1 - 0.9) == 0.001
  /\ ltb (held_product v2 c2 GroupA) double_0001 = true
  /\ ltb (held_product 0.01 0.9 GroupA) double_0001 = true.
Proof.
  repeat split; vm_compute; reflexivity.
Qed.

(** The same on the engine: [setSourceVolume(1, 0.01)] and
    [setCrossfader(0.9)] on a group A channel leave gain 0 on its gain
    stage; at volume 0.0010158730158730158 and crossfader 0.015625 the
    gain stage carries the product. *)
Example scenario_floor :
  let gain1 e := option_map (fun s => Qred (gainNode_gain s))
                   (Registry.get 1 (sources e)) in
  let e0 := run [OpAddSource 1 micStream mic; OpSetCrossfade 1 GroupA]
              (constructor running emptyVisual) in
  gain1 (run [OpSetSourceVolume 1 0.01; OpSetCrossfader 0.9] e0) = Some 0
  /\ gain1 (run [OpSetSourceVolume 1 0.0010158730158730158;
                 OpSetCrossfader 0.015625] e0)
     = Some (Qred (0.0010158730158730158 * (1 - 0.015625))).
Proof.
  vm_compute. repeat split; reflexivity.
Qed.

(** C1 (amended): starting from an engine whose gain stages carry the mix,
    after any sequence of calls other than a removal or a refused addSource
    -- in particular after any sequence of setMute, setSolo, setSourceVolume
    and setCrossfader -- every channel's gain stage carries: 0 if the
    channel is muted, else 0 if another channel is soloed and this one is
    not, else its stored volume (which lies in [0, 2]) times the crossfade
    compensation, except that the product is applied as 0 when, held in
    binary64, it is below the double of 0.001; that is the case for every
    product up to 0.000999999999999 and for none from 0.001000000000001
    on.  The value is a function of the stored state alone. *)
Theorem C1_gain_is_floored_formula :
  forall (e : AudioEngine) (ops : list Op),
    mix_carried e ->
    forallb keeps_mix ops = true ->
    forall s, In s (sources (run ops e)) ->
      ramped_gain (sources (run ops e)) (_crossfader (run ops e)) s
        (gainNode_gain s)
      /\ 0 <= volume s <= 2.
Proof.
  intros e ops H K s I.
  destruct (run_carried ops e H K) as [_ A].
  rewrite List.Forall_forall in A.
  exact (A s I).
Qed.

Lemma C1_witness :
  let ops := [OpAddSource 1 micStream mic; OpAddSource 2 micStream screen;
              OpSetSourceVolume 1 0.5; OpSetSolo 2 true; OpSetCrossfade 1 GroupA;
              OpSetCrossfader 0.5; OpSetMute 2 true; OpSetSolo 2 false] in
  let e := constructor running emptyVisual in
  mix_carried e
  /\ forallb keeps_mix ops = true
  /\ forall s, In s (sources (run ops e)) ->
       ramped_gain (sources (run ops e)) (_crossfader (run ops e)) s
         (gainNode_gain s)
       /\ 0 <= volume s <= 2.
Proof.
  intros ops e.
  assert (H : mix_carried e) by apply constructor_carried.
  assert (K : forallb keeps_mix ops = true) by reflexivity.
  split; [exact H|]. split; [exact K|].
  exact (C1_gain_is_floored_formula e ops H K).
Defined.

(** C1 as stated fails: with volume 0.0005 on an unmuted channel, no solo
    and no compensation, the gain stage receives 0, not 0.0005. *)
Lemma C1_counterexample :
  let e := setSourceVolume 1 0.0005 oneMic in
  exists s, In s (sources e)
            /\ ~ documented_gain (sources e) (_crossfader e) s (gainNode_gain s).
Proof.
  intro e. remember (sources e) as l eqn:L. vm_compute in L. subst l.
  eexists. split; [left; reflexivity|].
  intros (_ & _ & D).
  assert (X := D eq_refl).
  cbv beta in X.
  assert (N : ~ soloed_out
                [mixSource false 0 (with_volume (mixSource false 0 (newSource 1 micStream mic)) 0.0005)]
                (mixSource false 0 (with_volume (mixSource false 0 (newSource 1 micStream mic)) 0.0005))).
  { intros [_ [o [[<-|[]] [Neq _]]]]. now apply Neq. }
  vm_compute in N. specialize (X N). vm_compute in X. discriminate X.
Qed.

(** ** Effects *)

Lemma makeDistortionCurve_length (amount : Q) :
  length (makeDistortionCurve amount) = 256%nat.
Proof.
  unfold makeDistortionCurve. now rewrite length_map, length_seq.
Qed.

(** Leaving bypass installs the curve of the amount of the call. *)
Lemma updateFx_curve_from_bypass (state : FxState) (e : AudioEngine) :
  distortion_curve e = None ->
  0 < distortionAmount state ->
  distortion_curve (updateFx state e)
  = Some (makeDistortionCurve (distortionAmount state)).
Proof.
  intros N P. apply ltb_true in P. unfold updateFx; cbn [distortion_curve].
  now rewrite P, N.
Qed.

(** A non-positive amount removes the curve. *)
Lemma updateFx_bypass (state : FxState) (e : AudioEngine) :
  distortionAmount state <= 0 -> distortion_curve (updateFx state e) = None.
Proof.
  intro P. apply ltb_false in P. unfold updateFx; cbn [distortion_curve].
  now rewrite P.
Qed.

(** A curve built by the engine is kept by every later call with a positive
    amount. *)
Lemma updateFx_curve_kept (state : FxState) (e : AudioEngine) (a : Q) :
  distortion_curve e = Some (makeDistortionCurve a) ->
  0 < distortionAmount state ->
  distortion_curve (updateFx state e) = Some (makeDistortionCurve a).
Proof.
  intros C P. apply ltb_true in P. unfold updateFx; cbn [distortion_curve].
  now rewrite P, C, makeDistortionCurve_length.
Qed.

Lemma curves_differ_at_head (c1 c2 : list Q) :
  ~ nth 0 c1 0 == nth 0 c2 0 -> ~ same_curve c1 c2.
Proof.
  intros N H. apply N. destruct H as [|x y l l' Hxy _]; [reflexivity | exact Hxy].
Qed.

(** C3 (the code at the failing input): with a curve for amount 10
    installed, [updateFx] with amount 50 leaves the curve of amount 10 in
    place, and that is not the curve of amount 50. *)
Theorem C3_curve_not_rebuilt :
  let e := updateFx (defaultFx 50)
             (updateFx (defaultFx 10) (constructor running emptyVisual)) in
  distortion_curve e = Some (makeDistortionCurve 10)
  /\ ~ same_curve (makeDistortionCurve 10) (makeDistortionCurve 50).
Proof.
  split.
  - apply updateFx_curve_kept; [|reflexivity].
    apply updateFx_curve_from_bypass; reflexivity.
  - apply curves_differ_at_head. vm_compute. discriminate.
Qed.

(** ** Removal *)

(** The teardown of a channel whose recorded bus is its only bus edge (or
    which has none recorded) severs every edge and stops every track. *)
Lemma teardown_complete (s : ExtendedAudioSource) :
  routable s ->
  gainNode_out (teardown s) = Host.no_edges
  /\ sourceNode_out (teardown s) = false
  /\ monitorGate_out (teardown s) = false
  /\ Forall (fun t => live t = false) (stream (teardown s)).
Proof.
  unfold routable, teardown. intro H.
  assert (S : Forall (fun t => live t = false) (Host.stop_tracks (stream s))).
  { unfold Host.stop_tracks. apply List.Forall_forall. intros t I.
    apply List.in_map_iff in I. destruct I as [t0 [<- _]]. reflexivity. }
  destruct (_connectedBus s) as [b|].
  - rewrite H. destruct b; cbn; repeat split; exact S.
  - cbn. repeat split; exact S.
Qed.

(** [removeSource] on a present, routed channel: the entry leaves the
    registry and the channel is torn down completely. *)
Lemma removeSource_present (k : Z) (e : AudioEngine) (s : ExtendedAudioSource) :
  Registry.get k (sources e) = Some s ->
  routable s ->
  Registry.get k (sources (removeSource k e)) = None
  /\ released (removeSource k e) = teardown s :: released e
  /\ gainNode_out (teardown s) = Host.no_edges
  /\ sourceNode_out (teardown s) = false
  /\ monitorGate_out (teardown s) = false
  /\ Forall (fun t => live t = false) (stream (teardown s)).
Proof.
  intros G R. unfold removeSource. rewrite G. cbn [sources released].
  split; [apply get_delete|]. split; [reflexivity|].
  now apply teardown_complete.
Qed.

(** The order of the statements of the [try] block: were the recorded bus
    not an edge of the gain stage, the disconnect would raise and the rest
    of the block be skipped, the entry leaving the registry with the stream
    and the other edges as they were.  No engine reached through the
    control surface holds such a channel. *)
Lemma removeSource_failed_disconnect (k : Z) (e : AudioEngine)
    (s : ExtendedAudioSource) (b : Bus) :
  Registry.get k (sources e) = Some s ->
  _connectedBus s = Some b ->
  Host.has_edge (gainNode_out s) b = false ->
  Registry.get k (sources (removeSource k e)) = None
  /\ released (removeSource k e) = teardown s :: released e
  /\ stream (teardown s) = stream s
  /\ sourceNode_out (teardown s) = sourceNode_out s
  /\ monitorGate_out (teardown s) = monitorGate_out s
  /\ gainNode_out (teardown s) = gainNode_out s.
Proof.
  intros G C N. unfold removeSource. rewrite G. cbn [sources released].
  split; [apply get_delete|]. split; [reflexivity|].
  unfold teardown, Host.disconnect_from. rewrite C, N.
  repeat split; reflexivity.
Qed.



(** ** Setters *)

Lemma get_map_mix (a : bool) (c : Q) (k : Z) (l : list ExtendedAudioSource) :
  Registry.get k (map (mixSource a c) l)
  = option_map (mixSource a c) (Registry.get k l).
Proof.
  unfold Registry.get. induction l as [|s l IH]; simpl; [reflexivity|].
  rewrite mixSource_id. destruct (Z.eqb (id s) k); [reflexivity | exact IH].
Qed.

Lemma get_update (k : Z) (f : ExtendedAudioSource -> ExtendedAudioSource)
    (l : list ExtendedAudioSource) (s : ExtendedAudioSource) :
  (forall x, id (f x) = id x) ->
  Registry.get k l = Some s ->
  Registry.get k (Registry.update k f l) = Some (f s).
Proof.
  intro Hf. unfold Registry.get. induction l as [|x l IH]; simpl; [discriminate|].
  destruct (Z.eqb (id x) k) eqn:E; simpl.
  - intro H. inversion H; subst. now rewrite Hf, E.
  - rewrite E. exact IH.
Qed.

(** The channel stored under [k] after [setSourceVolume]. *)
Lemma setSourceVolume_stored (k : Z) (val : Q) (e : AudioEngine)
    (s : ExtendedAudioSource) :
  Registry.get k (sources e) = Some s ->
  exists s', Registry.get k (sources (setSourceVolume k val e)) = Some s'
             /\ volume s' = Math_min 2 (Math_max 0 val).
Proof.
  intro G. unfold setSourceVolume. rewrite G, updateMix_sources.
  cbn [sources with_sources _crossfader].
  rewrite get_map_mix, (get_update k _ _ s); [|reflexivity | exact G].
  eexists. split; [reflexivity|].
  destruct (mixSource_fields
              (existsb solo
                 (Registry.update k
                    (fun s0 => with_volume s0 (Math_min 2 (Math_max 0 val)))
                    (sources e)))
              (_crossfader e)
              (with_volume s (Math_min 2 (Math_max 0 val)))) as (_ & -> & _).
  reflexivity.
Qed.

(** C5 (amended): the setters clamp instead of failing.  setSourceVolume
    stores, and setMasterVolume applies, the value of [0, 2] nearest to the
    argument; setCrossfader keeps the value of [-1, 1] nearest to it;
    updateFx applies the nearest value of [20, 20000] to the filter
    frequency, of [0, 20] to the resonance, of [0, 4] to the delay time, of
    [0, 0.95] to the delay feedback and of [0, 1] to the delay wet gain.
    distortionAmount is not clamped to [0, 100]: a non-positive amount
    removes the curve, and a positive amount, however large, is the amount
    the curve is built from when the engine leaves bypass.  Every call
    returns an engine. *)
Theorem C5_setters_clamp :
  forall (e : AudioEngine) (val : Q) (state : FxState),
    (forall k s, Registry.get k (sources e) = Some s ->
       exists s', Registry.get k (sources (setSourceVolume k val e)) = Some s'
                  /\ nearest_in 0 2 val (volume s'))
    /\ nearest_in 0 2 val (masterBus_gain (setMasterVolume val e))
    /\ _masterVolume (setMasterVolume val e) = masterBus_gain (setMasterVolume val e)
    /\ nearest_in (-1) 1 val (_crossfader (setCrossfader val e))
    /\ nearest_in 20 20000 (filterFreq state) (filter_frequency (updateFx state e))
    /\ nearest_in 0 20 (filterRes state) (filter_Q (updateFx state e))
    /\ nearest_in 0 4 (delayTime state) (delay_delayTime (updateFx state e))
    /\ nearest_in 0 0.95 (delayFeedback state) (delayFeedback_gain (updateFx state e))
    /\ nearest_in 0 1 (delayWet state) (delayWet_gain (updateFx state e))
    /\ (distortionAmount state <= 0 -> distortion_curve (updateFx state e) = None)
    /\ (0 < distortionAmount state -> distortion_curve e = None ->
        distortion_curve (updateFx state e)
        = Some (makeDistortionCurve (distortionAmount state))).
Proof.
  intros e val state.
  split.
  { intros k s G. destruct (setSourceVolume_stored k val e s G) as [s' [G' V]].
    exists s'. split; [exact G'|]. rewrite V. apply min_max_nearest. lra. }
  split; [apply max_min_nearest; lra|].
  split; [reflexivity|].
  split; [apply max_min_nearest; lra|].
  split; [apply min_max_nearest; lra|].
  split; [apply min_max_nearest; lra|].
  split; [apply min_max_nearest; lra|].
  split; [apply min_max_nearest; lra|].
  split; [apply min_max_nearest; lra|].
  split; [apply updateFx_bypass|].
  intros P N. now apply updateFx_curve_from_bypass.
Qed.

Lemma C5_witness :
  let state := mkFx lowpass 50000 (-3) 250 9 2 (-1) in
  Registry.get 1 (sources oneMic) = Some (mixSource false 0 (newSource 1 micStream mic))
  /\ 0 < distortionAmount state
  /\ distortion_curve oneMic = None
  /\ (exists s', Registry.get 1 (sources (setSourceVolume 1 5 oneMic)) = Some s'
                 /\ nearest_in 0 2 5 (volume s'))
  /\ distortion_curve (updateFx state oneMic) = Some (makeDistortionCurve 250).
Proof.
  intro state.
  assert (G : Registry.get 1 (sources oneMic)
              = Some (mixSource false 0 (newSource 1 micStream mic)))
    by reflexivity.
  assert (P : 0 < distortionAmount state) by reflexivity.
  assert (N : distortion_curve oneMic = None) by reflexivity.
  destruct (C5_setters_clamp oneMic 5 state)
    as (V & _ & _ & _ & _ & _ & _ & _ & _ & _ & D).
  split; [exact G|]. split; [exact P|]. split; [exact N|].
  split; [exact (V 1%Z _ G) | exact (D P N)].
Defined.

(** C5 as stated fails for the distortion amount: from bypass, [updateFx]
    with amount 200 installs the curve of amount 200, which is not the curve
    of the nearest value of [0, 100]. *)
Lemma C5_counterexample :
  let e := updateFx (defaultFx 200) (constructor running emptyVisual) in
  distortion_curve e = Some (makeDistortionCurve 200)
  /\ ~ same_curve (makeDistortionCurve 200)
         (makeDistortionCurve (Math_min 100 (Math_max 0 200))).
Proof.
  split.
  - apply updateFx_curve_from_bypass; reflexivity.
  - apply curves_differ_at_head. vm_compute. discriminate.
Qed.

(** ** Band split *)

Lemma of_nat_nonneg (n : nat) : 0 <= of_nat n.
Proof. unfold of_nat. change 0 with (inject_Z 0). rewrite <- Zle_Qle. lia. Qed.

(** The count is the floor of the rounded product. *)
Lemma floorBins_near (len : nat) (ratio : Q) :
  0 <= ratio ->
  let x := of_nat len * ratio in
  let n := inject_Z (Z.of_nat (floorBins len ratio)) in
  n <= x + (x * double_u + double_tiny)
  /\ x - (x * double_u + double_tiny) < n + 1.
Proof.
  intros Hr x n.
  assert (X0 : 0 <= x).
  { apply Qmult_le_0_compat; [apply of_nat_nonneg | exact Hr]. }
  pose proof (double_round_near x X0) as [R1 R2].
  pose proof (double_round_nonneg x X0) as R0.
  pose proof (Qfloor_le (double_round x)) as F1.
  pose proof (Qlt_floor (double_round x)) as F2.
  rewrite inject_Z_plus in F2. change (inject_Z 1) with 1 in F2.
  assert (F0 : (0 <= Qfloor (double_round x))%Z).
  { change 0%Z with (Qfloor 0). now apply Qfloor_resp_le. }
  assert (E : n = inject_Z (Qfloor (double_round x))).
  { unfold n, floorBins. fold x. now rewrite Z2Nat.id. }
  rewrite E. split; lra.
Qed.

Lemma bins_fit (len : nat) :
  (floorBins len double_006 + floorBins len double_035 <= len)%nat.
Proof.
  destruct (floorBins_near len double_006) as [B _]; [discriminate|].
  destruct (floorBins_near len double_035) as [M _]; [discriminate|].
  cbv zeta in B, M.
  pose proof (of_nat_nonneg len) as L0.
  apply Nat2Z.inj_le. rewrite Nat2Z.inj_add.
  set (b := Z.of_nat (floorBins len double_006)) in *.
  set (m := Z.of_nat (floorBins len double_035)) in *.
  destruct (Nat.eq_dec len 0%nat) as [->|N].
  - assert (b = 0%Z /\ m = 0%Z) as [-> ->]; [|reflexivity].
    unfold b, m, floorBins, of_nat. split; vm_compute; reflexivity.
  - assert (L1 : 1 <= of_nat len).
    { unfold of_nat. change 1 with (inject_Z 1). rewrite <- Zle_Qle. lia. }
    assert (S : inject_Z b + inject_Z m < inject_Z (Z.of_nat len) + 1).
    { fold (of_nat len). unfold double_006, double_035, double_u, double_tiny in *.
      set (l := of_nat len) in *. lra. }
    rewrite <- inject_Z_plus in S. change 1 with (inject_Z 1) in S.
    rewrite <- inject_Z_plus, <- Zlt_Qlt in S. lia.
Qed.

Lemma Qfloor_ratio (len : nat) (n : Z) (d : positive) :
  Qfloor (of_nat len * (n # d)) = (Z.of_nat len * n / Z.pos d)%Z.
Proof.
  unfold of_nat, inject_Z, Qmult, Qfloor. cbn [Qnum Qden].
  now rewrite Pos.mul_1_l.
Qed.

(** A count is the floor of the exact product or one less, for every
    length a typed array can have. *)
Lemma floorBins_pinned (len : nat) (ratio exact : Q) (n : Z) :
  exact = n # 100 -> (0 <= n <= 100)%Z ->
  0 <= ratio <= exact -> exact - (1 # 2 ^ 54) <= ratio ->
  (Z.of_nat len < 2 ^ 32)%Z ->
  (exactBins len exact - 1 <= floorBins len ratio <= exactBins len exact)%nat.
Proof.
  intros -> Hn [R0 R1] R2 HL.
  destruct (floorBins_near len ratio R0) as [U Lo]. cbv zeta in U, Lo.
  unfold exactBins. rewrite Qfloor_ratio.
  set (k := (Z.of_nat len * n / 100)%Z).
  pose proof (Z.div_mod (Z.of_nat len * n) 100) as DM.
  pose proof (Z.mod_pos_bound (Z.of_nat len * n) 100) as MB.
  fold k in DM.
  assert (K0 : (0 <= k)%Z).
  { unfold k. apply Z.div_pos; [apply Z.mul_nonneg_nonneg; lia | lia]. }
  set (l := of_nat len) in *.
  assert (L0 : 0 <= l) by apply of_nat_nonneg.
  assert (L2 : l <= 4294967295).
  { unfold l, of_nat. change 4294967295 with (inject_Z 4294967295).
    rewrite <- Zle_Qle. lia. }
  (* 100 k <= n l <= 100 k + 99, as numbers *)
  assert (E : inject_Z n * l == inject_Z (Z.of_nat len * n)).
  { unfold l, of_nat. rewrite inject_Z_mult. ring. }
  assert (K1 : 100 * inject_Z k <= inject_Z n * l).
  { rewrite E. change 100 with (inject_Z 100). rewrite <- inject_Z_mult, <- Zle_Qle. lia. }
  assert (K2 : inject_Z n * l <= 100 * inject_Z k + 99).
  { rewrite E. change 100 with (inject_Z 100). change 99 with (inject_Z 99).
    rewrite <- inject_Z_mult, <- inject_Z_plus, <- Zle_Qle. lia. }
  assert (X : l * (n # 100) == inject_Z n * l * (1 # 100)).
  { rewrite (Qmake_Qdiv n 100). field. }
  assert (N0 : 0 <= inject_Z n <= 100).
  { split; [change 0 with (inject_Z 0) | change 100 with (inject_Z 100)];
      rewrite <- Zle_Qle; lia. }
  assert (P1 : l * ratio <= l * (n # 100)) by (apply scale_le; lra).
  assert (P2 : l * ((n # 100) - (1 # 2 ^ 54)) <= l * ratio) by (apply scale_le; lra).
  assert (P0 : 0 <= l * ratio) by (apply Qmult_le_0_compat; lra).
  assert (P3 : inject_Z n * l <= 100 * l).
  { apply Qmult_le_compat_r; lra. }
  set (f := inject_Z (Z.of_nat (floorBins len ratio))) in *.
  assert (C56 : (1 # 2 ^ 54) == (1 # 18014398509481984)) by reflexivity.
  assert (E2 : l * ((n # 100) - (1 # 2 ^ 54)) == l * (n # 100) - l * (1 # 18014398509481984)).
  { rewrite C56. ring. }
  rewrite E2, X in P2. rewrite X in P1.
  unfold double_u, double_tiny in *.
  set (x := l * ratio) in *. set (nl := inject_Z n * l) in *.
  assert (Up : f < inject_Z k + 1) by lra.
  assert (Dn : inject_Z k < f + 2) by lra.
  change 1 with (inject_Z 1) in Up. change 2 with (inject_Z 2) in Dn.
  unfold f in Up, Dn.
  rewrite <- inject_Z_plus, <- Zlt_Qlt in Up.
  rewrite <- inject_Z_plus, <- Zlt_Qlt in Dn.
  lia.
Qed.

Lemma skipn_cons_nth (data : list byte) (i : nat) :
  (i < length data)%nat -> skipn i data = nth i data x00 :: skipn (S i) data.
Proof.
  revert i. induction data as [|b data IH]; intros i H; simpl in H; [lia|].
  destruct i as [|i]; [reflexivity|].
  simpl. apply IH. lia.
Qed.

(** The summation loop over [lo, lo + n) adds up that run of bins. *)
Lemma sum_loop (data : list byte) (n lo : nat) (acc : Q) :
  (lo + n <= length data)%nat ->
  fold_left (fun a i => a + of_byte (nth i data x00)) (seq lo n) acc
  == acc + binSum (firstn n (skipn lo data)).
Proof.
  revert lo acc. induction n as [|n IH]; intros lo acc H.
  - simpl. lra.
  - cbn [seq fold_left]. rewrite IH by lia.
    rewrite (skipn_cons_nth data lo) by lia.
    cbn [firstn binSum fold_right]. unfold binSum. lra.
Qed.

Lemma sumRange_slice (data : list byte) (lo hi : nat) :
  (lo <= hi <= length data)%nat ->
  sumRange data lo hi == binSum (firstn (hi - lo) (skipn lo data)).
Proof.
  intro H. unfold sumRange. rewrite sum_loop by lia. lra.
Qed.

Lemma of_byte_range (b : byte) : 0 <= of_byte b <= 255.
Proof.
  unfold of_byte. pose proof (Byte.to_N_bounded b) as H.
  split.
  - change 0 with (inject_Z 0). rewrite <- Zle_Qle. lia.
  - change 255 with (inject_Z 255). rewrite <- Zle_Qle. lia.
Qed.

Lemma binSum_range (l : list byte) :
  0 <= binSum l <= 255 * of_nat (length l).
Proof.
  unfold binSum, of_nat. induction l as [|b l IH].
  - cbn [fold_right length]. change (inject_Z (Z.of_nat 0)) with 0. lra.
  - cbn [fold_right length]. rewrite Nat2Z.inj_succ, <- Z.add_1_r, inject_Z_plus.
    pose proof (of_byte_range b). change (inject_Z 1) with 1. lra.
Qed.

Lemma of_nat_max1 (n : nat) : Math_max 1 (of_nat n) == of_nat (Nat.max 1 n).
Proof.
  unfold Math_max, of_nat. destruct n as [|n].
  - change (inject_Z (Z.of_nat 0)) with 0. case_ltb; [lra | reflexivity].
  - change (Nat.max 1 (S n)) with (S n).
    assert (1 <= inject_Z (Z.of_nat (S n))).
    { change 1 with (inject_Z 1). rewrite <- Zle_Qle. lia. }
    case_ltb; [reflexivity | lra].
Qed.

Lemma of_nat_pos (n : nat) : (1 <= n)%nat -> 1 <= of_nat n.
Proof.
  intro H. unfold of_nat. change 1 with (inject_Z 1). rewrite <- Zle_Qle. lia.
Qed.

(** The band value the code computes from a sum and a bin count is the
    normalised mean of the band. *)
Lemma band_value (l : list byte) (sum count : Q) :
  sum == binSum l ->
  count == of_nat (length l) ->
  (sum / Math_max 1 count) * INV_255 == bandMean l.
Proof.
  intros Hs Hc. unfold bandMean, INV_255.
  assert (M : Math_max 1 count == of_nat (Nat.max 1 (length l))).
  { rewrite <- of_nat_max1. unfold Math_max.
    rewrite (ltb_comp 1 1 count (of_nat (length l))) by (assumption || reflexivity).
    destruct (ltb 1 (of_nat (length l))); [assumption | reflexivity]. }
  rewrite M, Hs.
  assert (P : 1 <= of_nat (Nat.max 1 (length l))) by (apply of_nat_pos; lia).
  field. lra.
Qed.

Lemma bandMean_range (l : list byte) : 0 <= bandMean l <= 1.
Proof.
  unfold bandMean.
  pose proof (binSum_range l) as [L U].
  assert (P : 1 <= of_nat (Nat.max 1 (length l))) by (apply of_nat_pos; lia).
  assert (U' : binSum l <= 255 * of_nat (Nat.max 1 (length l))).
  { eapply Qle_trans; [exact U|].
    apply Qmult_le_l; [lra|].
    unfold of_nat. rewrite <- Zle_Qle. lia. }
  set (n := of_nat (Nat.max 1 (length l))) in *.
  split.
  - apply Qle_shift_div_l; [lra|]. apply Qle_shift_div_l; lra.
  - apply Qle_shift_div_r; [lra|]. apply Qle_shift_div_r; lra.
Qed.

(** Whatever the two bin counts, as long as they fit the spectrum, the
    three summation loops read three consecutive runs that make up the
    spectrum. *)
Lemma split_runs (data : list byte) (bBins mBins : nat) :
  (bBins + mBins <= length data)%nat ->
  let L := length data in
  let lo := firstn bBins data in
  let mi := firstn mBins (skipn bBins data) in
  let hi := skipn (bBins + mBins) data in
  data = lo ++ mi ++ hi
  /\ length lo = bBins /\ length mi = mBins
  /\ length hi = (L - bBins - mBins)%nat
  /\ sumRange data 0 bBins == binSum lo
  /\ sumRange data bBins (bBins + mBins) == binSum mi
  /\ sumRange data (bBins + mBins) L == binSum hi.
Proof.
  intros F L lo mi hi. fold L in F.
  assert (Llo : length lo = bBins).
  { unfold lo. apply firstn_length_le. lia. }
  assert (Lmi : length mi = mBins).
  { unfold mi. apply firstn_length_le. rewrite length_skipn. lia. }
  assert (Lhi : length hi = (L - bBins - mBins)%nat).
  { unfold hi. rewrite length_skipn. lia. }
  split; [|split; [|split; [|split; [|split; [|split]]]]]; try assumption.
  - unfold lo, mi, hi.
    rewrite (Nat.add_comm bBins mBins), <- skipn_skipn.
    now rewrite !firstn_skipn.
  - rewrite sumRange_slice by lia.
    now rewrite Nat.sub_0_r.
  - rewrite sumRange_slice by lia.
    replace (bBins + mBins - bBins)%nat with mBins by lia. reflexivity.
  - rewrite sumRange_slice by lia.
    rewrite firstn_all2; [reflexivity|].
    rewrite length_skipn. lia.
Qed.

(** The three bands of a spectrum as the code cuts them. *)
Lemma band_slices (data : list byte) :
  let L := length data in
  let bBins := floorBins L double_006 in
  let mBins := floorBins L double_035 in
  let lo := firstn bBins data in
  let mi := firstn mBins (skipn bBins data) in
  let hi := skipn (bBins + mBins) data in
  data = lo ++ mi ++ hi
  /\ length lo = bBins /\ length mi = mBins
  /\ length hi = (L - bBins - mBins)%nat
  /\ sumRange data 0 bBins == binSum lo
  /\ sumRange data bBins (bBins + mBins) == binSum mi
  /\ sumRange data (bBins + mBins) L == binSum hi.
Proof.
  apply split_runs, bins_fit.
Qed.

(** In binary64 the product [len * 0.35] can round below an integer the
    exact product reaches: 180 * 0.35 gives 62 mid bins, not 63. *)
Lemma mid_bins_180 :
  floorBins 180 double_035 = 62%nat /\ exactBins 180 0.35 = 63%nat
  /\ floorBins_float 180 float_035 = 62%Z.
Proof.
  repeat split; vm_compute; reflexivity.
Qed.

Lemma bins_agree_spec (n : nat) (start len : Z) :
  bins_agree n start = true ->
  (start <= len < start + Z.of_nat n)%Z ->
  Z.of_nat (floorBins (Z.to_nat len) double_006) = floorBins_float len float_006
  /\ Z.of_nat (floorBins (Z.to_nat len) double_035) = floorBins_float len float_035.
Proof.
  revert start. induction n as [|n IH]; intros start H R; [lia|].
  cbn [bins_agree] in H.
  apply andb_prop in H. destruct H as [H Hrest].
  apply andb_prop in H. destruct H as [H1 H2].
  destruct (Z.eq_dec len start) as [->|N].
  - apply Z.eqb_eq in H1, H2. split; assumption.
  - apply (IH (start + 1)%Z); [exact Hrest | lia].
Qed.

(** For every spectrum of up to 4096 bins, the sizes of the engine (1024
    and 128) among them, the bin counts of the model are the ones the
    host's floats give. *)
Lemma floorBins_as_floats (len : nat) :
  (len <= 4096)%nat ->
  Z.of_nat (floorBins len double_006) = floorBins_float (Z.of_nat len) float_006
  /\ Z.of_nat (floorBins len double_035) = floorBins_float (Z.of_nat len) float_035.
Proof.
  intro H.
  assert (C : bins_agree 4097 0 = true) by (vm_compute; reflexivity).
  destruct (bins_agree_spec 4097 0 (Z.of_nat len) C) as [B M]; [lia|].
  rewrite Nat2Z.id in B, M. split; assumption.
Qed.

(** The constants and the rounding of the model against the host's
    floats. *)
Lemma double_constants :
  double_006 == B2Q float_006 /\ double_035 == B2Q float_035
  /\ double_0001 == B2Q float_0001
  /\ double_round 0.06 == double_006 /\ double_round 0.35 == double_035
  /\ double_round 0.001 == double_0001.
Proof.
  repeat split; vm_compute; reflexivity.
Qed.

(** The band values of the code are the normalised means of the bands. *)
Lemma band_values (data : list byte) :
  let L := length data in
  let bBins := floorBins L double_006 in
  let mBins := floorBins L double_035 in
  (sumRange data 0 bBins / Math_max 1 (of_nat bBins)) * INV_255
  == bandMean (firstn bBins data)
  /\ (sumRange data bBins (bBins + mBins) / Math_max 1 (of_nat mBins)) * INV_255
     == bandMean (firstn mBins (skipn bBins data))
  /\ (sumRange data (bBins + mBins) L
      / Math_max 1 (of_nat L - of_nat bBins - of_nat mBins)) * INV_255
     == bandMean (skipn (bBins + mBins) data).
Proof.
  intros L bBins mBins.
  destruct (band_slices data) as (_ & Llo & Lmi & Lhi & Slo & Smi & Shi).
  fold L bBins mBins in Llo, Lmi, Lhi, Slo, Smi, Shi.
  pose proof (bins_fit (length data)) as F. fold L bBins mBins in F.
  split; [|split].
  - apply band_value; [exact Slo | now rewrite Llo].
  - apply band_value; [exact Smi | now rewrite Lmi].
  - apply band_value; [exact Shi|].
    rewrite Lhi. unfold of_nat.
    rewrite !Nat2Z.inj_sub by lia.
    unfold Z.sub. rewrite !inject_Z_plus, !inject_Z_opp. lra.
Qed.

(** C7 (amended): for every spectrum of length L >= 1, with bassBins and
    midBins the floors of the products L * 0.06 and L * 0.35 as binary64
    computes them -- each the floor of the exact product or one less, for
    every length below 2^32 -- the three summation loops cover the first
    bassBins bins, the next midBins bins and the remaining
    L - bassBins - midBins bins: the three runs concatenate to the spectrum,
    so the counts add up to L with no bin dropped or read twice.  Each band
    value, of [updateBandEnergy] and of the master bands of
    [processMetrics], is the mean of its run divided by 255 (0 for an empty
    run) and lies in [0, 1]. *)
Theorem C7_band_split_partitions :
  forall (data : list byte) (target : SpectralBand),
    (1 <= length data)%nat ->
    let L := length data in
    let bassBins := floorBins L double_006 in
    let midBins := floorBins L double_035 in
    let highBins := (L - bassBins - midBins)%nat in
    let lo := firstn bassBins data in
    let mi := firstn midBins (skipn bassBins data) in
    let hi := skipn (bassBins + midBins) data in
    (bassBins + midBins + highBins = L)%nat
    /\ data = lo ++ mi ++ hi
    /\ length lo = bassBins /\ length mi = midBins /\ length hi = highBins
    /\ sumRange data 0 bassBins == binSum lo
    /\ sumRange data bassBins (bassBins + midBins) == binSum mi
    /\ sumRange data (bassBins + midBins) L == binSum hi
    /\ sb_bass (updateBandEnergy data target) == bandMean lo
    /\ sb_mid (updateBandEnergy data target) == bandMean mi
    /\ sb_high (updateBandEnergy data target) == bandMean hi
    /\ (forall p e,
          context_state e = running ->
          getByteFrequencyData (masterFrequencyData p) (raw (visualData e)) = data ->
          bass (visualData (processMetrics p e)) == bandMean lo
          /\ mid (visualData (processMetrics p e)) == bandMean mi
          /\ high (visualData (processMetrics p e)) == bandMean hi)
    /\ 0 <= bandMean lo <= 1 /\ 0 <= bandMean mi <= 1 /\ 0 <= bandMean hi <= 1
    /\ ((Z.of_nat L < 2 ^ 32)%Z ->
        (exactBins L 0.06 - 1 <= bassBins <= exactBins L 0.06)%nat
        /\ (exactBins L 0.35 - 1 <= midBins <= exactBins L 0.35)%nat).
Proof.
  intros data target H L bassBins midBins highBins lo mi hi.
  assert (Pin : (Z.of_nat L < 2 ^ 32)%Z ->
                (exactBins L 0.06 - 1 <= bassBins <= exactBins L 0.06)%nat
                /\ (exactBins L 0.35 - 1 <= midBins <= exactBins L 0.35)%nat).
  { intro B. split.
    - apply (floorBins_pinned L double_006 0.06 6); try reflexivity;
        try exact B; try lia; try (split; discriminate); discriminate.
    - apply (floorBins_pinned L double_035 0.35 35); try reflexivity;
        try exact B; try lia; try (split; discriminate); discriminate. }
  pose proof (bins_fit (length data)) as F. fold L bassBins midBins in F.
  destruct (band_slices data) as (P & Llo & Lmi & Lhi & Slo & Smi & Shi).
  destruct (band_values data) as (Vlo & Vmi & Vhi).
  fold L bassBins midBins in Llo, Lmi, Lhi, Slo, Smi, Shi, Vlo, Vmi, Vhi, P.
  fold lo mi hi in P, Llo, Lmi, Lhi, Slo, Smi, Shi, Vlo, Vmi, Vhi.
  assert (U : updateBandEnergy data target
              = mkBand
                  ((sumRange data 0 bassBins / Math_max 1 (of_nat bassBins)) * INV_255)
                  ((sumRange data bassBins (bassBins + midBins)
                    / Math_max 1 (of_nat midBins)) * INV_255)
                  ((sumRange data (bassBins + midBins) L
                    / Math_max 1 (of_nat L - of_nat bassBins - of_nat midBins))
                   * INV_255)).
  { unfold updateBandEnergy. fold L.
    destruct (Nat.eqb_spec L 0) as [Z|_]; [unfold L in Z; lia | reflexivity]. }
  assert (M : forall p e,
             context_state e = running ->
             getByteFrequencyData (masterFrequencyData p) (raw (visualData e)) = data ->
             bass (visualData (processMetrics p e)) == bandMean lo
             /\ mid (visualData (processMetrics p e)) == bandMean mi
             /\ high (visualData (processMetrics p e)) == bandMean hi).
  { intros p e R D. unfold processMetrics. rewrite R.
    cbn [visualData with_visualData bass mid high]. rewrite D.
    repeat split; assumption. }
  repeat match goal with |- _ /\ _ => split end;
    try assumption; try (apply bandMean_range).
  - unfold highBins. lia.
  - rewrite U. exact Vlo.
  - rewrite U. exact Vmi.
  - rewrite U. exact Vhi.
Qed.

Lemma C7_witness :
  let data := ["255"; "255"; "040"; "000"; "000"; "000"; "000"; "000"; "000"; "000";
               "000"; "000"; "000"; "000"; "000"; "000"; "000"; "000"; "000"; "000"]%byte in
  (1 <= length data)%nat
  /\ (floorBins 20 double_006 + floorBins 20 double_035
      + (20 - floorBins 20 double_006 - floorBins 20 double_035)
      = 20)%nat
  /\ 0 <= bandMean (firstn (floorBins 20 double_006) data) <= 1.
Proof.
  intro data.
  assert (H : (1 <= length data)%nat) by (vm_compute; lia).
  pose proof (C7_band_split_partitions data (mkBand 0 0 0) H) as T.
  cbv zeta in T.
  split; [exact H|]. split; [apply T | apply T].
Defined.

(** C7 as stated fails: a spectrum of 180 bins has 62 mid bins, not
    floor(0.35 * 180) = 63, because 180 * 0.35 is a double just below 63.
    With energy in bin 72 alone the mid band of the code is 0, while the
    mean of the 63 bins from bin 10 on is 1 / 63. *)
Lemma C7_counterexample :
  let data := repeat x00 72 ++ [xff] ++ repeat x00 107 in
  let bassBins := exactBins 180 0.06 in
  let midBins := exactBins 180 0.35 in
  length data = 180%nat
  /\ bassBins = 10%nat /\ midBins = 63%nat
  /\ floorBins 180 double_035 = 62%nat
  /\ sb_mid (updateBandEnergy data (mkBand 0 0 0)) == 0
  /\ bandMean (firstn midBins (skipn bassBins data)) == 1 # 63
  /\ ~ sb_mid (updateBandEnergy data (mkBand 0 0 0))
       == bandMean (firstn midBins (skipn bassBins data)).
Proof.
  repeat split; try (vm_compute; reflexivity).
  vm_compute. discriminate.
Qed.

(** ** Peak levels *)

Lemma Math_sqrt_comp (x y : Q) : x == y -> Math_sqrt x = Math_sqrt y.
Proof.
  intro H. unfold Math_sqrt. now rewrite H.
Qed.

Lemma Math_sqrt_nonneg (x : Q) : 0 <= Math_sqrt x.
Proof.
  unfold Math_sqrt, Qle; cbn [Qnum Qden]. rewrite Z.mul_1_r.
  apply Z.sqrt_nonneg.
Qed.

Lemma Math_sqrt_0 (x : Q) : x == 0 -> Math_sqrt x == 0.
Proof.
  intro H. rewrite (Math_sqrt_comp x 0 H). reflexivity.
Qed.

(** [Math_sqrt] brackets the square root on the grid of step 2^-52. *)
Lemma Math_sqrt_spec (x : Q) :
  0 <= x ->
  Math_sqrt x * Math_sqrt x <= x
  /\ x < (Math_sqrt x + (1 # 2 ^ 52)) * (Math_sqrt x + (1 # 2 ^ 52)).
Proof.
  intro Hx.
  set (K := inject_Z (2 ^ 104)).
  set (n := Qfloor (x * K)).
  set (r := Z.sqrt n).
  assert (Hn : (0 <= n)%Z).
  { unfold n. change 0%Z with (Qfloor 0). apply Qfloor_resp_le.
    apply Qmult_le_0_compat; [exact Hx | discriminate]. }
  destruct (Z.sqrt_spec n Hn) as [Lo Hi]. fold r in Lo, Hi.
  pose proof (Qfloor_le (x * K)) as Fl. fold n in Fl.
  pose proof (Qlt_floor (x * K)) as Fu. fold n in Fu.
  assert (Hr : (0 <= r)%Z) by apply Z.sqrt_nonneg.
  assert (S1 : Math_sqrt x == inject_Z r * (1 # 2 ^ 52)).
  { unfold Math_sqrt. fold K n r. unfold Qeq, Qmult, inject_Z; cbn [Qnum Qden].
    rewrite Z.mul_1_r, Pos.mul_1_l. reflexivity. }
  assert (U : (1 # 2 ^ 52) * (1 # 2 ^ 52) * K == 1) by reflexivity.
  assert (Q1 : inject_Z r * inject_Z r <= x * K).
  { rewrite <- inject_Z_mult. eapply Qle_trans; [|exact Fl].
    rewrite <- Zle_Qle. exact Lo. }
  assert (Q2 : x * K < (inject_Z r + 1) * (inject_Z r + 1)).
  { eapply Qlt_le_trans; [exact Fu|].
    change 1 with (inject_Z 1). rewrite <- inject_Z_plus, <- inject_Z_mult.
    rewrite <- Zle_Qle. unfold Z.succ in Hi. lia. }
  set (q := inject_Z r) in *. set (u := 1 # 2 ^ 52) in *.
  assert (Pu : 0 < u * u) by reflexivity.
  rewrite S1. split.
  - apply (Qmult_le_r _ _ K); [reflexivity|].
    setoid_replace (q * u * (q * u) * K) with (q * q * (u * u * K))
      using relation Qeq by ring.
    rewrite U. lra.
  - apply (Qmult_lt_r _ _ K); [reflexivity|].
    setoid_replace ((q * u + u) * (q * u + u) * K)
      with ((q + 1) * (q + 1) * (u * u * K)) using relation Qeq by ring.
    rewrite U. lra.
Qed.

(** The unrolled accumulation over blocks [k0, k0 + n) adds the squares of
    the samples [4 k0, 4 (k0 + n)). *)
Lemma rms_loop (buf : list byte) (n k0 : nat) (acc : Q) :
  fold_left
    (fun acc k =>
       let i := (4 * k)%nat in
       let v1 := sampleAt buf i in
       let v2 := sampleAt buf (i + 1) in
       let v3 := sampleAt buf (i + 2) in
       let v4 := sampleAt buf (i + 3) in
       acc + (v1 * v1 + v2 * v2 + v3 * v3 + v4 * v4))
    (seq k0 n) acc
  == acc + fold_right (fun i a => sampleAt buf i * sampleAt buf i + a) 0
             (seq (4 * k0) (4 * n)).
Proof.
  revert k0 acc. induction n as [|n IH]; intros k0 acc.
  - cbn [seq fold_left]. replace (4 * 0)%nat with 0%nat by lia.
    cbn [seq fold_right]. lra.
  - cbn [seq fold_left]. rewrite IH. cbv zeta.
    replace (4 * S n)%nat with (S (S (S (S (4 * n))))) by lia.
    replace (4 * S k0)%nat with (S (S (S (S (4 * k0))))) by lia.
    cbn [seq fold_right].
    replace (4 * k0 + 1)%nat with (S (4 * k0)) by lia.
    replace (4 * k0 + 2)%nat with (S (S (4 * k0))) by lia.
    replace (4 * k0 + 3)%nat with (S (S (S (4 * k0)))) by lia.
    lra.
Qed.

Lemma squares_sampleAt (buf : list byte) (l : list nat) :
  fold_right (fun i a => sampleAt buf i * sampleAt buf i + a) 0 l
  == squares buf l.
Proof.
  unfold squares. induction l as [|i l IH]; cbn [fold_right]; [reflexivity|].
  rewrite IH. unfold sampleAt, INV_128. cbv zeta. field.
Qed.

(** What the loop accumulates, weighted by [RMS_WEIGHT], is the mean square
    of the 256 samples. *)
Lemma rmsAcc_meanSquare (buf : list byte) :
  rmsAcc buf * RMS_WEIGHT == meanSquare buf.
Proof.
  unfold rmsAcc, meanSquare. rewrite rms_loop, squares_sampleAt.
  change (4 * 0)%nat with 0%nat. change (4 * 64)%nat with 256%nat.
  unfold RMS_WEIGHT. field.
Qed.

(** The raw peak is the RMS of the window, scaled by 5. *)
Lemma rawPeak_rms (buf : list byte) :
  rawPeak buf = Math_sqrt (meanSquare buf) * 5.
Proof.
  unfold rawPeak. now rewrite (Math_sqrt_comp _ _ (rmsAcc_meanSquare buf)).
Qed.

Lemma rawPeak_nonneg (buf : list byte) : 0 <= rawPeak buf.
Proof.
  unfold rawPeak. pose proof (Math_sqrt_nonneg (rmsAcc buf * RMS_WEIGHT)). lra.
Qed.

Lemma Math_max_ge_l (a b : Q) : a <= Math_max a b.
Proof. unfold Math_max. case_ltb; lra. Qed.

Lemma Math_sqrt_mono (x y : Q) : x <= y -> Math_sqrt x <= Math_sqrt y.
Proof.
  intro H. unfold Math_sqrt, Qle. cbn [Qnum Qden].
  apply Z.mul_le_mono_nonneg_r; [lia|].
  apply Z.sqrt_le_mono, Qfloor_resp_le.
  apply Qmult_le_compat_r; [exact H | discriminate].
Qed.

(** *** The scratch array *)

(** A read through an analyser of [fftSize] 128 leaves the upper half of the
    scratch array as it was; a block of 128 samples fills the lower half. *)
Lemma read_block (data buf : list byte) :
  upper_half_untouched buf ->
  upper_half_untouched (getByteTimeDomainData 128 data buf)
  /\ (length data = 128%nat ->
      getByteTimeDomainData 128 data buf = meterWindow data).
Proof.
  intros [L U]. unfold getByteTimeDomainData, getByteFrequencyData.
  set (d := firstn 128 data).
  assert (Ld : (length d <= 128)%nat) by (unfold d; rewrite length_firstn; lia).
  rewrite L, (firstn_all2 (n := 256%nat) d) by lia.
  assert (T : skipn 128 (d ++ skipn (length d) buf) = repeat x00 128).
  { rewrite skipn_app, (skipn_all2 (n := 128%nat) d) by lia.
    rewrite skipn_skipn.
    replace (128 - length d + length d)%nat with 128%nat by lia.
    exact U. }
  split; [split; [|exact T]|].
  - rewrite length_app, length_skipn. lia.
  - intro Ldata. unfold meterWindow, d.
    rewrite (firstn_all2 (n := 128%nat) data) by lia.
    now rewrite Ldata, U.
Qed.

Lemma peakStep_meter (p : HostProbes) (acc : gmap Z Q * list byte)
    (s : ExtendedAudioSource) :
  analyser_fftSize s = 128%nat -> upper_half_untouched (snd acc) ->
  upper_half_untouched (snd (peakStep p acc s)).
Proof.
  intros F U. unfold peakStep. destruct (active s); [|exact U].
  cbn [snd]. rewrite F. now apply read_block.
Qed.

Lemma peak_fold_meter (p : HostProbes) (l : list ExtendedAudioSource)
    (acc : gmap Z Q * list byte) :
  Forall (fun s => analyser_fftSize s = 128%nat) l ->
  upper_half_untouched (snd acc) ->
  upper_half_untouched (snd (fold_left (peakStep p) l acc)).
Proof.
  revert acc. induction l as [|s l IH]; intros acc F U; [exact U|].
  inversion F as [|x xs Fs Fl]; subst. cbn [fold_left].
  apply IH; [exact Fl | now apply peakStep_meter].
Qed.

(** *** The levels *)

Lemma peak_fold_other (p : HostProbes) (l : list ExtendedAudioSource)
    (acc : gmap Z Q * list byte) (k : Z) :
  ~ In k (map id l) -> fst (fold_left (peakStep p) l acc) !! k = fst acc !! k.
Proof.
  revert acc. induction l as [|s l IH]; intros acc N; [reflexivity|].
  cbn [fold_left]. rewrite IH.
  - unfold peakStep. destruct (active s); [|reflexivity].
    cbn [fst]. apply lookup_insert_ne. intro E. apply N. left. exact E.
  - intro I. apply N. right. exact I.
Qed.

Lemma peak_fold_at (p : HostProbes) (l : list ExtendedAudioSource)
    (acc : gmap Z Q * list byte) (s : ExtendedAudioSource) :
  List.NoDup (map id l) -> In s l -> active s = true ->
  Forall (fun s => analyser_fftSize s = 128%nat) l ->
  upper_half_untouched (snd acc) ->
  length (timeDomainData p (id s)) = 128%nat ->
  fst (fold_left (peakStep p) l acc) !! id s
  = Some (Math_max (rawPeak (meterWindow (timeDomainData p (id s))))
            (default 0 (fst acc !! id s) * 0.90)).
Proof.
  revert acc. induction l as [|s0 l IH]; intros acc D I A F U Ld; [destruct I|].
  cbn [map] in D. inversion D as [|x xs Hnot Hrest]; subst.
  inversion F as [|x xs Fs Fl]; subst.
  cbn [fold_left]. destruct I as [->|I].
  - rewrite peak_fold_other by exact Hnot.
    unfold peakStep. rewrite A. cbn [fst]. rewrite lookup_insert_eq, Fs.
    destruct (read_block (timeDomainData p (id s)) (snd acc) U) as [_ W].
    now rewrite (W Ld).
  - rewrite (IH _ Hrest I A Fl (peakStep_meter p acc s0 Fs U) Ld).
    assert (L : fst (peakStep p acc s0) !! id s = fst acc !! id s).
    { unfold peakStep. destruct (active s0); [|reflexivity].
      cbn [fst]. apply lookup_insert_ne.
      intro E. apply Hnot. rewrite E. apply List.in_map. exact I. }
    now rewrite L.
Qed.

Lemma processMetrics_running (p : HostProbes) (e : AudioEngine) :
  context_state e = running ->
  context_state (processMetrics p e) = running
  /\ sources (processMetrics p e) = sources e
  /\ peakLevels (visualData (processMetrics p e))
     = fst (fold_left (peakStep p) (sources e)
              (peakLevels (visualData e), _rmsBuffer e))
  /\ _rmsBuffer (processMetrics p e)
     = snd (fold_left (peakStep p) (sources e)
              (peakLevels (visualData e), _rmsBuffer e)).
Proof.
  intro R. unfold processMetrics. rewrite R. repeat split; assumption.
Qed.

Lemma ticks_running (ps : list HostProbes) (e : AudioEngine) :
  context_state e = running ->
  context_state (ticks ps e) = running /\ sources (ticks ps e) = sources e.
Proof.
  unfold ticks. revert e. induction ps as [|p ps IH]; intros e R; [now split|].
  cbn [fold_left].
  destruct (processMetrics_running p e R) as (R' & S' & _).
  destruct (IH _ R') as [R'' S'']. split; [exact R'' | now rewrite S''].
Qed.

(** *** The window of the meter *)

Lemma squares_app (buf : list byte) (l1 l2 : list nat) :
  squares buf (l1 ++ l2) == squares buf l1 + squares buf l2.
Proof.
  unfold squares. induction l1 as [|i l1 IH]; cbn [app fold_right]; [lra|].
  cbv zeta in *. rewrite IH. lra.
Qed.

Lemma squares_ext (b1 b2 : list byte) (l : list nat) :
  (forall i, In i l -> nth i b1 x00 = nth i b2 x00) ->
  squares b1 l = squares b2 l.
Proof.
  unfold squares. induction l as [|i l IH]; intro H; [reflexivity|].
  cbn [fold_right]. rewrite IH, (H i) by (intros; try apply H; simpl; auto).
  reflexivity.
Qed.

(** A zero byte is the sample -1: its square is 1. *)
Lemma squares_zero_bytes (buf : list byte) (l : list nat) :
  (forall i, In i l -> nth i buf x00 = x00) ->
  squares buf l == of_nat (length l).
Proof.
  unfold squares, of_nat. induction l as [|i l IH]; intro H.
  - reflexivity.
  - cbn [fold_right length]. rewrite IH by (intros; apply H; simpl; auto).
    rewrite (H i) by (simpl; auto).
    rewrite Nat2Z.inj_succ, <- Z.add_1_r, inject_Z_plus.
    cbv zeta. change (of_byte x00) with 0. change (inject_Z 1) with 1. field.
Qed.

Lemma squares_nonneg (buf : list byte) (l : list nat) : 0 <= squares buf l.
Proof.
  unfold squares. induction l as [|i l IH]; cbn [fold_right]; [lra|].
  cbv zeta.
  set (v := (of_byte (nth i buf x00) - 128) / 128).
  assert (0 <= v * v).
  { destruct (Qlt_le_dec v 0).
    - setoid_replace (v * v) with ((- v) * (- v)) using relation Qeq by ring.
      apply Qmult_le_0_compat; lra.
    - apply Qmult_le_0_compat; lra. }
  lra.
Qed.

(** The mean square the meter computes for a block of 128 samples: the
    squares of the block plus 128, the squares of the zero bytes above it,
    over 256. *)
Lemma window_meanSquare (block : list byte) :
  length block = 128%nat ->
  meanSquare (meterWindow block) == (squares block (seq 0 128) + 128) / 256
  /\ 1 # 2 <= meanSquare (meterWindow block).
Proof.
  intro L. unfold meanSquare, meterWindow.
  change (seq 0 256) with (seq 0 (128 + 128)). rewrite seq_app, squares_app.
  cbn [Nat.add].
  assert (A : squares (block ++ repeat x00 128) (seq 0 128)
              = squares block (seq 0 128)).
  { apply squares_ext. intros i I. apply in_seq in I.
    apply app_nth1. lia. }
  assert (B : squares (block ++ repeat x00 128) (seq 128 128) == 128).
  { rewrite squares_zero_bytes.
    - rewrite length_seq. reflexivity.
    - intros i I. apply in_seq in I. rewrite app_nth2 by lia.
      apply nth_repeat. }
  rewrite A, B.
  pose proof (squares_nonneg block (seq 0 128)) as N.
  set (q := squares block (seq 0 128)) in *.
  split; [reflexivity|].
  apply Qle_shift_div_l; lra.
Qed.

(** Whatever the block, the raw peak of the meter is at least the one of
    silence, which is above 3.5. *)
Lemma window_rawPeak (block : list byte) :
  length block = 128%nat ->
  silenceFloor <= rawPeak (meterWindow block) /\ 3.5 < silenceFloor.
Proof.
  intro L. split; [|reflexivity].
  rewrite rawPeak_rms. unfold silenceFloor.
  destruct (window_meanSquare block L) as [_ H].
  pose proof (Math_sqrt_mono _ _ H). lra.
Qed.

Lemma silent_rawPeak : rawPeak (meterWindow (repeat x80 128)) = silenceFloor.
Proof. vm_compute. reflexivity. Qed.

(** ** Well-formed registries *)

Lemma ids_mix (a : bool) (c : Q) (l : list ExtendedAudioSource) :
  map id (map (mixSource a c) l) = map id l.
Proof.
  rewrite List.map_map. apply List.map_ext. intro s. apply mixSource_id.
Qed.

Lemma ids_update (k : Z) (f : ExtendedAudioSource -> ExtendedAudioSource)
    (l : list ExtendedAudioSource) :
  (forall x, id (f x) = id x) -> map id (Registry.update k f l) = map id l.
Proof.
  intro Hf. induction l as [|x l IH]; [reflexivity|].
  cbn [Registry.update]. destruct (Z.eqb (id x) k); cbn [map].
  - now rewrite Hf.
  - now rewrite IH.
Qed.

Lemma NoDup_delete (k : Z) (l : list ExtendedAudioSource) :
  List.NoDup (map id l) -> List.NoDup (map id (Registry.delete k l)).
Proof.
  unfold Registry.delete. induction l as [|x l IH]; intro D; [exact D|].
  cbn [map] in D. inversion D as [|y ys Hnot Hrest]; subst.
  cbn [List.filter]. destruct (negb (Z.eqb (id x) k)); [|now apply IH].
  cbn [map]. constructor; [|now apply IH].
  intro I. apply Hnot. apply List.in_map_iff in I. destruct I as [z [E I]].
  apply List.in_map_iff. exists z. split; [exact E|].
  apply filter_In in I. tauto.
Qed.

Lemma NoDup_set (k : Z) (v : ExtendedAudioSource) (l : list ExtendedAudioSource) :
  id v = k -> List.NoDup (map id l) -> List.NoDup (map id (Registry.set k v l)).
Proof.
  intro Hv. induction l as [|x l IH]; intro D.
  - cbn. constructor; [intros [] | constructor].
  - cbn [map] in D. inversion D as [|y ys Hnot Hrest]; subst.
    cbn [Registry.set]. destruct (Z.eqb_spec (id x) (id v)) as [E|N]; cbn [map].
    + constructor; [now rewrite <- E | exact Hrest].
    + constructor; [|now apply IH].
      intro I. apply List.in_map_iff in I. destruct I as [z [E I]].
      destruct (In_set _ _ _ _ I) as [->|I']; [now apply N|].
      apply Hnot. rewrite <- E. now apply List.in_map.
Qed.

Lemma updateMix_well_formed (e : AudioEngine) :
  well_formed e -> well_formed (updateMix e).
Proof.
  unfold well_formed. rewrite updateMix_sources, ids_mix. intros [D A].
  split; [exact D|].
  rewrite List.Forall_forall in *. intros s I.
  apply List.in_map_iff in I. destruct I as [s0 [<- I]].
  destruct (mixSource_fields (existsb solo (sources e)) (_crossfader e) s0)
    as (_ & _ & _ & _ & _ & _ & -> & _).
  now apply A.
Qed.

Lemma update_mix_well_formed (e : AudioEngine) (k : Z)
    (f : ExtendedAudioSource -> ExtendedAudioSource) :
  (forall x, id (f x) = id x) -> (forall x, active (f x) = active x) ->
  well_formed e ->
  well_formed (updateMix (with_sources e (Registry.update k f (sources e)))).
Proof.
  intros Hi Ha [D A]. apply updateMix_well_formed. split; cbn [sources with_sources].
  - now rewrite ids_update.
  - apply Forall_update; [|exact A]. intros s Hs. now rewrite Ha.
Qed.

Lemma removeSource_well_formed (k : Z) (e : AudioEngine) :
  well_formed e -> well_formed (removeSource k e).
Proof.
  intros [D A]. unfold removeSource.
  destruct (Registry.get k (sources e)); [|now split].
  split; cbn [sources]; [now apply NoDup_delete | now apply Forall_delete].
Qed.

Lemma step_well_formed (e : AudioEngine) (o : Op) :
  well_formed e -> well_formed (step e o).
Proof.
  intro W. destruct o; cbn [step]; try exact W.
  - destruct (resume e) as [e'|] eqn:R; [|exact W].
    unfold well_formed. now rewrite (resume_sources _ _ R).
  - unfold addSource. destruct (resume e) as [e'|] eqn:R; [|exact W].
    assert (W' : well_formed e').
    { unfold well_formed. now rewrite (resume_sources _ _ R). }
    assert (W'' : well_formed (if Registry.has slotId (sources e')
                               then removeSource slotId e' else e')).
    { destruct (Registry.has slotId (sources e'));
        [now apply removeSource_well_formed | exact W']. }
    destruct (Host.getAudioTracks st); [exact W''|].
    apply updateMix_well_formed. destruct W'' as [D A].
    split; cbn [sources with_sources].
    + now apply NoDup_set.
    + now apply Forall_set.
  - now apply removeSource_well_formed.
  - unfold setSourceVolume. destruct (Registry.get k (sources e)); [|exact W].
    now apply update_mix_well_formed.
  - unfold setMute. destruct (Registry.get k (sources e)); [|exact W].
    now apply update_mix_well_formed.
  - unfold setSolo. destruct (Registry.get k (sources e)); [|exact W].
    now apply update_mix_well_formed.
  - unfold setMonitoring. destruct (Registry.get k (sources e)); [|exact W].
    now apply update_mix_well_formed.
  - unfold setCrossfade. destruct (Registry.get k (sources e)); [|exact W].
    now apply update_mix_well_formed.
  - unfold setCrossfader. now apply updateMix_well_formed.
  - unfold well_formed. now rewrite processMetrics_sources.
  - unfold destroy.
    assert (G : forall l acc, well_formed acc ->
              well_formed (fold_left (fun acc s => removeSource (id s) acc) l acc)).
    { induction l as [|s l IH]; cbn [fold_left]; intros acc Ha; [exact Ha|].
      apply IH, removeSource_well_formed, Ha. }
    apply G. exact W.
Qed.

(** Every engine reached through the control surface has one entry per id
    and only active channels. *)
Lemma run_well_formed (ctx : ContextState) (vd : VisualData) (ops : list Op) :
  well_formed (run ops (constructor ctx vd)).
Proof.
  assert (G : forall e, well_formed e -> well_formed (run ops e)).
  { unfold run. induction ops as [|o ops IH]; cbn [fold_left]; intros e W.
    - exact W.
    - apply IH, step_well_formed, W. }
  apply G. split; constructor.
Qed.

(** ** The peak meter on the engines the control surface reaches *)

Lemma mixSource_fftSize (a : bool) (c : Q) (s : ExtendedAudioSource) :
  analyser_fftSize (mixSource a c s) = analyser_fftSize s.
Proof.
  rewrite mixSource_split. unfold with_gains. cbn [analyser_fftSize].
  unfold routeOf. destruct (connected_to s _); [reflexivity|].
  unfold reroute.
  destruct (_connectedBus s) as [b|]; [|reflexivity].
  destruct (Host.disconnect_from (gainNode_out s) b); reflexivity.
Qed.

Lemma updateMix_meter (e : AudioEngine) :
  meter_set_up e -> meter_set_up (updateMix e).
Proof.
  intros [U F]. split; [exact U|].
  rewrite updateMix_sources. rewrite List.Forall_forall in *. intros s I.
  apply List.in_map_iff in I. destruct I as [s0 [<- I]].
  rewrite mixSource_fftSize. now apply F.
Qed.

Lemma update_mix_meter (e : AudioEngine) (k : Z)
    (f : ExtendedAudioSource -> ExtendedAudioSource) :
  (forall x, analyser_fftSize (f x) = analyser_fftSize x) ->
  meter_set_up e ->
  meter_set_up (updateMix (with_sources e (Registry.update k f (sources e)))).
Proof.
  intros Hf [U F]. apply updateMix_meter. split; [exact U|].
  cbn [sources with_sources].
  apply Forall_update; [|exact F]. intros s Hs. now rewrite Hf.
Qed.

Lemma removeSource_meter (k : Z) (e : AudioEngine) :
  meter_set_up e -> meter_set_up (removeSource k e).
Proof.
  intros [U F]. unfold removeSource.
  destruct (Registry.get k (sources e)); [|now split].
  split; [exact U|]. cbn [sources]. now apply Forall_delete.
Qed.

Lemma processMetrics_meter (p : HostProbes) (e : AudioEngine) :
  meter_set_up e -> meter_set_up (processMetrics p e).
Proof.
  intros [U F]. destruct (context_state e) eqn:R;
    try (unfold processMetrics; rewrite R; now split).
  destruct (processMetrics_running p e R) as (_ & S & _ & B).
  split; [|now rewrite S].
  rewrite B. now apply peak_fold_meter.
Qed.

Lemma step_meter (e : AudioEngine) (o : Op) :
  meter_set_up e -> meter_set_up (step e o).
Proof.
  intro W. destruct o; cbn [step]; try exact W.
  - destruct (resume e) as [e'|] eqn:R; [|exact W].
    unfold resume in R. destruct (context_state e); inversion R; subst; exact W.
  - unfold addSource. destruct (resume e) as [e'|] eqn:R; [|exact W].
    assert (W' : meter_set_up e').
    { unfold resume in R. destruct (context_state e); inversion R; subst; exact W. }
    assert (W'' : meter_set_up (if Registry.has slotId (sources e')
                                then removeSource slotId e' else e')).
    { destruct (Registry.has slotId (sources e'));
        [now apply removeSource_meter | exact W']. }
    destruct (Host.getAudioTracks st); [exact W''|].
    apply updateMix_meter. destruct W'' as [U F].
    split; [exact U|]. cbn [sources with_sources].
    now apply Forall_set.
  - now apply removeSource_meter.
  - unfold setSourceVolume. destruct (Registry.get k (sources e)); [|exact W].
    now apply update_mix_meter.
  - unfold setMute. destruct (Registry.get k (sources e)); [|exact W].
    now apply update_mix_meter.
  - unfold setSolo. destruct (Registry.get k (sources e)); [|exact W].
    now apply update_mix_meter.
  - unfold setMonitoring. destruct (Registry.get k (sources e)); [|exact W].
    now apply update_mix_meter.
  - unfold setCrossfade. destruct (Registry.get k (sources e)); [|exact W].
    now apply update_mix_meter.
  - unfold setCrossfader. now apply updateMix_meter.
  - now apply processMetrics_meter.
  - unfold destroy.
    assert (G : forall l acc, meter_set_up acc ->
              meter_set_up (fold_left (fun acc s => removeSource (id s) acc) l acc)).
    { induction l as [|s l IH]; cbn [fold_left]; intros acc Ha; [exact Ha|].
      apply IH, removeSource_meter, Ha. }
    apply G. exact W.
Qed.

(** On every engine reached through the control surface the scratch array
    has its upper half untouched and every analyser has [fftSize] 128. *)
Lemma run_meter (ctx : ContextState) (vd : VisualData) (ops : list Op) :
  meter_set_up (run ops (constructor ctx vd)).
Proof.
  assert (G : forall e, meter_set_up e -> meter_set_up (run ops e)).
  { unfold run. induction ops as [|o ops IH]; cbn [fold_left]; intros e W.
    - exact W.
    - apply IH, step_meter, W. }
  apply G. split; [split; reflexivity | constructor].
Qed.

(** One tick, seen from one channel. *)
Lemma peak_tick (p : HostProbes) (e : AudioEngine) (s : ExtendedAudioSource) :
  context_state e = running ->
  well_formed e -> meter_set_up e -> In s (sources e) ->
  length (timeDomainData p (id s)) = 128%nat ->
  peakLevels (visualData (processMetrics p e)) !! id s
  = Some (Math_max (rawPeak (meterWindow (timeDomainData p (id s))))
            (peakOf e (id s) * 0.90)).
Proof.
  intros R [D A] [U F] I L.
  destruct (processMetrics_running p e R) as (_ & _ & -> & _).
  rewrite List.Forall_forall in A.
  now apply peak_fold_at; [| | apply A | | |].
Qed.

Lemma running_tick_invariants (p : HostProbes) (e : AudioEngine) :
  context_state e = running -> well_formed e -> meter_set_up e ->
  context_state (processMetrics p e) = running
  /\ well_formed (processMetrics p e)
  /\ meter_set_up (processMetrics p e)
  /\ sources (processMetrics p e) = sources e.
Proof.
  intros R W M.
  destruct (processMetrics_running p e R) as (R' & S & _).
  split; [exact R'|]. split; [|split; [now apply processMetrics_meter | exact S]].
  unfold well_formed. now rewrite S.
Qed.

Lemma silenceFloor_pos : 0 < silenceFloor.
Proof. reflexivity. Qed.

(** A silent tick on a level whose decayed value is not above the floor of
    the meter reports the floor. *)
Lemma silent_tick (p : HostProbes) (e : AudioEngine) (s : ExtendedAudioSource) :
  context_state e = running -> well_formed e -> meter_set_up e ->
  In s (sources e) ->
  timeDomainData p (id s) = repeat x80 128 ->
  peakOf e (id s) * 0.90 <= silenceFloor ->
  peakOf (processMetrics p e) (id s) = silenceFloor.
Proof.
  intros R W M I B H. unfold peakOf at 1.
  rewrite (peak_tick p e s R W M I) by now rewrite B.
  rewrite B, silent_rawPeak. cbn [default].
  unfold Math_max. case_ltb; [lra | reflexivity].
Qed.

(** So does every later silent tick. *)
Lemma silent_ticks (ps : list HostProbes) (e : AudioEngine)
    (s : ExtendedAudioSource) :
  context_state e = running -> well_formed e -> meter_set_up e ->
  In s (sources e) ->
  ps <> [] ->
  Forall (fun p => timeDomainData p (id s) = repeat x80 128) ps ->
  peakOf e (id s) * 0.90 <= silenceFloor ->
  peakOf (ticks ps e) (id s) = silenceFloor.
Proof.
  unfold ticks. revert e.
  induction ps as [|p ps IH]; intros e R W M I N F H; [congruence|].
  inversion F as [|x xs B F']; subst. cbn [fold_left].
  pose proof (silent_tick p e s R W M I B H) as T.
  destruct ps as [|p' ps]; [exact T|].
  destruct (running_tick_invariants p e R W M) as (R' & W' & M' & S').
  apply IH; try assumption; [now rewrite S' | discriminate |].
  rewrite T. pose proof silenceFloor_pos. lra.
Qed.

(** C6: the peak meter on an engine reached through the control surface,
    for a registered channel whose analyser delivers its block of 128
    samples.  The reported peak is max(rawPeak, previousPeak * 0.90) with
    rawPeak the RMS of the 256 bytes of the scratch array times 5, as the
    claim says.  But the analyser, of [fftSize] 128, fills 128 of the 256
    bytes; the other 128 are the zero bytes the array was created with and
    count as samples -1.  So the mean square is (squares of the block + 128)
    / 256, the raw peak is at least 5 * sqrt(1/2), about 3.5355, whatever
    the input, and so is the reported peak.  Under silence (every byte of
    the block at the midpoint 128) the raw peak is that value, not 0: a
    level whose decayed value is not above it is reported as it on that tick
    and on every following silent tick, and a level at it stays at it
    instead of falling by the factor 0.90. *)
Theorem C6_silence_is_held_at_the_floor :
  forall (ctx : ContextState) (vd : VisualData) (ops : list Op)
         (p : HostProbes) (s : ExtendedAudioSource),
    let e := run ops (constructor ctx vd) in
    context_state e = running ->
    In s (sources e) ->
    length (timeDomainData p (id s)) = 128%nat ->
    let block := timeDomainData p (id s) in
    let window := meterWindow block in
    let level := peakOf (processMetrics p e) (id s) in
    peakLevels (visualData (processMetrics p e)) !! id s
    = Some (Math_max (rawPeak window) (peakOf e (id s) * 0.90))
    /\ rawPeak window = Math_sqrt (meanSquare window) * 5
    /\ meanSquare window == (squares block (seq 0 128) + 128) / 256
    /\ silenceFloor <= rawPeak window
    /\ 3.5 < silenceFloor
    /\ silenceFloor <= level
    /\ (block = repeat x80 128 ->
        rawPeak window = silenceFloor
        /\ (peakOf e (id s) == silenceFloor ->
            level == peakOf e (id s) /\ ~ level == peakOf e (id s) * 0.90)
        /\ (peakOf e (id s) * 0.90 <= silenceFloor ->
            forall ps : list HostProbes,
              Forall (fun q => timeDomainData q (id s) = repeat x80 128) ps ->
              peakOf (ticks (p :: ps) e) (id s) = silenceFloor)).
Proof.
  intros ctx vd ops p s e R I L block window level.
  pose proof (run_well_formed ctx vd ops) as W. fold e in W.
  pose proof (run_meter ctx vd ops) as M. fold e in M.
  pose proof (peak_tick p e s R W M I L) as T. fold block window in T.
  destruct (window_meanSquare block L) as [MS _]. fold window in MS.
  destruct (window_rawPeak block L) as [Fl Hi]. fold window in Fl.
  assert (Lv : silenceFloor <= level).
  { unfold level, peakOf at 1. rewrite T. cbn [default].
    eapply Qle_trans; [exact Fl | apply Math_max_ge_l]. }
  split; [exact T|]. split; [apply rawPeak_rms|]. split; [exact MS|].
  split; [exact Fl|]. split; [exact Hi|]. split; [exact Lv|].
  intro B.
  assert (Sil : peakOf e (id s) * 0.90 <= silenceFloor -> level = silenceFloor).
  { intro H. now apply silent_tick. }
  split; [unfold window; rewrite B; apply silent_rawPeak|]. split.
  - intro E. pose proof silenceFloor_pos as P.
    assert (H : peakOf e (id s) * 0.90 <= silenceFloor) by lra.
    rewrite (Sil H). split; [lra|]. intro X. lra.
  - intros H ps F. apply silent_ticks; try assumption; [discriminate|].
    now constructor.
Qed.

Lemma C6_witness :
  let ops := [OpAddSource 1 micStream mic; OpProcessMetrics silentProbes] in
  let e := run ops (constructor running emptyVisual) in
  let s := mixSource false 0 (newSource 1 micStream mic) in
  context_state e = running
  /\ In s (sources e)
  /\ length (timeDomainData silentProbes (id s)) = 128%nat
  /\ timeDomainData silentProbes (id s) = repeat x80 128
  /\ peakOf e (id s) == silenceFloor
  /\ peakOf (processMetrics silentProbes e) (id s) == peakOf e (id s)
  /\ ~ peakOf (processMetrics silentProbes e) (id s) == peakOf e (id s) * 0.90
  /\ peakOf (ticks [silentProbes; silentProbes; silentProbes] e) (id s)
     = silenceFloor.
Proof.
  intros ops e s.
  assert (R : context_state e = running) by reflexivity.
  assert (I : In s (sources e)) by (left; reflexivity).
  assert (L : length (timeDomainData silentProbes (id s)) = 128%nat)
    by reflexivity.
  assert (B : timeDomainData silentProbes (id s) = repeat x80 128)
    by reflexivity.
  assert (E : peakOf e (id s) == silenceFloor) by (vm_compute; reflexivity).
  assert (H : peakOf e (id s) * 0.90 <= silenceFloor)
    by (vm_compute; discriminate).
  destruct (C6_silence_is_held_at_the_floor running emptyVisual ops
              silentProbes s R I L) as (_ & _ & _ & _ & _ & _ & T).
  destruct (T B) as (_ & Fix & Run).
  destruct (Fix E) as [Same Not].
  assert (F : Forall (fun q => timeDomainData q (id s) = repeat x80 128)
                [silentProbes; silentProbes]).
  { apply List.Forall_cons; [exact B|].
    apply List.Forall_cons; [exact B | apply List.Forall_nil]. }
  pose proof (Run H [silentProbes; silentProbes] F) as Three.
  exact (conj R (conj I (conj L (conj B (conj E (conj Same (conj Not Three))))))).
Defined.

(** ** Scenarios *)

(** Microphone in slot 1 at volume 0.5: gain 0.5; a soloed channel 2
    silences it; without the solo the gain is 0.5 again. *)
Example scenario_solo :
  let gain1 e := option_map (fun s => Qred (gainNode_gain s))
                   (Registry.get 1 (sources e)) in
  let e1 := run [OpAddSource 1 micStream mic; OpSetSourceVolume 1 0.5;
                 OpAddSource 2 micStream mic]
              (constructor running emptyVisual) in
  let e2 := setSolo 2 true e1 in
  let e3 := setSolo 2 false e2 in
  gain1 e1 = Some (1 # 2) /\ gain1 e2 = Some 0 /\ gain1 e3 = Some (1 # 2).
Proof.
  vm_compute. repeat split; reflexivity.
Qed.

(** Channel 1 in group A, channel 2 in group B: at crossfader 0 both play
    at their volume; at 0.5 channel 1 is halved and channel 2 is not
    touched. *)
Example scenario_crossfade :
  let gain k e := option_map (fun s => Qred (gainNode_gain s))
                    (Registry.get k (sources e)) in
  let e0 := run [OpAddSource 1 micStream mic; OpAddSource 2 micStream mic;
                 OpSetCrossfade 1 GroupA; OpSetCrossfade 2 GroupB;
                 OpSetCrossfader 0]
              (constructor running emptyVisual) in
  let e1 := setCrossfader 0.5 e0 in
  gain 1%Z e0 = Some (4 # 5) /\ gain 2%Z e0 = Some (4 # 5)
  /\ gain 1%Z e1 = Some (2 # 5) /\ gain 2%Z e1 = Some (4 # 5).
Proof.
  vm_compute. repeat split; reflexivity.
Qed.

(** A removal does not recompute the mix: after the soloed channel is
    removed the other channel keeps gain 0 until the next call that does. *)
Example scenario_remove_soloed :
  let gain1 e := option_map (fun s => Qred (gainNode_gain s))
                   (Registry.get 1 (sources e)) in
  let e1 := run [OpAddSource 1 micStream mic; OpAddSource 2 micStream mic;
                 OpSetSolo 2 true; OpRemoveSource 2]
              (constructor running emptyVisual) in
  gain1 e1 = Some 0 /\ gain1 (setMute 1 false e1) = Some (4 # 5).
Proof.
  vm_compute. repeat split; reflexivity.
Qed.

(** The master spectrum array of the provider has 1024 entries: 61 bass
    bins, 358 mid bins, 605 high bins. *)
Example scenario_master_bins :
  floorBins 1024 double_006 = 61%nat /\ floorBins 1024 double_035 = 358%nat
  /\ (1024 - floorBins 1024 double_006 - floorBins 1024 double_035 = 605)%nat.
Proof.
  vm_compute. repeat split; reflexivity.
Qed.

(** A window of bytes 0 (every sample -1) has RMS 1 and raw peak 5; a
    window of bytes 128 (every sample 0) has raw peak 0. *)
Example scenario_full_scale :
  rawPeak (repeat x00 256) == 5 /\ rawPeak (repeat x80 256) == 0.
Proof.
  split; vm_compute; reflexivity.
Qed.

(** ** Further properties of the registry and the lifecycle *)

Lemma get_of_In (l : list ExtendedAudioSource) (s : ExtendedAudioSource) :
  List.NoDup (map id l) -> In s l -> Registry.get (id s) l = Some s.
Proof.
  unfold Registry.get. induction l as [|x l IH]; intros D I; [destruct I|].
  cbn [map] in D. inversion D as [|y ys Hnot Hrest]; subst.
  cbn [find]. destruct I as [->|I].
  - now rewrite Z.eqb_refl.
  - destruct (Z.eqb_spec (id x) (id s)) as [E|N]; [|now apply IH].
    exfalso. apply Hnot. rewrite E. now apply List.in_map.
Qed.

Lemma get_present (k : Z) (l : list ExtendedAudioSource) (o : ExtendedAudioSource) :
  In o l -> id o = k -> exists s, Registry.get k l = Some s.
Proof.
  intros I E. destruct (Registry.get k l) as [s|] eqn:G; [now exists s|].
  exfalso. apply get_None in G. apply G. rewrite <- E. now apply List.in_map.
Qed.

Lemma get_delete_ne (k k' : Z) (l : list ExtendedAudioSource) :
  k' <> k -> Registry.get k' (Registry.delete k l) = Registry.get k' l.
Proof.
  intro N. unfold Registry.get, Registry.delete.
  induction l as [|x l IH]; [reflexivity|].
  cbn [List.filter find].
  destruct (Z.eqb_spec (id x) k) as [E|E]; cbn [negb find].
  - destruct (Z.eqb_spec (id x) k'); [congruence | exact IH].
  - destruct (Z.eqb (id x) k'); [reflexivity | exact IH].
Qed.

Lemma get_set_eq (k : Z) (v : ExtendedAudioSource) (l : list ExtendedAudioSource) :
  id v = k -> Registry.get k (Registry.set k v l) = Some v.
Proof.
  intro E. unfold Registry.get. induction l as [|x l IH]; cbn [Registry.set find].
  - now rewrite E, Z.eqb_refl.
  - destruct (Z.eqb (id x) k) eqn:X; cbn [find].
    + now rewrite E, Z.eqb_refl.
    + now rewrite X.
Qed.

Lemma get_set_ne (k k' : Z) (v : ExtendedAudioSource) (l : list ExtendedAudioSource) :
  id v = k -> k' <> k ->
  Registry.get k' (Registry.set k v l) = Registry.get k' l.
Proof.
  intros E N. unfold Registry.get.
  induction l as [|x l IH]; cbn [Registry.set find].
  - rewrite E. destruct (Z.eqb_spec k k'); [congruence | reflexivity].
  - destruct (Z.eqb_spec (id x) k) as [X|X]; cbn [find].
    + rewrite E. destruct (Z.eqb_spec k k'); [congruence|].
      destruct (Z.eqb_spec (id x) k'); [congruence | reflexivity].
    + destruct (Z.eqb (id x) k'); [reflexivity | exact IH].
Qed.

Lemma delete_absent (k : Z) (l : list ExtendedAudioSource) :
  ~ In k (map id l) -> Registry.delete k l = l.
Proof.
  unfold Registry.delete. induction l as [|x l IH]; intro N; [reflexivity|].
  cbn [List.filter]. destruct (Z.eqb_spec (id x) k) as [E|E]; cbn [negb].
  - exfalso. apply N. left. exact E.
  - rewrite IH; [reflexivity|]. intro I. apply N. now right.
Qed.

(** X1: in every engine reached through the control surface the registry
    holds one channel per id, looking a registered channel up by its id
    returns that channel, and every registered channel is active. *)
Theorem X1_one_channel_per_id :
  forall (ctx : ContextState) (vd : VisualData) (ops : list Op),
    let e := run ops (constructor ctx vd) in
    List.NoDup (map id (sources e))
    /\ forall s, In s (sources e) ->
         Registry.get (id s) (sources e) = Some s /\ active s = true.
Proof.
  intros ctx vd ops e.
  destruct (run_well_formed ctx vd ops) as [D A]. fold e in D, A.
  split; [exact D|]. intros s I. split; [now apply get_of_In|].
  rewrite List.Forall_forall in A. now apply A.
Qed.

Lemma teardown_torn_down (s : ExtendedAudioSource) :
  routable s -> torn_down (teardown s).
Proof.
  intro R. unfold torn_down. now apply teardown_complete.
Qed.

(** X3: [removeSource] on a channel registered in an engine reached through
    the control surface removes the entry, severs every edge of its nodes
    and ends every track of its stream; the other entries are not
    touched. *)
Theorem X3_removeSource_releases_the_channel :
  forall (ctx : ContextState) (vd : VisualData) (ops : list Op)
         (k : Z) (s : ExtendedAudioSource),
    let e := run ops (constructor ctx vd) in
    Registry.get k (sources e) = Some s ->
    Registry.get k (sources (removeSource k e)) = None
    /\ released (removeSource k e) = teardown s :: released e
    /\ torn_down (teardown s)
    /\ forall k', k' <> k ->
         Registry.get k' (sources (removeSource k e)) = Registry.get k' (sources e).
Proof.
  intros ctx vd ops k s e G.
  assert (R : routable s).
  { apply routed_routable.
    assert (F : Forall routed (sources e)) by (apply run_routed; constructor).
    rewrite List.Forall_forall in F. apply F. now apply (get_In k). }
  destruct (removeSource_present k e s G R) as (G' & Rel & _).
  split; [exact G'|]. split; [exact Rel|]. split; [now apply teardown_torn_down|].
  intros k' N. unfold removeSource. rewrite G. cbn [sources].
  now apply get_delete_ne.
Qed.

Lemma X3_witness :
  Registry.get 1 (sources (run [OpAddSource 1 micStream mic]
                             (constructor running emptyVisual)))
  = Some (mixSource false 0 (newSource 1 micStream mic))
  /\ torn_down (teardown (mixSource false 0 (newSource 1 micStream mic))).
Proof.
  assert (G : Registry.get 1 (sources (run [OpAddSource 1 micStream mic]
                                         (constructor running emptyVisual)))
              = Some (mixSource false 0 (newSource 1 micStream mic)))
    by reflexivity.
  split; [exact G|].
  apply (X3_removeSource_releases_the_channel running emptyVisual
           [OpAddSource 1 micStream mic] 1 _ G).
Defined.

Lemma removeSource_frame (k : Z) (e : AudioEngine) :
  context_state (removeSource k e) = context_state e
  /\ visualData (removeSource k e) = visualData e
  /\ _crossfader (removeSource k e) = _crossfader e
  /\ masterBus_gain (removeSource k e) = masterBus_gain e.
Proof.
  unfold removeSource. destruct (Registry.get k (sources e)); repeat split.
Qed.

Lemma destroy_fold (l : list ExtendedAudioSource) (acc : AudioEngine) :
  sources acc = l -> List.NoDup (map id l) ->
  let r := fold_left (fun a s => removeSource (id s) a) l acc in
  sources r = []
  /\ released r = rev (map teardown l) ++ released acc
  /\ context_state r = context_state acc
  /\ visualData r = visualData acc.
Proof.
  revert acc. induction l as [|s l IH]; intros acc S D.
  - cbn. repeat split. exact S.
  - cbn [fold_left map] in *. inversion D as [|y ys Hnot Hrest]; subst.
    assert (G : Registry.get (id s) (sources acc) = Some s).
    { rewrite S. unfold Registry.get. cbn [find]. now rewrite Z.eqb_refl. }
    assert (S' : sources (removeSource (id s) acc) = l).
    { unfold removeSource. rewrite G. cbn [sources]. rewrite S.
      unfold Registry.delete. cbn [List.filter]. rewrite Z.eqb_refl. cbn [negb].
      now apply delete_absent. }
    assert (Rel : released (removeSource (id s) acc) = teardown s :: released acc).
    { unfold removeSource. now rewrite G. }
    destruct (IH _ S' Hrest) as (I1 & I2 & I3 & I4).
    destruct (removeSource_frame (id s) acc) as (F1 & F2 & _).
    split; [exact I1|]. split; [|split].
    + rewrite I2, Rel. cbn [rev]. now rewrite <- List.app_assoc.
    + now rewrite I3.
    + now rewrite I4.
Qed.

(** X4: [destroy()] on an engine reached through the control surface closes
    the context, empties the registry and releases every channel that was
    registered: each one, in registry order, ends up with no edge and
    every track of its stream ended.  The telemetry record is not
    touched. *)
Theorem X4_destroy_releases_everything :
  forall (ctx : ContextState) (vd : VisualData) (ops : list Op),
    let e := run ops (constructor ctx vd) in
    sources (destroy e) = []
    /\ context_state (destroy e) = closed
    /\ released (destroy e) = rev (map teardown (sources e)) ++ released e
    /\ Forall torn_down (map teardown (sources e))
    /\ visualData (destroy e) = visualData e.
Proof.
  intros ctx vd ops e.
  destruct (run_well_formed ctx vd ops) as [D _]. fold e in D.
  destruct (destroy_fold (sources e) (with_context e closed) eq_refl D)
    as (S & R & C & V).
  unfold destroy. split; [exact S|]. split; [exact C|]. split; [exact R|].
  split; [|exact V].
  assert (F : Forall routed (sources e)) by (apply run_routed; constructor).
  rewrite List.Forall_forall in *. intros t I.
  apply List.in_map_iff in I. destruct I as [s [<- I]].
  apply teardown_torn_down, routed_routable, F, I.
Qed.

(** ** Further properties of the mix *)

Lemma scaled_down (a c : Q) : 0 <= a -> 0 <= c <= 1 -> 0 <= a * c <= a.
Proof.
  intros Ha [H0 H1]. split.
  - now apply Qmult_le_0_compat.
  - assert (H : c * a <= 1 * a) by (apply Qmult_le_compat_r; assumption).
    lra.
Qed.

Lemma mixSource_levels (a : bool) (c : Q) (s : ExtendedAudioSource) :
  -1 <= c <= 1 -> 0 <= volume s <= 2 ->
  channel_in_range (mixSource a c s).
Proof.
  intros Hc Hv. unfold channel_in_range.
  destruct (mixSource_fields a c s) as (_ & -> & _ & _ & -> & _).
  split; [|split; [apply Hv|]].
  - rewrite mixSource_gain. cbv zeta.
    pose proof (compensation_range c (crossfadeGroup s) Hc) as K.
    set (comp := crossfadeCompensation c (crossfadeGroup s)) in *.
    assert (T : 0 <= (if a && negb (solo s) then 0
                      else if muted s then 0 else volume s) <= volume s).
    { destruct (a && negb (solo s)); [lra|]. destruct (muted s); lra. }
    set (tg := if a && negb (solo s) then 0 else if muted s then 0 else volume s) in *.
    pose proof (scaled_down tg comp (proj1 T) K) as P.
    case_ltb; lra.
  - rewrite mixSource_split. reflexivity.
Qed.

Lemma channel_in_range_volume (s : ExtendedAudioSource) :
  channel_in_range s -> 0 <= volume s <= 2.
Proof.
  unfold channel_in_range. intros ([G0 G1] & V & _). lra.
Qed.

Lemma updateMix_levels (e : AudioEngine) :
  -1 <= _crossfader e <= 1 ->
  0 <= masterBus_gain e <= 2 ->
  Forall (fun s => 0 <= volume s <= 2) (sources e) ->
  levels_in_range (updateMix e).
Proof.
  intros C M V. split; [exact C|]. split; [exact M|].
  rewrite updateMix_sources. rewrite List.Forall_forall in *.
  intros s' I. apply List.in_map_iff in I. destruct I as [s [<- I]].
  apply mixSource_levels; [exact C | now apply V].
Qed.

Lemma levels_volumes (e : AudioEngine) :
  levels_in_range e -> Forall (fun s => 0 <= volume s <= 2) (sources e).
Proof.
  intros (_ & _ & F). revert F. apply List.Forall_impl.
  exact channel_in_range_volume.
Qed.

Lemma update_mix_levels (e : AudioEngine) (k : Z)
    (f : ExtendedAudioSource -> ExtendedAudioSource) :
  (forall s, 0 <= volume s <= 2 -> 0 <= volume (f s) <= 2) ->
  levels_in_range e ->
  levels_in_range (updateMix (with_sources e (Registry.update k f (sources e)))).
Proof.
  intros Hf L. pose proof (levels_volumes e L) as V. destruct L as (C & M & _).
  apply updateMix_levels; [exact C | exact M|].
  cbn [sources with_sources]. now apply Forall_update.
Qed.

Lemma removeSource_levels (k : Z) (e : AudioEngine) :
  levels_in_range e -> levels_in_range (removeSource k e).
Proof.
  intros (C & M & F). unfold removeSource.
  destruct (Registry.get k (sources e)); [|now repeat split].
  split; [exact C|]. split; [exact M|]. cbn [sources]. now apply Forall_delete.
Qed.

Lemma step_levels (e : AudioEngine) (o : Op) :
  levels_in_range e -> levels_in_range (step e o).
Proof.
  intro L. destruct o; cbn [step]; try exact L.
  - destruct (resume e) as [e'|] eqn:R; [|exact L].
    unfold resume in R. destruct (context_state e); inversion R; subst; exact L.
  - unfold addSource. destruct (resume e) as [e'|] eqn:R; [|exact L].
    assert (L' : levels_in_range e').
    { unfold resume in R. destruct (context_state e); inversion R; subst; exact L. }
    assert (L'' : levels_in_range (if Registry.has slotId (sources e')
                                   then removeSource slotId e' else e')).
    { destruct (Registry.has slotId (sources e'));
        [now apply removeSource_levels | exact L']. }
    destruct (Host.getAudioTracks st); [exact L''|].
    pose proof (levels_volumes _ L'') as V. destruct L'' as (C & M & _).
    apply updateMix_levels; [exact C | exact M|].
    cbn [sources with_sources]. apply Forall_set; [|exact V].
    cbn [volume newSource]. lra.
  - now apply removeSource_levels.
  - unfold setSourceVolume. destruct (Registry.get k (sources e)); [|exact L].
    apply update_mix_levels; [|exact L].
    intros s _. apply (clamped_volume_in_range s val).
  - unfold setMute. destruct (Registry.get k (sources e)); [|exact L].
    apply update_mix_levels; [intros s Hs; exact Hs | exact L].
  - unfold setSolo. destruct (Registry.get k (sources e)); [|exact L].
    apply update_mix_levels; [intros s Hs; exact Hs | exact L].
  - unfold setMonitoring. destruct (Registry.get k (sources e)); [|exact L].
    apply update_mix_levels; [intros s Hs; exact Hs | exact L].
  - unfold setCrossfade. destruct (Registry.get k (sources e)); [|exact L].
    apply update_mix_levels; [intros s Hs; exact Hs | exact L].
  - unfold setCrossfader. pose proof (levels_volumes e L) as V.
    destruct L as (_ & M & _). apply updateMix_levels; [|exact M | exact V].
    cbn [_crossfader with_crossfader]. apply max_min_nearest. lra.
  - destruct L as (C & _ & F). split; [exact C|]. split; [|exact F].
    cbn [masterBus_gain setMasterVolume]. apply max_min_nearest. lra.
  - unfold processMetrics. destruct (context_state e); exact L.
  - unfold destroy.
    assert (G : forall l acc, levels_in_range acc ->
              levels_in_range (fold_left (fun acc s => removeSource (id s) acc) l acc)).
    { induction l as [|s l IH]; cbn [fold_left]; intros acc Ha; [exact Ha|].
      apply IH, removeSource_levels, Ha. }
    apply G. exact L.
Qed.

(** X2: in every engine reached through the control surface the crossfader
    lies in [-1, 1], the master gain in [0, 2], every channel's gain target
    between 0 and the channel's stored volume, every stored volume at most
    2, and every monitor gate gain is 1 for a monitored channel and 0
    otherwise. *)
Theorem X2_levels_stay_in_range :
  forall (ctx : ContextState) (vd : VisualData) (ops : list Op),
    let e := run ops (constructor ctx vd) in
    -1 <= _crossfader e <= 1
    /\ 0 <= masterBus_gain e <= 2
    /\ forall s, In s (sources e) ->
         0 <= gainNode_gain s <= volume s
         /\ volume s <= 2
         /\ monitorGate_gain s = (if monitoring s then 1 else 0).
Proof.
  intros ctx vd ops e.
  assert (G : forall e0, levels_in_range e0 -> levels_in_range (run ops e0)).
  { unfold run. induction ops as [|o ops IH]; cbn [fold_left]; intros e0 L.
    - exact L.
    - apply IH, step_levels, L. }
  assert (L0 : levels_in_range (constructor ctx vd)).
  { split; [cbn; lra|]. split; [cbn; lra | constructor]. }
  destruct (G _ L0) as (C & M & F). fold e in C, M, F.
  split; [exact C|]. split; [exact M|].
  rewrite List.Forall_forall in F. exact F.
Qed.

Lemma mixSource_same_settings (a : bool) (c : Q) (s : ExtendedAudioSource) :
  routed s -> same_settings s (mixSource a c s).
Proof.
  intros [B _].
  destruct (mixSource_fields a c s) as (F1 & F2 & F3 & F4 & F5 & F6 & _ & F8).
  destruct (mixSource_stable a c s B) as (S1 & S2 & S3).
  unfold same_settings. repeat split; assumption.
Qed.

(** The engine [addSource] works on once the context has been resumed and
    the slot has been cleared. *)
Lemma addSource_success (slotId : Z) (st : MediaStream) (ty : SourceType)
    (e : AudioEngine) :
  context_state e <> closed ->
  Host.getAudioTracks st <> [] ->
  exists e0,
    sources e0 = Registry.delete slotId (sources e)
    /\ _crossfader e0 = _crossfader e
    /\ released e0 = match Registry.get slotId (sources e) with
                     | Some old => teardown old :: released e
                     | None => released e
                     end
    /\ addSource slotId st ty e
       = updateMix (with_sources e0
                      (Registry.set slotId (newSource slotId st ty) (sources e0)))
    /\ context_state e0 = running.
Proof.
  intros C T. unfold addSource.
  assert (R : exists e', resume e = Some e' /\ sources e' = sources e
                         /\ _crossfader e' = _crossfader e
                         /\ released e' = released e
                         /\ context_state e' = running).
  { unfold resume. destruct (context_state e) eqn:X; [| |congruence].
    - exists (with_context e running). repeat split.
    - exists e. repeat split. exact X. }
  destruct R as (e' & -> & S & X & Rl & Cs).
  destruct (Host.getAudioTracks st) as [|t ts]; [congruence|].
  unfold Registry.has. rewrite S.
  destruct (Registry.get slotId (sources e)) as [old|] eqn:G.
  - exists (removeSource slotId e'). unfold removeSource. rewrite S, G.
    cbn [sources _crossfader released context_state].
    repeat split; try assumption. now rewrite Rl.
  - exists e'. rewrite S. repeat split; try assumption.
    symmetry. apply delete_absent. now apply get_None.
Qed.

(** X5: [addSource] on a context that is not closed, with a stream that has
    an audio track, in an engine reached through the control surface: the
    context runs; the slot holds a channel on the given stream with volume
    0.8, not muted, not soloed, in group C, monitored exactly when it is a
    screen capture, its gain stage connected to the master bus alone; every
    other channel keeps its settings and its routing without a graph call;
    the previous occupant of the slot, if any, is released with no edge
    left and its tracks ended. *)
Theorem X5_addSource_installs_the_channel :
  forall (ctx : ContextState) (vd : VisualData) (ops : list Op)
         (slotId : Z) (st : MediaStream) (ty : SourceType),
    let e := run ops (constructor ctx vd) in
    let e' := addSource slotId st ty e in
    context_state e <> closed ->
    Host.getAudioTracks st <> [] ->
    context_state e' = running
    /\ (exists s, Registry.get slotId (sources e') = Some s
          /\ id s = slotId /\ stream s = st
          /\ volume s = 0.8 /\ muted s = false /\ solo s = false
          /\ monitoring s = match ty with screen => true | mic => false end
          /\ crossfadeGroup s = GroupC
          /\ _connectedBus s = Some masterBus
          /\ gainNode_out s = Host.connect Host.no_edges masterBus)
    /\ (forall k s, k <> slotId -> Registry.get k (sources e) = Some s ->
          exists s', Registry.get k (sources e') = Some s' /\ same_settings s s')
    /\ (forall old, Registry.get slotId (sources e) = Some old ->
          released e' = teardown old :: released e /\ torn_down (teardown old))
    /\ (Registry.get slotId (sources e) = None -> released e' = released e).
Proof.
  intros ctx vd ops slotId st ty e e' C T.
  destruct (addSource_success slotId st ty e C T) as (e0 & S0 & X0 & R0 & E & C0).
  fold e' in E.
  assert (F : Forall routed (sources e)) by (apply run_routed; constructor).
  rewrite List.Forall_forall in F.
  set (new := newSource slotId st ty) in *.
  set (l := Registry.set slotId new (sources e0)) in *.
  assert (Src : sources e' = map (mixSource (existsb solo l) (_crossfader e0)) l).
  { rewrite E. reflexivity. }
  assert (Rel : released e' = released e0) by (rewrite E; reflexivity).
  assert (Ctx : context_state e' = context_state e0) by (rewrite E; reflexivity).
  split; [now rewrite Ctx|].
  split; [|split; [|split]].
  - exists (mixSource (existsb solo l) (_crossfader e0) new).
    rewrite Src, get_map_mix. unfold l. rewrite get_set_eq by reflexivity.
    split; [reflexivity|].
    destruct (mixSource_fields (existsb solo (Registry.set slotId new (sources e0)))
                (_crossfader e0) new) as (F1 & F2 & F3 & F4 & F5 & F6 & _ & F8).
    rewrite F1, F2, F3, F4, F5, F6, F8.
    assert (Rt : routed (mixSource (existsb solo (Registry.set slotId new (sources e0)))
                           (_crossfader e0) new)).
    { apply mixSource_routed. exact I. }
    destruct Rt as [B O]. rewrite F6 in B, O.
    repeat split; assumption.
  - intros k s N G. exists (mixSource (existsb solo l) (_crossfader e0) s).
    rewrite Src, get_map_mix. unfold l.
    rewrite get_set_ne by (reflexivity || assumption).
    rewrite S0, get_delete_ne by assumption. rewrite G.
    split; [reflexivity|].
    apply mixSource_same_settings, F. now apply (get_In k).
  - intros old G. rewrite Rel, R0, G. split; [reflexivity|].
    apply teardown_torn_down, routed_routable, F. now apply (get_In slotId).
  - intro G. now rewrite Rel, R0, G.
Qed.

Lemma X5_witness :
  let e := run [OpAddSource 1 micStream mic] (constructor suspended emptyVisual) in
  context_state e <> closed
  /\ Host.getAudioTracks micStream <> []
  /\ context_state (addSource 1 micStream screen e) = running
  /\ released (addSource 1 micStream screen e)
     = [teardown (mixSource false 0 (newSource 1 micStream mic))].
Proof.
  intro e.
  assert (C : context_state e <> closed) by discriminate.
  assert (T : Host.getAudioTracks micStream <> []) by discriminate.
  destruct (X5_addSource_installs_the_channel suspended emptyVisual
              [OpAddSource 1 micStream mic] 1 micStream screen C T)
    as (R & _ & _ & O & _).
  split; [exact C|]. split; [exact T|]. split; [exact R|].
  apply (O (mixSource false 0 (newSource 1 micStream mic)) eq_refl).
Defined.

(** [addSource] on a closed context changes nothing. *)
Lemma addSource_closed (slotId : Z) (st : MediaStream) (ty : SourceType)
    (e : AudioEngine) :
  context_state e = closed -> addSource slotId st ty e = e.
Proof.
  intro C. unfold addSource, resume. now rewrite C.
Qed.

(** X6: [removeSource] does not recompute the mix.  When every soloed
    channel sits under the removed id, each remaining channel keeps the
    gain 0 the solo forced on it although no registered channel is soloed
    any more; for an unmuted channel whose volume times compensation is at
    least 0.001 the gain stage therefore no longer carries the gain of the
    stored state. *)
Theorem X6_removal_leaves_soloed_out_gains :
  forall (e : AudioEngine) (k : Z) (s : ExtendedAudioSource),
    mix_applied e ->
    In s (sources e) ->
    id s <> k ->
    (forall o, In o (sources e) -> solo o = true -> id o = k) ->
    (exists o, In o (sources e) /\ solo o = true) ->
    let e' := removeSource k e in
    In s (sources e')
    /\ gainNode_gain s == 0
    /\ existsb solo (sources e') = false
    /\ (muted s = false ->
        0.001 <= volume s * crossfadeCompensation (_crossfader e') (crossfadeGroup s) ->
        ~ floored_gain (sources e') (_crossfader e') s (gainNode_gain s)).
Proof.
  intros e k s M I N Only [o [Io So]] e'.
  assert (Ss : solo s = false).
  { destruct (solo s) eqn:X; [|reflexivity]. exfalso. apply N. now apply Only. }
  assert (Out : soloed_out (sources e) s).
  { split; [exact Ss|]. exists o. repeat split; try assumption.
    intros ->. congruence. }
  assert (G0 : gainNode_gain s == 0).
  { unfold mix_applied in M. rewrite List.Forall_forall in M.
    destruct (M s I) as [(Fm & Fs & _) _].
    destruct (muted s) eqn:Mu; [now apply Fm | now apply Fs]. }
  destruct (get_present k (sources e) o Io (Only o Io So)) as [old G].
  assert (Src : sources e' = Registry.delete k (sources e)).
  { unfold e', removeSource. now rewrite G. }
  assert (Cf : _crossfader e' = _crossfader e).
  { unfold e', removeSource. now rewrite G. }
  assert (NoSolo : forall x, In x (sources e') -> solo x = false).
  { intros x Ix. rewrite Src in Ix. unfold Registry.delete in Ix.
    apply filter_In in Ix. destruct Ix as [Ix Kx].
    destruct (solo x) eqn:X; [|reflexivity].
    rewrite (Only x Ix X), Z.eqb_refl in Kx. discriminate. }
  split; [|split; [exact G0|split]].
  - rewrite Src. unfold Registry.delete. apply filter_In. split; [exact I|].
    destruct (Z.eqb_spec (id s) k); [contradiction | reflexivity].
  - destruct (existsb solo (sources e')) eqn:X; [|reflexivity].
    apply existsb_exists in X. destruct X as [x [Ix Sx]].
    rewrite (NoSolo x Ix) in Sx. discriminate.
  - intros Mu V (_ & _ & Fv).
    assert (NotOut : ~ soloed_out (sources e') s).
    { intros [_ [x [Ix [_ Sx]]]]. rewrite (NoSolo x Ix) in Sx. discriminate. }
    destruct (Fv Mu NotOut) as [_ Hv]. specialize (Hv V). lra.
Qed.

Lemma X6_witness :
  let e := run [OpAddSource 1 micStream mic; OpAddSource 2 micStream mic;
                OpSetSolo 2 true] (constructor running emptyVisual) in
  let s := hd (newSource 1 micStream mic) (sources e) in
  mix_applied e
  /\ In s (sources e) /\ id s <> 2%Z
  /\ (forall o, In o (sources e) -> solo o = true -> id o = 2%Z)
  /\ (exists o, In o (sources e) /\ solo o = true)
  /\ In s (sources (removeSource 2 e))
  /\ gainNode_gain s == 0
  /\ ~ floored_gain (sources (removeSource 2 e))
         (_crossfader (removeSource 2 e)) s (gainNode_gain s).
Proof.
  intros e s.
  assert (M : mix_applied e).
  { apply carried_applied.
    - apply run_carried; [apply constructor_carried | reflexivity].
    - vm_compute.
      apply List.Forall_cons; [right; discriminate|].
      apply List.Forall_cons; [right; discriminate|].
      apply List.Forall_nil. }
  assert (I : In s (sources e)) by (vm_compute; left; reflexivity).
  assert (N : id s <> 2%Z) by (vm_compute; discriminate).
  assert (Only : forall o, In o (sources e) -> solo o = true -> id o = 2%Z).
  { intros o Io So. remember (sources e) as l eqn:L. vm_compute in L. subst l.
    destruct Io as [<-|[<-|[]]]; [discriminate So | reflexivity]. }
  assert (Ex : exists o, In o (sources e) /\ solo o = true).
  { exists (hd (newSource 1 micStream mic) (tl (sources e))).
    split; [vm_compute; right; left; reflexivity | vm_compute; reflexivity]. }
  destruct (X6_removal_leaves_soloed_out_gains e 2 s M I N Only Ex)
    as (A & B & _ & D).
  assert (Mu : muted s = false) by (vm_compute; reflexivity).
  assert (V : 0.001 <= volume s
                       * crossfadeCompensation (_crossfader (removeSource 2 e))
                           (crossfadeGroup s))
    by (vm_compute; discriminate).
  split; [exact M|]. split; [exact I|]. split; [exact N|]. split; [exact Only|].
  split; [exact Ex|]. split; [exact A|]. split; [exact B | exact (D Mu V)].
Defined.

Lemma filter_map_mix (a : bool) (c : Q) (g : CrossfadeGroup)
    (l : list ExtendedAudioSource) :
  List.filter (in_group g) (map (mixSource a c) l)
  = map (mixSource a c) (List.filter (in_group g) l).
Proof.
  induction l as [|s l IH]; [reflexivity|].
  cbn [map List.filter].
  assert (E : in_group g (mixSource a c s) = in_group g s).
  { unfold in_group.
    now destruct (mixSource_fields a c s) as (_ & _ & _ & _ & _ & -> & _). }
  rewrite E. destruct (in_group g s); cbn [map]; now rewrite IH.
Qed.

Lemma group_gains_setCrossfader (g : CrossfadeGroup) (x : Q) (e : AudioEngine) :
  group_gains g (setCrossfader x e)
  = map (fun s => gainNode_gain
                    (mixSource (existsb solo (sources e))
                       (Math_max (-1) (Math_min 1 x)) s))
        (List.filter (in_group g) (sources e)).
Proof.
  unfold group_gains, setCrossfader. rewrite updateMix_sources.
  cbn [sources _crossfader with_crossfader].
  now rewrite filter_map_mix, List.map_map.
Qed.

Lemma clamp_sign (x : Q) :
  let c := Math_max (-1) (Math_min 1 x) in
  (x <= 0 -> c <= 0) /\ (0 <= x -> 0 <= c) /\ (1 <= x -> c == 1)
  /\ (x <= -1 -> c == -1).
Proof.
  unfold Math_max, Math_min. case_ltb; repeat split; intros; lra.
Qed.

(** X7: what the crossfader reaches.  The gains of the group C channels do
    not depend on the crossfader at all; the gains of group A are the same
    for every position at or left of the centre, those of group B for every
    position at or right of it; a position of 1 or more puts gain 0 on
    every group A channel and a position of -1 or less on every group B
    channel. *)
Theorem X7_crossfader_reach :
  forall (e : AudioEngine) (x y : Q),
    group_gains GroupC (setCrossfader x e) = group_gains GroupC (setCrossfader y e)
    /\ (x <= 0 -> y <= 0 ->
        group_gains GroupA (setCrossfader x e) = group_gains GroupA (setCrossfader y e))
    /\ (0 <= x -> 0 <= y ->
        group_gains GroupB (setCrossfader x e) = group_gains GroupB (setCrossfader y e))
    /\ (1 <= x -> Forall (fun g => g = 0) (group_gains GroupA (setCrossfader x e)))
    /\ (x <= -1 -> Forall (fun g => g = 0) (group_gains GroupB (setCrossfader x e))).
Proof.
  intros e x y.
  rewrite !group_gains_setCrossfader.
  set (a := existsb solo (sources e)).
  pose proof (clamp_sign x) as (Xn & Xp & X1 & Xm1).
  pose proof (clamp_sign y) as (Yn & Yp & _ & _).
  set (cx := Math_max (-1) (Math_min 1 x)) in *.
  set (cy := Math_max (-1) (Math_min 1 y)) in *.
  assert (G : forall g s, In s (List.filter (in_group g) (sources e)) ->
                          crossfadeGroup s = g).
  { intros g s I. apply filter_In in I. destruct I as [_ I].
    unfold in_group in I. destruct (crossfadeGroup s), g; congruence. }
  split; [|split; [|split; [|split]]].
  - apply List.map_ext_in. intros s I. rewrite !mixSource_gain, (G _ _ I).
    reflexivity.
  - intros Hx Hy. apply List.map_ext_in. intros s I.
    rewrite !mixSource_gain, (G _ _ I).
    unfold held_product. cbn [crossfadeCompensation].
    specialize (Xn Hx). specialize (Yn Hy).
    pose proof (double_round_nonpos cx Xn) as Dx.
    pose proof (double_round_nonpos cy Yn) as Dy.
    apply ltb_false in Xn, Yn, Dx, Dy. now rewrite Xn, Yn, Dx, Dy.
  - intros Hx Hy. apply List.map_ext_in. intros s I.
    rewrite !mixSource_gain, (G _ _ I).
    unfold held_product. cbn [crossfadeCompensation].
    specialize (Xp Hx). specialize (Yp Hy).
    pose proof (double_round_nonneg cx Xp) as Dx.
    pose proof (double_round_nonneg cy Yp) as Dy.
    apply ltb_false in Xp, Yp, Dx, Dy. now rewrite Xp, Yp, Dx, Dy.
  - intro Hx. apply List.Forall_forall. intros g I.
    apply List.in_map_iff in I. destruct I as [s [<- I]].
    rewrite mixSource_gain, (G _ _ I). cbn [crossfadeCompensation].
    specialize (X1 Hx). cbv zeta.
    assert (P : 0 < cx) by lra. apply ltb_true in P. rewrite P.
    set (tg := if a && negb (solo s) then 0 else if muted s then 0 else volume s).
    assert (L : held_product tg cx GroupA < double_0001).
    { unfold held_product. cbn [crossfadeCompensation].
      assert (D : double_round cx == 1)
        by (rewrite (double_round_comp _ _ X1); exact double_round_1).
      assert (P' : 0 < double_round cx) by lra.
      apply ltb_true in P'. rewrite P'.
      rewrite (double_round_0 (1 - double_round cx)) by (rewrite D; ring).
      rewrite double_round_0 by ring. reflexivity. }
    apply ltb_true in L. now rewrite L.
  - intro Hx. apply List.Forall_forall. intros g I.
    apply List.in_map_iff in I. destruct I as [s [<- I]].
    rewrite mixSource_gain, (G _ _ I). cbn [crossfadeCompensation].
    specialize (Xm1 Hx). cbv zeta.
    assert (P : cx < 0) by lra. apply ltb_true in P. rewrite P.
    set (tg := if a && negb (solo s) then 0 else if muted s then 0 else volume s).
    assert (L : held_product tg cx GroupB < double_0001).
    { unfold held_product. cbn [crossfadeCompensation].
      assert (D : double_round cx == -1).
      { rewrite (double_round_comp _ _ Xm1).
        change (-1) with (- (1)). rewrite double_round_opp, double_round_1.
        reflexivity. }
      assert (P' : double_round cx < 0) by lra.
      apply ltb_true in P'. rewrite P'.
      rewrite (double_round_0 (1 + double_round cx)) by (rewrite D; ring).
      rewrite double_round_0 by ring. reflexivity. }
    apply ltb_true in L. now rewrite L.
Qed.

(** ** Further properties of the effects *)

Lemma removeSource_curve (k : Z) (e : AudioEngine) :
  distortion_curve (removeSource k e) = distortion_curve e.
Proof.
  unfold removeSource. now destruct (Registry.get k (sources e)).
Qed.

Lemma step_curve (e : AudioEngine) (o : Op) :
  (forall state, o <> OpUpdateFx state) ->
  distortion_curve (step e o) = distortion_curve e.
Proof.
  intro N. destruct o; cbn [step]; try reflexivity.
  - unfold resume. now destruct (context_state e).
  - unfold addSource. destruct (resume e) as [e'|] eqn:R; [|reflexivity].
    assert (C' : distortion_curve e' = distortion_curve e).
    { unfold resume in R. destruct (context_state e); inversion R; reflexivity. }
    assert (C'' : distortion_curve (if Registry.has slotId (sources e')
                                    then removeSource slotId e' else e')
                  = distortion_curve e).
    { destruct (Registry.has slotId (sources e'));
        [now rewrite removeSource_curve | exact C']. }
    destruct (Host.getAudioTracks st); exact C''.
  - apply removeSource_curve.
  - unfold setSourceVolume. now destruct (Registry.get k (sources e)).
  - unfold setMute. now destruct (Registry.get k (sources e)).
  - unfold setSolo. now destruct (Registry.get k (sources e)).
  - unfold setMonitoring. now destruct (Registry.get k (sources e)).
  - unfold setCrossfade. now destruct (Registry.get k (sources e)).
  - exfalso. now apply (N state).
  - unfold processMetrics. now destruct (context_state e).
  - unfold destroy.
    assert (G : forall l acc,
              distortion_curve (fold_left (fun a s => removeSource (id s) a) l acc)
              = distortion_curve acc).
    { induction l as [|s l IH]; cbn [fold_left]; intro acc; [reflexivity|].
      now rewrite IH, removeSource_curve. }
    now rewrite G.
Qed.

(** X8: the distortion curve is built once.  After an [updateFx] with a
    positive amount on an engine without a curve, the curve of that amount
    stays installed through every later call of the control surface, as
    long as no [updateFx] carries an amount that is not positive --
    whatever positive amounts the later [updateFx] calls carry. *)
Theorem X8_first_positive_amount_wins :
  forall (e : AudioEngine) (state : FxState) (ops : list Op),
    distortion_curve e = None ->
    0 < distortionAmount state ->
    forallb keeps_curve ops = true ->
    distortion_curve (run ops (updateFx state e))
    = Some (makeDistortionCurve (distortionAmount state)).
Proof.
  intros e state ops N P K.
  pose proof (updateFx_curve_from_bypass state e N P) as C.
  generalize dependent (updateFx state e). clear N.
  unfold run. induction ops as [|o ops IH]; cbn [fold_left]; intros e0 C.
  - exact C.
  - cbn [forallb] in K. apply andb_prop in K. destruct K as [Ko Kops].
    apply IH; [exact Kops|].
    destruct o; try (rewrite step_curve; [exact C | discriminate]).
    cbn [step]. apply updateFx_curve_kept; [exact C|].
    now apply ltb_true.
Qed.

Lemma X8_witness :
  let e := oneMic in
  let ops := [OpUpdateFx (defaultFx 80); OpSetCrossfader 0.3;
              OpUpdateFx (defaultFx 3); OpRemoveSource 1] in
  distortion_curve e = None
  /\ 0 < distortionAmount (defaultFx 10)
  /\ forallb keeps_curve ops = true
  /\ distortion_curve (run ops (updateFx (defaultFx 10) e))
     = Some (makeDistortionCurve 10).
Proof.
  intros e ops.
  assert (N : distortion_curve e = None) by reflexivity.
  assert (P : 0 < distortionAmount (defaultFx 10)) by reflexivity.
  assert (K : forallb keeps_curve ops = true) by reflexivity.
  split; [exact N|]. split; [exact P|]. split; [exact K|].
  exact (X8_first_positive_amount_wins e (defaultFx 10) ops N P K).
Defined.

Lemma curve_nth (amount : Q) (i : nat) :
  (i < 256)%nat ->
  nth i (makeDistortionCurve amount) 0
  = (let k := Math_max 0 amount in
     let x := (of_nat i * 2) / of_nat 256 - 1 in
     ((3 + k) * x * 20 * (Math_PI / 180)) / (Math_PI + k * Math_abs x)).
Proof.
  intro H. unfold makeDistortionCurve. cbv zeta.
  set (f := fun i0 : nat =>
              (3 + Math_max 0 amount) * (of_nat i0 * 2 / of_nat 256 - 1) * 20
              * (Math_PI / 180)
              / (Math_PI + Math_max 0 amount * Math_abs (of_nat i0 * 2 / of_nat 256 - 1))).
  rewrite (nth_indep _ 0 (f 0%nat)) by (rewrite length_map, length_seq; exact H).
  rewrite (map_nth f), seq_nth by exact H. reflexivity.
Qed.

Lemma Math_abs_spec (x : Q) :
  0 <= Math_abs x /\ (Math_abs x == x \/ Math_abs x == - x)
  /\ Math_abs (- x) == Math_abs x.
Proof.
  unfold Math_abs. case_ltb; repeat split; try lra; (left; lra) || (right; lra).
Qed.

Lemma Math_max_0_nonneg (a : Q) : 0 <= Math_max 0 a.
Proof. unfold Math_max. case_ltb; lra. Qed.

Lemma curve_position (i : nat) :
  (i < 256)%nat -> -1 <= (of_nat i * 2) / of_nat 256 - 1 <= 1.
Proof.
  intro H. unfold of_nat.
  assert (L : 0 <= inject_Z (Z.of_nat i)).
  { change 0 with (inject_Z 0). rewrite <- Zle_Qle. lia. }
  assert (U : inject_Z (Z.of_nat i) <= 256).
  { change 256 with (inject_Z 256). rewrite <- Zle_Qle. lia. }
  change (inject_Z (Z.of_nat 256)) with 256.
  set (n := inject_Z (Z.of_nat i)) in *.
  setoid_replace (n * 2 / 256 - 1) with (n * (1 # 128) - 1) using relation Qeq
    by field.
  lra.
Qed.

(** The shaping function: numerator over a positive denominator. *)
Lemma shape_bound (k x : Q) :
  0 <= k -> -1 <= x <= 1 ->
  0 < Math_PI + k * Math_abs x
  /\ - (7 # 20) <= ((3 + k) * x * 20 * (Math_PI / 180)) / (Math_PI + k * Math_abs x)
     <= 7 # 20.
Proof.
  intros Hk Hx.
  destruct (Math_abs_spec x) as (A0 & A & _).
  set (t := Math_abs x) in *.
  assert (T1 : t <= 1) by (destruct A; lra).
  assert (KT : 0 <= k * t) by now apply Qmult_le_0_compat.
  assert (P : 0 < Math_PI) by reflexivity.
  assert (D : 0 < Math_PI + k * t) by lra.
  split; [exact D|].
  assert (N : (3 + k) * x * 20 * (Math_PI / 180)
              == (Math_PI / 9) * (3 * x) + (Math_PI / 9) * (k * x)) by field.
  assert (C1 : Math_PI / 9 <= 7 # 20) by (vm_compute; discriminate).
  assert (C0 : 0 <= Math_PI / 9) by (vm_compute; discriminate).
  set (c := Math_PI / 9) in *.
  assert (KX : k * x == k * t \/ k * x == - (k * t)).
  { destruct A as [A|A]; [left | right]; rewrite A; ring. }
  assert (CKT : 0 <= c * (k * t) <= (7 # 20) * (k * t)).
  { split; [now apply Qmult_le_0_compat|].
    now apply Qmult_le_compat_r. }
  assert (CX : - ((7 # 20) * Math_PI) <= c * (3 * x) <= (7 # 20) * Math_PI).
  { unfold c. unfold Math_PI in *.
    setoid_replace ((884279719003555 # 281474976710656) / 9 * (3 * x))
      with ((884279719003555 # 281474976710656) * (1 # 3) * x)
      using relation Qeq by field.
    lra. }
  split.
  - apply Qle_shift_div_l; [exact D|]. rewrite N.
    destruct KX as [E|E]; rewrite E; lra.
  - apply Qle_shift_div_r; [exact D|]. rewrite N.
    destruct KX as [E|E]; rewrite E; lra.
Qed.

(** X9: the shape of the distortion curve, for every amount: 256 samples,
    each within [-0.35, 0.35]; the sample at index 128 (input 0) is 0 and
    the samples at 256 - i and i are opposite for 1 <= i <= 255, so the
    shaper has no offset; an amount that is not positive gives the curve
    of amount 0, whose sample for input x is x / 3. *)
Theorem X9_distortion_curve_shape :
  forall (amount : Q),
    length (makeDistortionCurve amount) = 256%nat
    /\ (forall i, (i < 256)%nat ->
          - (7 # 20) <= nth i (makeDistortionCurve amount) 0 <= 7 # 20)
    /\ nth 128 (makeDistortionCurve amount) 0 == 0
    /\ (forall i, (1 <= i <= 255)%nat ->
          nth (256 - i) (makeDistortionCurve amount) 0
          == - nth i (makeDistortionCurve amount) 0)
    /\ (amount <= 0 ->
        forall i, (i < 256)%nat ->
          nth i (makeDistortionCurve amount) 0
          == ((of_nat i * 2) / of_nat 256 - 1) / 3).
Proof.
  intro amount.
  pose proof (Math_max_0_nonneg amount) as K.
  split; [apply makeDistortionCurve_length|].
  split; [|split; [|split]].
  - intros i H. rewrite curve_nth by exact H. cbv zeta.
    apply shape_bound; [exact K | now apply curve_position].
  - rewrite curve_nth by lia. cbv zeta.
    setoid_replace (of_nat 128 * 2 / of_nat 256 - 1) with 0 using relation Qeq
      by reflexivity.
    change (Math_abs 0) with 0.
    destruct (shape_bound (Math_max 0 amount) 0 K) as [D _]; [lra|].
    change (Math_abs 0) with 0 in D.
    field. lra.
  - intros i H. rewrite !curve_nth by lia. cbv zeta.
    set (x := of_nat i * 2 / of_nat 256 - 1).
    assert (X : of_nat (256 - i) * 2 / of_nat 256 - 1 == - x).
    { unfold x, of_nat. rewrite Nat2Z.inj_sub by lia.
      unfold Z.sub. rewrite inject_Z_plus, inject_Z_opp.
      change (inject_Z (Z.of_nat 256)) with 256. field. }
    destruct (Math_abs_spec x) as (_ & _ & Ab).
    destruct (shape_bound (Math_max 0 amount) x K) as [D _].
    { apply curve_position. lia. }
    assert (AbX : Math_abs (of_nat (256 - i) * 2 / of_nat 256 - 1) == Math_abs x).
    { unfold Math_abs at 1. rewrite (ltb_comp _ (- x) 0 0 X (Qeq_refl 0)).
      fold (Math_abs (- x)). unfold Math_abs at 1.
      destruct (ltb (- x) 0) eqn:E.
      - rewrite X. setoid_replace (- - x) with x using relation Qeq by ring.
        apply ltb_true in E. unfold Math_abs. case_ltb; lra.
      - rewrite X. apply ltb_false in E. unfold Math_abs. case_ltb; lra. }
    rewrite AbX, X. field. lra.
  - intros Na i H. rewrite curve_nth by exact H. cbv zeta.
    assert (K0 : Math_max 0 amount = 0).
    { unfold Math_max. apply ltb_false in Na. now rewrite Na. }
    rewrite K0. unfold Math_PI. field.
    change (of_nat 256) with 256. discriminate.
Qed.

(** ** Telemetry *)

Lemma removeSource_visualData (k : Z) (e : AudioEngine) :
  visualData (removeSource k e) = visualData e.
Proof.
  unfold removeSource. now destruct (Registry.get k (sources e)).
Qed.

(** Only a metrics tick writes the telemetry record. *)
Lemma step_visualData (e : AudioEngine) (o : Op) :
  not_metrics o = true -> visualData (step e o) = visualData e.
Proof.
  intro N. destruct o; cbn [step]; try reflexivity.
  - unfold resume. now destruct (context_state e).
  - unfold addSource. destruct (resume e) as [e'|] eqn:R; [|reflexivity].
    assert (C' : visualData e' = visualData e).
    { unfold resume in R. destruct (context_state e); inversion R; reflexivity. }
    assert (C'' : visualData (if Registry.has slotId (sources e')
                              then removeSource slotId e' else e')
                  = visualData e).
    { destruct (Registry.has slotId (sources e'));
        [now rewrite removeSource_visualData | exact C']. }
    destruct (Host.getAudioTracks st); exact C''.
  - apply removeSource_visualData.
  - unfold setSourceVolume. now destruct (Registry.get k (sources e)).
  - unfold setMute. now destruct (Registry.get k (sources e)).
  - unfold setSolo. now destruct (Registry.get k (sources e)).
  - unfold setMonitoring. now destruct (Registry.get k (sources e)).
  - unfold setCrossfade. now destruct (Registry.get k (sources e)).
  - discriminate N.
  - unfold destroy.
    assert (G : forall l acc,
              visualData (fold_left (fun a s => removeSource (id s) a) l acc)
              = visualData acc).
    { induction l as [|s l IH]; cbn [fold_left]; intro acc; [reflexivity|].
      now rewrite IH, removeSource_visualData. }
    now rewrite G.
Qed.

Lemma updateBandEnergy_range (data : list byte) (target : SpectralBand) :
  band_in_range (updateBandEnergy data target).
Proof.
  unfold updateBandEnergy, band_in_range.
  destruct (Nat.eqb (length data) 0).
  - cbn [sb_bass sb_mid sb_high]. repeat split; lra.
  - cbv zeta. cbn [sb_bass sb_mid sb_high].
    destruct (band_values data) as (Vlo & Vmi & Vhi). cbv zeta in Vlo, Vmi, Vhi.
    rewrite Vlo, Vmi, Vhi.
    split; [apply bandMean_range|]. split; apply bandMean_range.
Qed.

Lemma getByteFrequencyData_length (data array : list byte) :
  length (getByteFrequencyData data array) = length array.
Proof.
  unfold getByteFrequencyData.
  rewrite length_app, length_firstn, length_skipn. lia.
Qed.

Lemma trunc_floor (x : Q) : 0 <= x -> trunc x = Qfloor x.
Proof.
  destruct x as [n d]. unfold Qle, trunc, Qfloor. cbn [Qnum Qden].
  intro H. apply Z.quot_div_nonneg; lia.
Qed.

(** The remainder of a number that is not negative lies in [0, m) and
    differs from the number by a whole multiple of [m]. *)
Lemma rem_range (x m : Q) :
  0 <= x -> 0 < m ->
  0 <= rem x m /\ rem x m < m
  /\ rem x m == x - m * inject_Z (Qfloor (x / m))
  /\ (0 <= Qfloor (x / m))%Z.
Proof.
  intros Hx Hm. unfold rem.
  assert (D : 0 <= x / m).
  { apply Qle_shift_div_l; [exact Hm | lra]. }
  rewrite (trunc_floor _ D).
  pose proof (Qfloor_le (x / m)) as Lo.
  pose proof (Qlt_floor (x / m)) as Hi.
  rewrite inject_Z_plus in Hi. change (inject_Z 1) with 1 in Hi.
  set (n := inject_Z (Qfloor (x / m))) in *.
  assert (E : x == m * (x / m)) by (field; lra).
  assert (L1 : m * n <= m * (x / m)) by (apply Qmult_le_l; assumption).
  assert (L2 : m * (x / m) < m * (n + 1)) by (apply Qmult_lt_l; assumption).
  split; [lra|]. split; [lra|]. split; [reflexivity|].
  change 0%Z with (Qfloor 0). now apply Qfloor_resp_le.
Qed.

Lemma sampleAt_square (buf : list byte) (i : nat) :
  0 <= sampleAt buf i * sampleAt buf i <= 1.
Proof.
  unfold sampleAt, INV_128.
  pose proof (of_byte_range (nth i buf x00)) as [L U].
  set (b := of_byte (nth i buf x00)) in *.
  assert (E : (b - 128) * (1 / 128) * ((b - 128) * (1 / 128))
              == 1 - (b * (256 - b)) * (1 # 16384)) by field.
  assert (E' : (b - 128) * (1 / 128) * ((b - 128) * (1 / 128))
               == ((b - 128) * (b - 128)) * (1 # 16384)) by field.
  split.
  - rewrite E'.
    assert (S : 0 <= (b - 128) * (b - 128)).
    { destruct (Qlt_le_dec b 128).
      - setoid_replace ((b - 128) * (b - 128)) with ((128 - b) * (128 - b))
          using relation Qeq by ring.
        apply Qmult_le_0_compat; lra.
      - apply Qmult_le_0_compat; lra. }
    lra.
  - rewrite E.
    assert (S : 0 <= b * (256 - b)) by (apply Qmult_le_0_compat; lra).
    lra.
Qed.

Lemma squares_range (buf : list byte) (l : list nat) :
  0 <= fold_right (fun i acc => sampleAt buf i * sampleAt buf i + acc) 0 l
    <= of_nat (length l).
Proof.
  unfold of_nat. induction l as [|i l IH].
  - cbn [fold_right length]. change (inject_Z (Z.of_nat 0)) with 0. lra.
  - cbn [fold_right length]. rewrite Nat2Z.inj_succ, <- Z.add_1_r, inject_Z_plus.
    pose proof (sampleAt_square buf i). change (inject_Z 1) with 1. lra.
Qed.

Lemma meanSquare_range (buf : list byte) : 0 <= meanSquare buf <= 1.
Proof.
  unfold meanSquare.
  pose proof (squares_range buf (seq 0 256)) as H.
  rewrite squares_sampleAt, length_seq in H. change (of_nat 256) with 256 in H.
  set (t := squares buf (seq 0 256)) in *.
  split.
  - apply Qle_shift_div_l; lra.
  - apply Qle_shift_div_r; lra.
Qed.

(** The raw peak of a window never exceeds 5: the RMS of samples in
    [-1, 1) is at most 1. *)
Lemma rawPeak_range (buf : list byte) : 0 <= rawPeak buf <= 5.
Proof.
  split; [apply rawPeak_nonneg|].
  rewrite rawPeak_rms.
  pose proof (meanSquare_range buf) as [L U].
  destruct (Math_sqrt_spec _ L) as [Sq _].
  pose proof (Math_sqrt_nonneg (meanSquare buf)) as N.
  set (r := Math_sqrt (meanSquare buf)) in *.
  destruct (Qlt_le_dec 1 r) as [G|G]; [|lra].
  exfalso.
  assert (P : r * 1 < r * r) by (apply Qmult_lt_l; lra).
  lra.
Qed.

Lemma peakStep_range (p : HostProbes) (acc : gmap Z Q * list byte)
    (s : ExtendedAudioSource) :
  (forall k v, fst acc !! k = Some v -> 0 <= v <= 5) ->
  forall k v, fst (peakStep p acc s) !! k = Some v -> 0 <= v <= 5.
Proof.
  intros H k v. unfold peakStep. destruct (active s); [|apply H].
  cbn [fst].
  set (buf := getByteTimeDomainData (analyser_fftSize s)
                (timeDomainData p (id s)) (snd acc)).
  destruct (decide (id s = k)) as [E|N].
  - rewrite E, lookup_insert_eq. intro X. inversion X; subst v; clear X.
    pose proof (rawPeak_range buf) as [L U].
    assert (Pv : 0 <= default 0 (fst acc !! k) <= 5).
    { destruct (fst acc !! k) as [v0|] eqn:X; cbn [default]; [now apply (H k)|lra]. }
    unfold Math_max. case_ltb; lra.
  - rewrite lookup_insert_ne by exact N. apply H.
Qed.

Lemma peak_fold_range (p : HostProbes) (l : list ExtendedAudioSource)
    (acc : gmap Z Q * list byte) :
  (forall k v, fst acc !! k = Some v -> 0 <= v <= 5) ->
  forall k v, fst (fold_left (peakStep p) l acc) !! k = Some v -> 0 <= v <= 5.
Proof.
  revert acc. induction l as [|s l IH]; intros acc H; [exact H|].
  cbn [fold_left]. apply IH. now apply peakStep_range.
Qed.

Lemma processMetrics_visualData (p : HostProbes) (e : AudioEngine) :
  context_state e = running ->
  let vd := visualData e in
  let data := getByteFrequencyData (masterFrequencyData p) (raw vd) in
  let L := length data in
  let bBins := floorBins L double_006 in
  let mBins := floorBins L double_035 in
  let bass' := (sumRange data 0 bBins / Math_max 1 (of_nat bBins)) * INV_255 in
  visualData (processMetrics p e)
  = mkVisual bass'
      ((sumRange data bBins (bBins + mBins) / Math_max 1 (of_nat mBins)) * INV_255)
      ((sumRange data (bBins + mBins) L
        / Math_max 1 (of_nat L - of_nat bBins - of_nat mBins)) * INV_255)
      (rem (hue vd + 0.15 + bass' * 2.5) 360)
      data
      (fst (fold_left (peakStep p) (sources e) (peakLevels vd, _rmsBuffer e)))
      (updateBandEnergy (tempArrayA p) (groupA vd))
      (updateBandEnergy (tempArrayB p) (groupB vd)).
Proof.
  intro R. unfold processMetrics. rewrite R. cbv zeta.
  destruct e; reflexivity.
Qed.

Lemma processMetrics_range (p : HostProbes) (e : AudioEngine) :
  telemetry_in_range (visualData e) ->
  telemetry_in_range (visualData (processMetrics p e))
  /\ length (raw (visualData (processMetrics p e))) = length (raw (visualData e)).
Proof.
  intro T.
  destruct (context_state e) eqn:R.
  - unfold processMetrics. rewrite R. split; [exact T | reflexivity].
  - rewrite (processMetrics_visualData p e R). cbv zeta.
    cbn [raw]. split; [|apply getByteFrequencyData_length].
    destruct T as (_ & _ & _ & H0 & H1 & _ & _ & P).
    set (data := getByteFrequencyData (masterFrequencyData p) (raw (visualData e))).
    destruct (band_values data) as (Vlo & Vmi & Vhi). cbv zeta in Vlo, Vmi, Vhi.
    unfold telemetry_in_range.
    cbn [bass mid high hue groupA groupB peakLevels].
    set (b := sumRange data 0 (floorBins (length data) double_006)
              / Math_max 1 (of_nat (floorBins (length data) double_006)) * INV_255) in *.
    pose proof (bandMean_range (firstn (floorBins (length data) double_006) data)) as Bb.
    rewrite <- Vlo in Bb.
    split; [exact Bb|].
    split; [rewrite Vmi; apply bandMean_range|].
    split; [rewrite Vhi; apply bandMean_range|].
    assert (X : 0 <= hue (visualData e) + 0.15 + b * 2.5) by lra.
    destruct (rem_range _ 360 X) as (Lo & Hi & _); [reflexivity|].
    split; [exact Lo|]. split; [exact Hi|].
    split; [apply updateBandEnergy_range|].
    split; [apply updateBandEnergy_range|].
    now apply peak_fold_range.
  - unfold processMetrics. rewrite R. split; [exact T | reflexivity].
Qed.

Lemma step_telemetry (e : AudioEngine) (o : Op) :
  telemetry_in_range (visualData e) ->
  telemetry_in_range (visualData (step e o))
  /\ length (raw (visualData (step e o))) = length (raw (visualData e)).
Proof.
  intro T. destruct (not_metrics o) eqn:N.
  - rewrite (step_visualData e o N). split; [exact T | reflexivity].
  - destruct o; try discriminate N. cbn [step]. now apply processMetrics_range.
Qed.

(** X10: telemetry that starts in range stays in range through every
    sequence of calls, whatever the analysers deliver: the band energies of
    the master bus and of both crossfade buses in [0, 1] (0 for an empty
    spectrum), the hue in [0, 360), every recorded peak level in [0, 5];
    the spectrum array keeps its length. *)
Theorem X10_telemetry_stays_in_range :
  forall (e : AudioEngine) (ops : list Op),
    telemetry_in_range (visualData e) ->
    telemetry_in_range (visualData (run ops e))
    /\ length (raw (visualData (run ops e))) = length (raw (visualData e)).
Proof.
  intros e ops. revert e. unfold run.
  induction ops as [|o ops IH]; cbn [fold_left]; intros e T.
  - split; [exact T | reflexivity].
  - destruct (step_telemetry e o T) as [T' L'].
    destruct (IH _ T') as [T'' L'']. split; [exact T''|]. now rewrite L''.
Qed.

Lemma emptyVisual_in_range : telemetry_in_range emptyVisual.
Proof.
  unfold telemetry_in_range, band_in_range, emptyVisual.
  cbn [bass mid high hue groupA groupB peakLevels sb_bass sb_mid sb_high].
  repeat split; try lra.
  - rewrite lookup_empty in H. discriminate H.
  - rewrite lookup_empty in H. discriminate H.
Qed.

Lemma X10_witness :
  telemetry_in_range (visualData oneMic)
  /\ telemetry_in_range
       (visualData (run [OpProcessMetrics silentProbes; OpSetCrossfader 1]
                        oneMic)).
Proof.
  assert (T : telemetry_in_range (visualData oneMic)) by exact emptyVisual_in_range.
  split; [exact T|].
  apply (X10_telemetry_stays_in_range oneMic
           [OpProcessMetrics silentProbes; OpSetCrossfader 1] T).
Defined.

(** X11: on a tick of a running engine whose hue is in [0, 360), the hue
    advances by 0.15 + 2.5 * bass, a step between 0.15 and 2.65, and wraps
    around 360 at most once: the new hue is the old one plus the step, or
    that minus 360. *)
Theorem X11_hue_advances_and_wraps :
  forall (p : HostProbes) (e : AudioEngine),
    context_state e = running ->
    0 <= hue (visualData e) -> hue (visualData e) < 360 ->
    let d := 0.15 + bass (visualData (processMetrics p e)) * 2.5 in
    let hue' := hue (visualData (processMetrics p e)) in
    0.15 <= d <= 2.65
    /\ (hue' == hue (visualData e) + d \/ hue' == hue (visualData e) + d - 360)
    /\ 0 <= hue' /\ hue' < 360.
Proof.
  intros p e R H0 H1.
  rewrite (processMetrics_visualData p e R). cbv zeta. cbn [bass hue].
  set (data := getByteFrequencyData (masterFrequencyData p) (raw (visualData e))).
  destruct (band_values data) as (Vlo & _). cbv zeta in Vlo.
  pose proof (bandMean_range (firstn (floorBins (length data) double_006) data)) as Bb.
  rewrite <- Vlo in Bb.
  set (b := sumRange data 0 (floorBins (length data) double_006)
            / Math_max 1 (of_nat (floorBins (length data) double_006)) * INV_255) in *.
  assert (X : 0 <= hue (visualData e) + 0.15 + b * 2.5) by lra.
  destruct (rem_range _ 360 X) as (Lo & Hi & E & N); [reflexivity|].
  split; [lra|]. split; [|split; assumption].
  set (n := Qfloor ((hue (visualData e) + 0.15 + b * 2.5) / 360)) in *.
  assert (U : inject_Z n < inject_Z 2).
  { change (inject_Z 2) with 2. lra. }
  rewrite <- Zlt_Qlt in U.
  assert (C : n = 0%Z \/ n = 1%Z) by lia.
  destruct C as [C|C]; rewrite C in E.
  - left. rewrite E. change (inject_Z 0) with 0. ring.
  - right. rewrite E. change (inject_Z 1) with 1. ring.
Qed.

Lemma X11_witness :
  context_state oneMic = running
  /\ hue (visualData (processMetrics silentProbes oneMic)) < 360.
Proof.
  assert (R : context_state oneMic = running) by reflexivity.
  assert (H0 : 0 <= hue (visualData oneMic)) by (vm_compute; discriminate).
  assert (H1 : hue (visualData oneMic) < 360) by reflexivity.
  split; [exact R|].
  apply (X11_hue_advances_and_wraps silentProbes oneMic R H0 H1).
Defined.

(** The ids of the registry after a call that does not add [k]. *)
Lemma step_ids (e : AudioEngine) (o : Op) (k : Z) :
  not_adding k o = true ->
  ~ In k (map id (sources e)) -> ~ In k (map id (sources (step e o))).
Proof.
  assert (Del : forall j a, ~ In k (map id (sources a)) ->
                            ~ In k (map id (sources (removeSource j a)))).
  { intros j a Na I. apply Na. unfold removeSource in I.
    destruct (Registry.get j (sources a)); [|exact I].
    cbn [sources] in I. apply List.in_map_iff in I. destruct I as [s [E I]].
    apply List.in_map_iff. exists s. split; [exact E|].
    now apply In_delete in I. }
  assert (Upd : forall j f, (forall x, id (f x) = id x) ->
                  ~ In k (map id (sources e)) ->
                  ~ In k (map id (sources
                       (updateMix (with_sources e (Registry.update j f (sources e))))))).
  { intros j f Hf Na. rewrite updateMix_sources, ids_mix.
    cbn [sources with_sources]. now rewrite ids_update. }
  intros Ad Na. destruct o; cbn [step]; try exact Na.
  - destruct (resume e) as [e'|] eqn:R; [|exact Na].
    now rewrite (resume_sources _ _ R).
  - cbn [not_adding] in Ad. apply negb_true_iff in Ad. apply Z.eqb_neq in Ad.
    unfold addSource. destruct (resume e) as [e'|] eqn:R; [|exact Na].
    assert (Na' : ~ In k (map id (sources e')))
      by now rewrite (resume_sources _ _ R).
    assert (Na'' : ~ In k (map id (sources (if Registry.has slotId (sources e')
                                            then removeSource slotId e' else e')))).
    { destruct (Registry.has slotId (sources e')); [now apply Del | exact Na']. }
    destruct (Host.getAudioTracks st); [exact Na''|].
    rewrite updateMix_sources, ids_mix. cbn [sources with_sources].
    intro I. apply List.in_map_iff in I. destruct I as [s [E I]].
    destruct (In_set _ _ _ _ I) as [->|I'].
    + now apply Ad.
    + apply Na''. rewrite <- E. now apply List.in_map.
  - now apply Del.
  - unfold setSourceVolume. destruct (Registry.get k0 (sources e)); [|exact Na].
    now apply Upd.
  - unfold setMute. destruct (Registry.get k0 (sources e)); [|exact Na].
    now apply Upd.
  - unfold setSolo. destruct (Registry.get k0 (sources e)); [|exact Na].
    now apply Upd.
  - unfold setMonitoring. destruct (Registry.get k0 (sources e)); [|exact Na].
    now apply Upd.
  - unfold setCrossfade. destruct (Registry.get k0 (sources e)); [|exact Na].
    now apply Upd.
  - unfold setCrossfader. now rewrite updateMix_sources, ids_mix.
  - now rewrite processMetrics_sources.
  - unfold destroy.
    assert (G : forall l acc, ~ In k (map id (sources acc)) ->
              ~ In k (map id (sources
                   (fold_left (fun a s => removeSource (id s) a) l acc)))).
    { induction l as [|s l IH]; cbn [fold_left]; intros acc Ha; [exact Ha|].
      apply IH, Del, Ha. }
    apply G. exact Na.
Qed.

Lemma step_level_frozen (e : AudioEngine) (o : Op) (k : Z) :
  ~ In k (map id (sources e)) ->
  peakLevels (visualData (step e o)) !! k = peakLevels (visualData e) !! k.
Proof.
  intro Na. destruct (not_metrics o) eqn:N.
  - now rewrite (step_visualData e o N).
  - destruct o; try discriminate N. cbn [step].
    destruct (context_state e) eqn:R.
    + unfold processMetrics. now rewrite R.
    + destruct (processMetrics_running p e R) as (_ & _ & L & _).
      rewrite L, peak_fold_other by exact Na. reflexivity.
    + unfold processMetrics. now rewrite R.
Qed.

Lemma run_level_frozen (e : AudioEngine) (ops : list Op) (k : Z) :
  ~ In k (map id (sources e)) ->
  forallb (not_adding k) ops = true ->
  ~ In k (map id (sources (run ops e)))
  /\ peakLevels (visualData (run ops e)) !! k = peakLevels (visualData e) !! k.
Proof.
  revert e. unfold run.
  induction ops as [|o ops IH]; cbn [fold_left forallb]; intros e Na F.
  - split; [exact Na | reflexivity].
  - apply andb_prop in F. destruct F as [Fo Fops].
    destruct (IH (step e o) (step_ids e o k Fo Na) Fops) as [I1 I2].
    split; [exact I1|]. now rewrite I2, step_level_frozen.
Qed.

(** X12: the peak level on record for an id that is not registered is left
    as it is by every call, as long as no channel is added under that id.
    In particular [removeSource] does not clear the level of the channel it
    removes: the last value stays on record through every later tick. *)
Theorem X12_unregistered_level_is_frozen :
  forall (e : AudioEngine) (k : Z) (ops : list Op),
    forallb (not_adding k) ops = true ->
    (Registry.get k (sources e) = None ->
     Registry.get k (sources (run ops e)) = None
     /\ peakLevels (visualData (run ops e)) !! k
        = peakLevels (visualData e) !! k)
    /\ peakLevels (visualData (run ops (removeSource k e))) !! k
       = peakLevels (visualData e) !! k.
Proof.
  intros e k ops F. split.
  - intro G. apply get_None in G.
    destruct (run_level_frozen e ops k G F) as [I1 I2].
    split; [now apply get_None | exact I2].
  - assert (G : ~ In k (map id (sources (removeSource k e)))).
    { apply get_None. unfold removeSource.
      destruct (Registry.get k (sources e)) eqn:E; [|exact E].
      cbn [sources]. apply get_delete. }
    destruct (run_level_frozen _ ops k G F) as [_ I2].
    now rewrite I2, removeSource_visualData.
Qed.

Lemma X12_witness :
  let e := processMetrics (mkProbes [] [] [] (fun _ => repeat xff 256)) oneMic in
  let ops := [OpProcessMetrics silentProbes; OpSetCrossfader 1;
              OpProcessMetrics silentProbes] in
  forallb (not_adding 1) ops = true
  /\ peakLevels (visualData (run ops (removeSource 1 e))) !! 1%Z
     = peakLevels (visualData e) !! 1%Z.
Proof.
  intros e ops.
  assert (F : forallb (not_adding 1) ops = true) by reflexivity.
  split; [exact F|].
  apply (X12_unregistered_level_is_frozen e 1 ops F).
Defined.

(** * PermissionManager *)

Lemma handleError_lookup (t t' : Permission.PermissionType) (name : string)
    (m : Permission.Statuses) :
  Permission.handleError t name m !! t'
  = if decide (t = t')
    then Some (if Permission.refusal name then Permission.denied
               else Permission.error)
    else m !! t'.
Proof.
  unfold Permission.handleError, Permission.refusal.
  destruct (String.eqb name "NotAllowedError"
            || String.eqb name "PermissionDeniedError");
    destruct (decide (t = t')) as [->|N];
    (rewrite lookup_insert_eq; reflexivity)
    || (rewrite lookup_insert_ne by exact N; reflexivity).
Qed.

(** A request writes the entry of its own permission and no other. *)
Lemma step_other (m : Permission.Statuses) (r : Permission.Request)
    (t : Permission.PermissionType) :
  t <> Permission.subject r -> Permission.step m r !! t = m !! t.
Proof.
  intro N.
  destruct r as [deviceId first fallback | out | out | baudRate supported out];
    cbn [Permission.step Permission.subject] in *.
  - unfold Permission.requestMicrophone.
    destruct first as [stream|name]; cbn [fst].
    + now rewrite lookup_insert_ne by congruence.
    + destruct (Permission.truthy deviceId
                && (String.eqb name "OverconstrainedError"
                    || String.eqb name "NotFoundError")).
      * destruct fallback as [fs|fe]; cbn [fst].
        -- now rewrite lookup_insert_ne by congruence.
        -- rewrite handleError_lookup. destruct (decide _); congruence.
      * cbn [fst]. rewrite handleError_lookup. destruct (decide _); congruence.
  - unfold Permission.requestCamera. destruct out as [stream|name]; cbn [fst].
    + now rewrite lookup_insert_ne by congruence.
    + rewrite handleError_lookup. destruct (decide _); congruence.
  - unfold Permission.requestScreen. destruct out as [stream|name]; cbn [fst];
      now rewrite lookup_insert_ne by congruence.
  - unfold Permission.requestSerial. destruct supported.
    + destruct out as [u|name]; cbn [fst].
      * now rewrite lookup_insert_ne by congruence.
      * rewrite handleError_lookup. destruct (decide _); congruence.
    + cbn [fst]. now rewrite lookup_insert_ne by congruence.
Qed.

Lemma step_own (m : Permission.Statuses) (r : Permission.Request) :
  exists st, Permission.step m r !! Permission.subject r = Some st
             /\ (Permission.subject r = Permission.screen ->
                 st = Permission.prompt \/ st = Permission.granted).
Proof.
  destruct r as [deviceId first fallback | out | out | baudRate supported out];
    cbn [Permission.step Permission.subject].
  - unfold Permission.requestMicrophone.
    destruct first as [stream|name]; cbn [fst].
    + rewrite lookup_insert_eq. eexists. split; [reflexivity | discriminate].
    + destruct (Permission.truthy deviceId
                && (String.eqb name "OverconstrainedError"
                    || String.eqb name "NotFoundError")).
      * destruct fallback as [fs|fe]; cbn [fst].
        -- rewrite lookup_insert_eq. eexists. split; [reflexivity | discriminate].
        -- rewrite handleError_lookup. destruct (decide _); [|congruence].
           eexists. split; [reflexivity | discriminate].
      * cbn [fst]. rewrite handleError_lookup. destruct (decide _); [|congruence].
        eexists. split; [reflexivity | discriminate].
  - unfold Permission.requestCamera. destruct out as [stream|name]; cbn [fst].
    + rewrite lookup_insert_eq. eexists. split; [reflexivity | discriminate].
    + rewrite handleError_lookup. destruct (decide _); [|congruence].
      eexists. split; [reflexivity | discriminate].
  - unfold Permission.requestScreen. destruct out as [stream|name]; cbn [fst];
      rewrite lookup_insert_eq; eexists; (split; [reflexivity|]); intros _;
      [now right | now left].
  - unfold Permission.requestSerial. destruct supported.
    + destruct out as [u|name]; cbn [fst].
      * rewrite lookup_insert_eq. eexists. split; [reflexivity | discriminate].
      * rewrite handleError_lookup. destruct (decide _); [|congruence].
        eexists. split; [reflexivity | discriminate].
    + cbn [fst]. rewrite lookup_insert_eq. eexists.
      split; [reflexivity | discriminate].
Qed.

(** X13: whatever requests are made and however the host answers them, the
    status map keeps an entry for each of the four permissions, so
    [getStatus] reads a stored status and never its own default; and the
    status of the screen permission is never 'denied' nor 'error': it is
    'prompt' or 'granted'. *)
Theorem X13_permission_statuses_invariant :
  forall (rs : list Permission.Request),
    let m := Permission.run rs Permission.constructor in
    (forall t, m !! t = Some (Permission.getStatus t m))
    /\ (Permission.getStatus Permission.screen m = Permission.prompt
        \/ Permission.getStatus Permission.screen m = Permission.granted).
Proof.
  intro rs.
  assert (G : forall m0,
            (forall t, exists st, m0 !! t = Some st) ->
            (m0 !! Permission.screen = Some Permission.prompt
             \/ m0 !! Permission.screen = Some Permission.granted) ->
            let m := Permission.run rs m0 in
            (forall t, exists st, m !! t = Some st)
            /\ (m !! Permission.screen = Some Permission.prompt
                \/ m !! Permission.screen = Some Permission.granted)).
  { unfold Permission.run. induction rs as [|r rs IH]; cbn [fold_left];
      intros m0 K S; [split; assumption|].
    apply IH.
    - intro t. destruct (decide (t = Permission.subject r)) as [->|N].
      + destruct (step_own m0 r) as [st [E _]]. now exists st.
      + rewrite step_other by exact N. apply K.
    - destruct (decide (Permission.screen = Permission.subject r)) as [E|N].
      + destruct (step_own m0 r) as [st [L P]]. rewrite <- E in L.
        rewrite L. destruct (P (eq_sym E)) as [->| ->]; [now left | now right].
      + rewrite step_other by exact N. exact S. }
  destruct (G Permission.constructor) as [K S].
  - intro t. destruct t; eexists; reflexivity.
  - left. reflexivity.
  - cbv zeta. split.
    + intro t. destruct (K t) as [st E]. unfold Permission.getStatus.
      now rewrite E.
    + unfold Permission.getStatus.
      destruct S as [-> | ->]; [now left | now right].
Qed.

(** X14: [requestMicrophone] resolves exactly when it leaves the
    microphone status 'granted', and to the stream of the last
    [getUserMedia] made; with a device id that is given and not empty, a
    first failure named OverconstrainedError or NotFoundError is not
    reported at all: status and result are those of a request for the
    default input answered by the fallback outcome.  Without such an id, or
    on any other error name, the fallback is not consulted.  A rejection
    leaves 'denied' for the two refusal names and 'error' otherwise. *)
Theorem X14_microphone_request_outcomes :
  forall (deviceId : option string) (first fallback : Permission.Outcome MediaStream)
         (m : Permission.Statuses),
    let r := Permission.requestMicrophone deviceId first fallback m in
    (Permission.resolved (snd r) = true
     <-> Permission.getStatus Permission.microphone (fst r) = Permission.granted)
    /\ (forall name,
          snd r = Permission.Rejected name ->
          Permission.getStatus Permission.microphone (fst r)
          = if Permission.refusal name then Permission.denied
            else Permission.error)
    /\ (forall name,
          Permission.truthy deviceId = true ->
          first = Permission.Rejected name ->
          String.eqb name "OverconstrainedError" || String.eqb name "NotFoundError"
          = true ->
          r = Permission.requestMicrophone None fallback fallback m)
    /\ (forall name,
          first = Permission.Rejected name ->
          Permission.truthy deviceId = false
          \/ String.eqb name "OverconstrainedError" || String.eqb name "NotFoundError"
             = false ->
          forall other,
            r = Permission.requestMicrophone deviceId first other m
            /\ snd r = Permission.Rejected name).
Proof.
  intros deviceId first fallback m.
  assert (HE : forall name,
            Permission.getStatus Permission.microphone
              (Permission.handleError Permission.microphone name m)
            = if Permission.refusal name then Permission.denied
              else Permission.error).
  { intro name. unfold Permission.getStatus. rewrite handleError_lookup.
    destruct (decide _); [reflexivity | congruence]. }
  assert (HG : Permission.getStatus Permission.microphone
                 (<[Permission.microphone := Permission.granted]> m)
               = Permission.granted).
  { unfold Permission.getStatus. now rewrite lookup_insert_eq. }
  cbv zeta. unfold Permission.requestMicrophone.
  split; [|split; [|split]].
  - destruct first as [stream|name]; cbn [fst snd Permission.resolved].
    + rewrite HG. tauto.
    + destruct (Permission.truthy deviceId && _).
      * destruct fallback as [fs|fe]; cbn [fst snd Permission.resolved].
        -- rewrite HG. tauto.
        -- rewrite HE. destruct (Permission.refusal fe);
             split; discriminate.
      * cbn [fst snd Permission.resolved]. rewrite HE.
        destruct (Permission.refusal name); split; discriminate.
  - intros name0. destruct first as [stream|name]; cbn [fst snd]; [discriminate|].
    destruct (Permission.truthy deviceId && _).
    + destruct fallback as [fs|fe]; cbn [fst snd]; [discriminate|].
      intro E. inversion E; subst. apply HE.
    + cbn [fst snd]. intro E. inversion E; subst. apply HE.
  - intros name T -> N. rewrite T, N. cbn [andb Permission.truthy].
    destruct fallback as [fs|fe]; reflexivity.
  - intros name -> C other.
    assert (B : Permission.truthy deviceId
                && (String.eqb name "OverconstrainedError"
                    || String.eqb name "NotFoundError") = false).
    { destruct C as [-> | ->]; [reflexivity | apply andb_false_r]. }
    rewrite B. split; reflexivity.
Qed.

Lemma X7_witness :
  1 <= 1
  /\ Forall (fun g => g = 0)
       (group_gains GroupA (setCrossfader 1 (setCrossfade 1 GroupA oneMic))).
Proof.
  assert (H : 1 <= 1) by (vm_compute; discriminate).
  split; [exact H|].
  destruct (X7_crossfader_reach (setCrossfade 1 GroupA oneMic) 1 0)
    as (_ & _ & _ & A & _).
  exact (A H).
Defined.

Lemma X14_witness :
  let r := Permission.requestMicrophone (Some "usb-mic"%string)
             (Permission.Rejected "NotFoundError") (Permission.Resolved micStream)
             Permission.constructor in
  snd r = Permission.Resolved micStream
  /\ Permission.getStatus Permission.microphone (fst r) = Permission.granted.
Proof.
  intro r.
  destruct (X14_microphone_request_outcomes (Some "usb-mic"%string)
              (Permission.Rejected "NotFoundError")
              (Permission.Resolved micStream) Permission.constructor)
    as (G & _ & _ & _).
  fold r in G.
  assert (S : snd r = Permission.Resolved micStream) by reflexivity.
  split; [exact S|].
  apply G. rewrite S. reflexivity.
Defined.


(** * WebSocketService *)

Ltac ws_unfold :=
  cbv beta iota zeta delta
    [WebSocket.step WebSocket.connect WebSocket.disconnect
     WebSocket.send WebSocket.onTimeout WebSocket.onopen
     WebSocket.handleMessage WebSocket.handleDisconnect WebSocket.onerror
     WebSocket.heartbeat WebSocket.scheduleReconnect WebSocket.close_ws
     WebSocket.emit WebSocket.stopHeartbeat WebSocket.startHeartbeat
     WebSocket.clearReconnectTimer WebSocket.with_state
     WebSocket.with_isConnected WebSocket.with_isConnecting
     WebSocket.with_reconnectAttempts
     WebSocket.state WebSocket.emitted WebSocket.isConnected
     WebSocket.isConnecting WebSocket.reconnectAttempts WebSocket.ws
     WebSocket.lastPing WebSocket.latency WebSocket.reconnectTimer
     WebSocket.heartbeatTimer WebSocket.socket_calls WebSocket.sockets
     WebSocket.MAX_RECONNECT_ATTEMPTS WebSocket.RECONNECT_DELAY_BASE
     fst snd orb andb negb].

Ltac ws_cases :=
  repeat match goal with
         | |- context [if ?b then _ else _] => destruct b eqn:?
         | |- context [match ?o with Some _ => _ | None => _ end] =>
             destruct o eqn:?
         end;
  repeat match goal with
         | H : ?x = true |- _ => is_var x; subst x
         | H : ?x = false |- _ => is_var x; subst x
         end.

Ltac ws_premise :=
  repeat match goal with
         | H : true = true -> _ |- _ => destruct (H eq_refl); clear H; subst
         | H : false = true -> _ |- _ => clear H
         end.

(** Every call and every callback keeps the invariant. *)
Lemma ws_step_invariant (s : WebSocket.Service) (ev : WebSocket.Event) :
  WebSocket.reconnect_invariant s ->
  WebSocket.reconnect_invariant (WebSocket.step s ev).
Proof.
  destruct s as [w rt hb [c cg lp lt ra] em sc n].
  unfold WebSocket.reconnect_invariant.
  cbn [WebSocket.state WebSocket.emitted WebSocket.isConnected
       WebSocket.isConnecting WebSocket.reconnectAttempts].
  intros (A & B & C & D).
  destruct ev; ws_unfold.
  all: ws_cases.
  all: cbn [forallb WebSocket.first_attempt] in *.
  all: unfold WebSocket.opens, WebSocket.reconnects in *;
    cbn [List.filter length] in *.
  all: try (destruct c; [|cbn in *; discriminate]).
  all: ws_premise.
  all: repeat (split || intro).
  all: try discriminate; try assumption; try lia;
    try (cbn; rewrite C; reflexivity).
Qed.

Lemma ws_run_invariant (evs : list WebSocket.Event) (s : WebSocket.Service) :
  WebSocket.reconnect_invariant s ->
  WebSocket.reconnect_invariant (WebSocket.run evs s).
Proof.
  revert s. unfold WebSocket.run.
  induction evs as [|ev evs IH]; cbn [fold_left]; intros s I; [exact I|].
  apply IH, ws_step_invariant, I.
Qed.

(** X15: for every sequence of client calls and host callbacks from the
    fresh service: the retry counter is 0 or 1, and 0 while connected; the
    service is never connected and connecting at once; every 'reconnecting'
    notification of [scheduleReconnect] announces attempt 1 of 10 after
    1000 ms; the report that the attempts are used up is never emitted; and
    there are never more 'reconnecting' notifications than 'connected'
    ones. *)
Theorem X15_reconnect_is_a_first_attempt :
  forall (evs : list WebSocket.Event),
    let s := WebSocket.run evs WebSocket.constructor in
    (0 <= WebSocket.reconnectAttempts (WebSocket.state s) <= 1)%Z
    /\ (WebSocket.isConnected (WebSocket.state s) = true ->
        WebSocket.reconnectAttempts (WebSocket.state s) = 0%Z
        /\ WebSocket.isConnecting (WebSocket.state s) = false)
    /\ (forall attempt maxAttempts delay,
          In (WebSocket.EmitReconnecting attempt maxAttempts delay)
            (WebSocket.emitted s) ->
          attempt = 1%Z /\ maxAttempts = 10%Z /\ delay = 1000%Z)
    /\ ~ In (WebSocket.EmitError "reconnect") (WebSocket.emitted s)
    /\ (WebSocket.reconnects (WebSocket.emitted s)
        <= WebSocket.opens (WebSocket.emitted s))%nat.
Proof.
  intros evs s.
  assert (I : WebSocket.reconnect_invariant s).
  { apply ws_run_invariant. unfold WebSocket.reconnect_invariant. cbn.
    split; [now left|]. repeat split; try discriminate; lia. }
  destruct I as (A & B & C & D).
  rewrite forallb_forall in C.
  split; [lia|]. split; [exact B|]. split; [|split].
  - intros a mx d H. specialize (C _ H). cbn [WebSocket.first_attempt] in C.
    apply andb_prop in C. destruct C as [C C3].
    apply andb_prop in C. destruct C as [C1 C2].
    apply Z.eqb_eq in C1, C2, C3. now repeat split.
  - intro H. specialize (C _ H). discriminate C.
  - lia.
Qed.

Lemma ws_step_no_open (s : WebSocket.Service) (ev : WebSocket.Event) :
  WebSocket.isConnected (WebSocket.state s) = false ->
  WebSocket.not_open ev = true ->
  WebSocket.isConnected (WebSocket.state (WebSocket.step s ev)) = false
  /\ WebSocket.reconnects (WebSocket.emitted (WebSocket.step s ev))
     = WebSocket.reconnects (WebSocket.emitted s)
  /\ WebSocket.reconnectAttempts (WebSocket.state (WebSocket.step s ev))
     = WebSocket.reconnectAttempts (WebSocket.state s)
  /\ (WebSocket.reconnectTimer (WebSocket.step s ev) = None
      \/ WebSocket.reconnectTimer (WebSocket.step s ev)
         = WebSocket.reconnectTimer s).
Proof.
  destruct s as [w rt hb [c cg lp lt ra] em sc n].
  cbn [WebSocket.state WebSocket.isConnected]. intros -> N.
  destruct ev; try discriminate N; ws_unfold.
  all: ws_cases.
  all: unfold WebSocket.reconnects; cbn [List.filter length].
  all: repeat split; try discriminate; try (now left); try (now right).
Qed.

(** X16: while the service is not connected, nothing schedules a
    reconnect: through every sequence of calls and callbacks in which no
    socket opens, the service stays disconnected, no 'reconnecting'
    notification is added, the retry counter keeps its value and the
    reconnect timer is not armed anew.  So a reconnect attempt that fails,
    and a close that follows [disconnect()], are not followed by another
    attempt. *)
Theorem X16_no_retry_without_an_open :
  forall (s : WebSocket.Service) (evs : list WebSocket.Event),
    WebSocket.isConnected (WebSocket.state s) = false ->
    forallb WebSocket.not_open evs = true ->
    let s' := WebSocket.run evs s in
    WebSocket.isConnected (WebSocket.state s') = false
    /\ WebSocket.reconnects (WebSocket.emitted s')
       = WebSocket.reconnects (WebSocket.emitted s)
    /\ WebSocket.reconnectAttempts (WebSocket.state s')
       = WebSocket.reconnectAttempts (WebSocket.state s)
    /\ (WebSocket.reconnectTimer s' = None
        \/ WebSocket.reconnectTimer s' = WebSocket.reconnectTimer s).
Proof.
  intros s evs. revert s. unfold WebSocket.run.
  induction evs as [|ev evs IH]; cbn [fold_left forallb]; intros s C F.
  - repeat split; [exact C | now right].
  - apply andb_prop in F. destruct F as [Fe Fevs].
    destruct (ws_step_no_open s ev C Fe) as (C1 & R1 & A1 & T1).
    destruct (IH _ C1 Fevs) as (C2 & R2 & A2 & T2).
    split; [exact C2|]. split; [now rewrite R2|]. split; [now rewrite A2|].
    destruct T2 as [T2|T2]; [now left|].
    rewrite T2. exact T1.
Qed.

Lemma X16_witness :
  let s := WebSocket.run [WebSocket.DoConnect true; WebSocket.OnOpen 5;
                          WebSocket.OnClose 1006]
             WebSocket.constructor in
  let evs := [WebSocket.OnReconnectTimer true; WebSocket.OnError;
              WebSocket.OnClose 1006; WebSocket.OnTimeout] in
  WebSocket.isConnected (WebSocket.state s) = false
  /\ forallb WebSocket.not_open evs = true
  /\ WebSocket.reconnects (WebSocket.emitted (WebSocket.run evs s)) = 1%nat.
Proof.
  intros s evs.
  assert (C : WebSocket.isConnected (WebSocket.state s) = false) by reflexivity.
  assert (F : forallb WebSocket.not_open evs = true) by reflexivity.
  split; [exact C|]. split; [exact F|].
  destruct (X16_no_retry_without_an_open s evs C F) as (_ & R & _).
  rewrite R. reflexivity.
Defined.

(** ** Instances *)

Lemma X1_witness :
  let e := run [OpAddSource 1 micStream mic] (constructor running emptyVisual) in
  let s := mixSource false 0 (newSource 1 micStream mic) in
  In s (sources e) /\ Registry.get 1 (sources e) = Some s.
Proof.
  intros e s.
  assert (I : In s (sources e)) by (left; reflexivity).
  split; [exact I|].
  destruct (X1_one_channel_per_id running emptyVisual
              [OpAddSource 1 micStream mic]) as [_ H].
  destruct (H s I) as [G _]. exact G.
Defined.

Lemma X2_witness :
  let e := run [OpAddSource 1 micStream mic] (constructor running emptyVisual) in
  let s := mixSource false 0 (newSource 1 micStream mic) in
  In s (sources e) /\ volume s <= 2.
Proof.
  intros e s.
  assert (I : In s (sources e)) by (left; reflexivity).
  split; [exact I|].
  destruct (X2_levels_stay_in_range running emptyVisual
              [OpAddSource 1 micStream mic]) as (_ & _ & H).
  destruct (H s I) as (_ & V & _). exact V.
Defined.

Lemma X9_witness :
  (1 <= 64 <= 255)%nat
  /\ nth (256 - 64) (makeDistortionCurve 50) 0
     == - nth 64 (makeDistortionCurve 50) 0.
Proof.
  assert (H : (1 <= 64 <= 255)%nat) by lia.
  split; [exact H|].
  destruct (X9_distortion_curve_shape 50) as (_ & _ & _ & S & _).
  exact (S 64%nat H).
Defined.

Lemma X15_witness :
  let s := WebSocket.run [WebSocket.DoConnect true; WebSocket.OnOpen 5]
             WebSocket.constructor in
  WebSocket.isConnected (WebSocket.state s) = true
  /\ WebSocket.reconnectAttempts (WebSocket.state s) = 0%Z.
Proof.
  intro s.
  assert (C : WebSocket.isConnected (WebSocket.state s) = true) by reflexivity.
  split; [exact C|].
  destruct (X15_reconnect_is_a_first_attempt
              [WebSocket.DoConnect true; WebSocket.OnOpen 5]) as (_ & B & _).
  destruct (B C) as [A _]. exact A.
Defined.

(** ** The effect chain *)

Lemma removeSource_fx (k : Z) (e : AudioEngine) :
  fx_levels (removeSource k e) = fx_levels e.
Proof.
  unfold removeSource. now destruct (Registry.get k (sources e)).
Qed.

(** Only [updateFx] writes the parameters of the effect chain. *)
Lemma step_fx (e : AudioEngine) (o : Op) :
  is_updateFx o = false -> fx_levels (step e o) = fx_levels e.
Proof.
  intro N. destruct o; cbn [step]; try reflexivity.
  - unfold resume. now destruct (context_state e).
  - unfold addSource. destruct (resume e) as [e'|] eqn:R; [|reflexivity].
    assert (C' : fx_levels e' = fx_levels e).
    { unfold resume in R. destruct (context_state e); inversion R; reflexivity. }
    assert (C'' : fx_levels (if Registry.has slotId (sources e')
                             then removeSource slotId e' else e')
                  = fx_levels e).
    { destruct (Registry.has slotId (sources e'));
        [now rewrite removeSource_fx | exact C']. }
    destruct (Host.getAudioTracks st); exact C''.
  - apply removeSource_fx.
  - unfold setSourceVolume. now destruct (Registry.get k (sources e)).
  - unfold setMute. now destruct (Registry.get k (sources e)).
  - unfold setSolo. now destruct (Registry.get k (sources e)).
  - unfold setMonitoring. now destruct (Registry.get k (sources e)).
  - unfold setCrossfade. now destruct (Registry.get k (sources e)).
  - discriminate N.
  - unfold processMetrics. now destruct (context_state e).
  - unfold destroy.
    assert (G : forall l acc,
              fx_levels (fold_left (fun a s => removeSource (id s) a) l acc)
              = fx_levels acc).
    { induction l as [|s l IH]; cbn [fold_left]; intro acc; [reflexivity|].
      now rewrite IH, removeSource_fx. }
    now rewrite G.
Qed.

Lemma clamp_range (lo hi x : Q) :
  lo <= hi -> lo <= Math_min hi (Math_max lo x) <= hi.
Proof.
  intro H. unfold Math_min, Math_max. case_ltb; lra.
Qed.

Lemma updateFx_levels (state : FxState) (e : AudioEngine) :
  20 <= filter_frequency (updateFx state e) <= 20000
  /\ 0 <= filter_Q (updateFx state e) <= 20
  /\ 0 <= delay_delayTime (updateFx state e) <= 4
  /\ 0 <= delayFeedback_gain (updateFx state e) <= 0.95
  /\ 0 <= delayWet_gain (updateFx state e) <= 1
  /\ delayDry_gain (updateFx state e) = delayDry_gain e.
Proof.
  unfold updateFx.
  cbn [filter_frequency filter_Q delay_delayTime delayFeedback_gain
       delayWet_gain delayDry_gain].
  repeat split; try (apply clamp_range; lra).
Qed.

(** X17: the effect chain over the life of the engine.  Until the first
    [updateFx] the chain has the values of the constructor: filter at
    20000, delay time 0, wet gain 0, and the feedback gain at 1, the value
    the host creates a gain stage with.  From the first [updateFx] on,
    after whatever calls, the filter frequency is in [20, 20000], the
    resonance in [0, 20], the delay time in [0, 4], the feedback gain in
    [0, 0.95] and the wet gain in [0, 1].  The dry gain is 1 throughout. *)
Theorem X17_effect_chain_levels :
  forall (ctx : ContextState) (vd : VisualData) (ops : list Op),
    let e := run ops (constructor ctx vd) in
    delayDry_gain e = 1
    /\ (existsb is_updateFx ops = false ->
        filter_frequency e = 20000 /\ filter_Q e = 1 /\ delay_delayTime e = 0
        /\ delayFeedback_gain e = 1 /\ delayWet_gain e = 0)
    /\ (existsb is_updateFx ops = true ->
        20 <= filter_frequency e <= 20000
        /\ 0 <= filter_Q e <= 20
        /\ 0 <= delay_delayTime e <= 4
        /\ 0 <= delayFeedback_gain e <= 0.95
        /\ 0 <= delayWet_gain e <= 1).
Proof.
  intros ctx vd ops.
  assert (Fr : forall ops e0,
            existsb is_updateFx ops = false ->
            fx_levels (run ops e0) = fx_levels e0).
  { unfold run. induction ops0 as [|o ops0 IH]; cbn [fold_left existsb];
      intros e0 N; [reflexivity|].
    apply orb_false_iff in N. destruct N as [No Nops].
    now rewrite IH, step_fx. }
  assert (In_range : forall ops e0,
            (20 <= filter_frequency e0 <= 20000
             /\ 0 <= filter_Q e0 <= 20
             /\ 0 <= delay_delayTime e0 <= 4
             /\ 0 <= delayFeedback_gain e0 <= 0.95
             /\ 0 <= delayWet_gain e0 <= 1
             /\ delayDry_gain e0 = 1) ->
            let e := run ops e0 in
            20 <= filter_frequency e <= 20000
            /\ 0 <= filter_Q e <= 20
            /\ 0 <= delay_delayTime e <= 4
            /\ 0 <= delayFeedback_gain e <= 0.95
            /\ 0 <= delayWet_gain e <= 1
            /\ delayDry_gain e = 1).
  { unfold run. induction ops0 as [|o ops0 IH]; cbn [fold_left];
      intros e0 H; [exact H|].
    apply IH. destruct (is_updateFx o) eqn:U.
    - destruct o; try discriminate U. cbn [step].
      destruct (updateFx_levels state e0) as (A & B & C & D & E & F).
      destruct H as (_ & _ & _ & _ & _ & Dry).
      repeat split; tauto || (rewrite F; assumption).
    - pose proof (step_fx e0 o U) as S. unfold fx_levels in S.
      inversion S as [[S1 S2 S3 S4 S5 S6]].
      rewrite ?S1, ?S2, ?S3, ?S4, ?S5, ?S6. exact H. }
  assert (Split : forall ops e0,
            delayDry_gain e0 = 1 ->
            existsb is_updateFx ops = true ->
            let e := run ops e0 in
            20 <= filter_frequency e <= 20000
            /\ 0 <= filter_Q e <= 20
            /\ 0 <= delay_delayTime e <= 4
            /\ 0 <= delayFeedback_gain e <= 0.95
            /\ 0 <= delayWet_gain e <= 1
            /\ delayDry_gain e = 1).
  { unfold run. induction ops0 as [|o ops0 IH]; cbn [fold_left existsb];
      intros e0 Dry X; [discriminate X|].
    destruct (is_updateFx o) eqn:U.
    - apply In_range. destruct o; try discriminate U. cbn [step].
      destruct (updateFx_levels state e0) as (A & B & C & D & E & F).
      repeat split; tauto || (rewrite F; assumption).
    - cbn [orb] in X. apply IH; [|exact X].
      pose proof (step_fx e0 o U) as S. unfold fx_levels in S.
      inversion S as [[S1 S2 S3 S4 S5 S6]]. rewrite ?S6. exact Dry. }
  cbv zeta. split; [|split].
  - destruct (existsb is_updateFx ops) eqn:X.
    + now destruct (Split ops (constructor ctx vd) eq_refl X)
        as (_ & _ & _ & _ & _ & Dry).
    + pose proof (Fr ops (constructor ctx vd) X) as S. unfold fx_levels in S.
      inversion S as [[S1 S2 S3 S4 S5 S6]]. rewrite ?S6. reflexivity.
  - intro X. pose proof (Fr ops (constructor ctx vd) X) as S.
    unfold fx_levels in S. inversion S as [[S1 S2 S3 S4 S5 S6]].
    rewrite ?S1, ?S2, ?S3, ?S4, ?S5. repeat split.
  - intro X. destruct (Split ops (constructor ctx vd) eq_refl X)
      as (A & B & C & D & E & _).
    repeat split; tauto.
Qed.

Lemma X17_witness :
  let ops := [OpAddSource 1 micStream mic; OpSetCrossfader 1] in
  existsb is_updateFx ops = false
  /\ delayFeedback_gain (run ops (constructor running emptyVisual)) = 1.
Proof.
  intro ops.
  assert (N : existsb is_updateFx ops = false) by reflexivity.
  split; [exact N|].
  destruct (X17_effect_chain_levels running emptyVisual ops) as (_ & B & _).
  destruct (B N) as (_ & _ & _ & F & _). exact F.
Defined.
